(** * Wasatch.PY: acquisition protocol, excitation reconciliation and wavecal

    A shallow embedding of the parts of [wasatch/utils.py],
    [wasatch/SpectrometerSettings.py] and [wasatch/BLEDevice.py] that the
    specification talks about, followed by the properties proved of them.

    Conventions.
    - Python [int] is [Z]; Python [float] is an IEEE-754 binary64 value, the
      kernel's primitive [float]; a value that may be either is a [Py.num].
    - A Python list is a [list]; indexing follows Python (negative indices
      count from the end, an index out of range raises [IndexError]).
    - [None] is [option]'s [None] wherever a field may hold it.
    - Arithmetic that can raise (the conversion of an [int] too large for a
      float, a division by zero) returns an [Arith.attempt]: the value, or
      the exception raised.
    - Effects are explicit: a function that mutates [self] takes and returns the
      record, and a coroutine that talks to the transport returns the list of
      transport calls it made, in order. *)

From Stdlib Require Import ZArith List String Ascii Bool Lia Floats.
From Stdlib Require Uint63.
Import ListNotations.

Set Warnings "-inexact-float".

Local Open Scope Z_scope.

(* ===================================================================== *)
(** * Python values *)
(* ===================================================================== *)

Module Py.

(** The exceptions the modelled code can raise. *)
Inductive exn : Set :=
| IndexError
| OverflowError
| TypeError.

(** A Python number: [int] or [float]. *)
Inductive num : Set :=
| PyInt (z : Z)
| PyFloat (f : float).

(** The binary64 value nearest to an [int], ties to even: what [float(z)]
    returns when it returns. Beyond the binary64 range this is an infinity,
    where Python raises [OverflowError]: see [Arith.checked_float]. *)
Definition float_of_int (z : Z) : float :=
  SF2Prim (binary_normalize prec emax z 0 false).

(** [n != 0]. A NaN differs from zero. *)
Definition nonzero (n : num) : bool :=
  match n with
  | PyInt z => negb (z =? 0)
  | PyFloat f => negb (PrimFloat.eqb f 0%float)
  end.

(** [math.isnan(x)]. *)
Definition isnan (x : float) : bool := negb (PrimFloat.eqb x x).

(** 2^52: from here on every binary64 value is an integer. *)
Definition two52 : float := 4503599627370496%float.

(** [round(x, 0)] on a float: the nearest integer, ties to even, as a float;
    infinities and NaN round to themselves. *)
Definition round0 (x : float) : float :=
  let a := PrimFloat.abs x in
  if PrimFloat.ltb a two52
  then
    let r := PrimFloat.sub (PrimFloat.add a two52) two52 in
    if PrimFloat.get_sign x then PrimFloat.opp r else r
  else x.

(** [range(n)]: empty when [n <= 0]. *)
Definition range (n : Z) : list Z :=
  map Z.of_nat (seq 0 (Z.to_nat n)).

(** [len(l)]. *)
Definition len {A} (l : list A) : Z := Z.of_nat (List.length l).

(** The position a Python index [i] denotes in a list of length [n]:
    negative indices count from the end; [None] is [IndexError]. *)
Definition position (n : nat) (i : Z) : option nat :=
  let j := if i <? 0 then i + Z.of_nat n else i in
  if (0 <=? j) && (j <? Z.of_nat n) then Some (Z.to_nat j) else None.

(** [l[i]]. *)
Definition getitem {A} (l : list A) (i : Z) : option A :=
  match position (List.length l) i with
  | Some k => nth_error l k
  | None => None
  end.

(** Replace the element at position [k] (which is in range when called). *)
Fixpoint update {A} (l : list A) (k : nat) (v : A) : list A :=
  match l, k with
  | [], _ => []
  | _ :: t, O => v :: t
  | h :: t, S k' => h :: update t k' v
  end.

(** [l[i] = v]: the updated list, or [None] for [IndexError]. *)
Definition setitem {A} (l : list A) (i : Z) (v : A) : option (list A) :=
  match position (List.length l) i with
  | Some k => Some (update l k v)
  | None => None
  end.

(** [s.upper()] for a string of 7-bit characters: the letters a-z are
    raised, every other character is unchanged. Python's [str.upper] also
    maps characters beyond ASCII (U+00DF to SS, U+017F to S); the properties
    stated with [upper] assume names of 7-bit characters. *)
Definition upper_ascii (c : ascii) : ascii :=
  let n := nat_of_ascii c in
  if (Nat.leb 97 n && Nat.leb n 122)%bool then ascii_of_nat (n - 32) else c.

Fixpoint upper (s : string) : string :=
  match s with
  | EmptyString => EmptyString
  | String c t => String (upper_ascii c) (upper t)
  end.

(** [needle in hay] on strings: [needle] occurs as a substring. *)
Fixpoint contains (needle hay : string) : bool :=
  if String.prefix needle hay then true
  else match hay with
       | EmptyString => false
       | String _ t => contains needle t
       end.

End Py.

Import Py.

(** Python's arithmetic with the exceptions it raises. *)
Module Arith.

(** What ends a computation early. *)
Inductive failure : Set :=
| Exception (e : exn)
| ZeroDivisionError.

(** A value, or the exception raised instead. *)
Inductive attempt (A : Type) : Type :=
| Ok (a : A)
| Fails (e : failure).

Arguments Ok {A} a.
Arguments Fails {A} e.

Definition and_then {A B} (m : attempt A) (k : A -> attempt B) : attempt B :=
  match m with
  | Ok a => k a
  | Fails e => Fails e
  end.

(** [l[i]]. *)
Definition subscript {A} (l : list A) (i : Z) : attempt A :=
  match getitem l i with
  | Some v => Ok v
  | None => Fails (Exception IndexError)
  end.

(** Neither an infinity nor a NaN. *)
Definition finite (f : float) : bool :=
  match Prim2SF f with
  | S754_zero _ | S754_finite _ _ _ => true
  | _ => false
  end.

(** [float(n)]: an [int] beyond the binary64 range raises
    [OverflowError]. *)
Definition checked_float (n : num) : attempt float :=
  match n with
  | PyInt z =>
      if finite (float_of_int z) then Ok (float_of_int z)
      else Fails (Exception OverflowError)
  | PyFloat f => Ok f
  end.

(** A binary operation with a [float] among its operands: both are
    converted, the left one first. *)
Definition float_op (op : float -> float -> float) (a b : num)
  : attempt num :=
  and_then (checked_float a) (fun x =>
  and_then (checked_float b) (fun y =>
  Ok (PyFloat (op x y)))).

(** [a - b]. *)
Definition sub (a b : num) : attempt num :=
  match a, b with
  | PyInt x, PyInt y => Ok (PyInt (x - y))
  | _, _ => float_op PrimFloat.sub a b
  end.

(** [a + b]. *)
Definition add (a b : num) : attempt num :=
  match a, b with
  | PyInt x, PyInt y => Ok (PyInt (x + y))
  | _, _ => float_op PrimFloat.add a b
  end.

(** [a * b]. *)
Definition mul (a b : num) : attempt num :=
  match a, b with
  | PyInt x, PyInt y => Ok (PyInt (x * y))
  | _, _ => float_op PrimFloat.mul a b
  end.

(** [a / b] for a [float] [a]: the divisor is converted, then tested
    against zero. *)
Definition float_truediv (a : float) (b : num) : attempt float :=
  and_then (checked_float b) (fun y =>
  if PrimFloat.eqb y 0%float then Fails ZeroDivisionError
  else Ok (PrimFloat.div a y)).

(** The order of an [int] and a [float], which Python decides on their
    exact values; [None] when the float is a NaN. *)
Definition compare_int_float (z : Z) (f : float) : option comparison :=
  match Prim2SF f with
  | S754_nan => None
  | S754_infinity negative => Some (if negative then Gt else Lt)
  | S754_zero _ => Some (z ?= 0)
  | S754_finite negative m e =>
      let v := if negative then Z.neg m else Z.pos m in
      if 0 <=? e then Some (z ?= v * 2 ^ e)
      else Some (z * 2 ^ (- e) ?= v)
  end.

(** [a > b]. *)
Definition gt (a b : num) : bool :=
  match a, b with
  | PyInt x, PyInt y => x >? y
  | PyFloat x, PyFloat y => PrimFloat.ltb y x
  | PyInt x, PyFloat y =>
      match compare_int_float x y with
      | Some Gt => true
      | _ => false
      end
  | PyFloat x, PyInt y =>
      match compare_int_float y x with
      | Some Lt => true
      | _ => false
      end
  end.

End Arith.

(** The outcome of a method that returns nothing: it completes, or raises. *)
Inductive completion : Set :=
| Done
| Raises (e : Arith.failure).

(* ===================================================================== *)
(** * utils.py *)
(* ===================================================================== *)

(** A loop that appends one computed value per element: the list built
    when every computation returns, the first exception otherwise. *)
Fixpoint each {A B : Type} (f : A -> Arith.attempt B) (l : list A)
  : Arith.attempt (list B) :=
  match l with
  | [] => Arith.Ok []
  | a :: rest =>
      Arith.and_then (f a) (fun b =>
      Arith.and_then (each f rest) (fun bs =>
      Arith.Ok (b :: bs)))
  end.

(** One turn of the loop of [generate_wavelengths]:
    [c0 + c1 * x + c2 * x * x + c3 * x * x * x], evaluated from the left. *)
Definition wavelength_at (c0 c1 c2 c3 : num) (x : Z)
  : Arith.attempt num :=
  Arith.and_then (Arith.mul c1 (PyInt x)) (fun linear =>
  Arith.and_then (Arith.add c0 linear) (fun sum1 =>
  Arith.and_then (Arith.mul c2 (PyInt x)) (fun c2x =>
  Arith.and_then (Arith.mul c2x (PyInt x)) (fun square =>
  Arith.and_then (Arith.add sum1 square) (fun sum2 =>
  Arith.and_then (Arith.mul c3 (PyInt x)) (fun c3x =>
  Arith.and_then (Arith.mul c3x (PyInt x)) (fun c3xx =>
  Arith.and_then (Arith.mul c3xx (PyInt x)) (fun cube =>
  Arith.add sum2 cube)))))))).

(** [generate_wavelengths(pixels, c0, c1, c2, c3)]. *)
Definition generate_wavelengths (pixels : Z) (c0 c1 c2 c3 : num)
  : Arith.attempt (list num) :=
  each (wavelength_at c0 c1 c2 c3) (range pixels).

(** One turn of the loop of [generate_wavenumbers]:
    [base - 1e7 / wavelengths[i]], or the integer 0 where the wavelength
    is zero. *)
Definition wavenumber_at (base : float) (wavelength : num)
  : Arith.attempt num :=
  if nonzero wavelength
  then Arith.and_then (Arith.float_truediv 1e7%float wavelength)
         (fun quotient => Arith.Ok (PyFloat (PrimFloat.sub base quotient)))
  else Arith.Ok (PyInt 0).

(** [generate_wavenumbers(excitation, wavelengths)], for the float that
    [excitation()] returns. *)
Definition generate_wavenumbers (excitation : float) (wavelengths : list num)
  : Arith.attempt (list num) :=
  if (match wavelengths with [] => true | _ => false end)
     || PrimFloat.ltb excitation 1%float
  then Arith.Ok []
  else
    Arith.and_then (Arith.float_truediv 1e7%float (PyFloat excitation))
      (fun base => each (wavenumber_at base) wavelengths).

(** [range(start, -1, -1)] as a count: [count - 1, ..., 1, 0]. *)
Fixpoint countdown (count : nat) : list Z :=
  match count with
  | O => []
  | S k => Z.of_nat k :: countdown k
  end.

(** [range(start, start + count)]. *)
Fixpoint countup (start : Z) (count : nat) : list Z :=
  match count with
  | O => []
  | S k => start :: countup (start + 1) k
  end.

Section PeakFeet.

(** The elements of a spectrum and Python's [>] on them. *)
Context {A : Type} (gt : A -> A -> bool).

(** The first loop of [find_peak_feet_indices] over the indices left;
    [None] is the [IndexError] of a subscript. *)
Fixpoint left_foot (smoothed : list A) (indices : list Z) (left_index : Z)
  : option Z :=
  match indices with
  | [] => Some left_index
  | i :: rest =>
      if i =? 0 then Some left_index
      else
        match getitem smoothed i, getitem smoothed left_index with
        | Some here, Some best =>
            if gt here best then Some left_index
            else left_foot smoothed rest i
        | _, _ => None
        end
  end.

(** The second loop, for a spectrum of [spectrum_len] entries. *)
Fixpoint right_foot (smoothed : list A) (spectrum_len : Z)
    (indices : list Z) (right_index : Z) : option Z :=
  match indices with
  | [] => Some right_index
  | i :: rest =>
      if i + 1 =? spectrum_len then Some right_index
      else
        match getitem smoothed i, getitem smoothed right_index with
        | Some here, Some best =>
            if gt here best then Some right_index
            else right_foot smoothed spectrum_len rest i
        | _, _ => None
        end
  end.

(** [find_peak_feet_indices] from its two loops on, for the smoothed
    spectrum in use ([apply_boxcar] is numpy code and is not modelled).
    The argument [x_axis] is not read. *)
Definition peak_feet (smoothed : list A) (spectrum_len : Z)
    (x_index boxcar_half_width : Z) : option (Z * Z) :=
  match left_foot smoothed
                  (countdown (Z.to_nat (x_index - (boxcar_half_width + 1)
                                        + 1)))
                  x_index with
  | None => None
  | Some left_index =>
      match right_foot smoothed spectrum_len
                       (countup (x_index + (boxcar_half_width + 1))
                                (Z.to_nat (spectrum_len
                                           - (x_index
                                              + (boxcar_half_width + 1)))))
                       x_index with
      | None => None
      | Some right_index => Some (left_index, right_index)
      end
  end.

(** [find_peak_feet_indices(spectrum, x_axis, x_index)] with the default
    [boxcar_half_width=0], where the smoothed spectrum is the spectrum. *)
Definition find_peak_feet_indices (spectrum : list A) (x_index : Z)
  : option (Z * Z) :=
  peak_feet spectrum (len spectrum) x_index 0.

End PeakFeet.

Section UpdateObj.

(** The values attributes and dictionary entries hold. *)
Context {V : Type}.

(** [d[k]] on a dictionary kept as its items in insertion order; [None]
    when [k not in d]. *)
Fixpoint lookup (k : string) (d : list (string * V)) : option V :=
  match d with
  | [] => None
  | (k', v) :: rest => if String.eqb k' k then Some v else lookup k rest
  end.

(** [setattr(obj, k, v)] on the object's [__dict__]: an existing attribute
    is overwritten in place, a new one is added at the end. *)
Fixpoint setattr (obj : list (string * V)) (k : string) (v : V)
  : list (string * V) :=
  match obj with
  | [] => [(k, v)]
  | (k', v') :: rest =>
      if String.eqb k' k then (k', v) :: rest
      else (k', v') :: setattr rest k v
  end.

(** [sorted(keys)]: ascending, by insertion. *)
Fixpoint insert_sorted (k : string) (keys : list string) : list string :=
  match keys with
  | [] => [k]
  | k' :: rest =>
      if String.leb k k' then k :: k' :: rest
      else k' :: insert_sorted k rest
  end.

Fixpoint sorted (keys : list string) : list string :=
  match keys with
  | [] => []
  | k :: rest => insert_sorted k (sorted rest)
  end.

(** [update_obj_from_dict(dest_obj, src_dict)]: the object's [__dict__]
    afterwards. *)
Definition update_obj_from_dict (dest_obj src_dict : list (string * V))
  : list (string * V) :=
  fold_left
    (fun obj k =>
       match lookup k src_dict with
       | Some v => setattr obj k v
       | None => obj
       end)
    (sorted (map fst dest_obj)) dest_obj.

End UpdateObj.

(** [find_local_maxima], in a name space of its own: its local lists are
    called [x], [y] and [indices]. *)
Module Maxima.

Section LocalMaxima.

(** The values of the x axis with Python's [<=], the values of [a] with
    Python's [<], and the two bounds [center - tolerance] and
    [center + tolerance] of the window. *)
Context {X Y : Type} (le : X -> X -> bool) (lt : Y -> Y -> bool)
        (lower upper : X).

(** [center - tolerance <= x_value <= center + tolerance]: a chained
    comparison is the conjunction of its two halves. *)
Definition in_window (x_value : X) : bool :=
  le lower x_value && le x_value upper.

(** The three lists the first loop fills in step. *)
Record subset : Type := mkSubset {
  x : list X;
  y : list Y;
  indices : list Z
}.

(** The first loop of [find_local_maxima] over the indices left; [None] is
    the [IndexError] of a subscript. *)
Fixpoint gather (a : list Y) (x_axis : list X) (todo : list Z) (s : subset)
  : option subset :=
  match todo with
  | [] => Some s
  | i :: rest =>
      match getitem x_axis i with
      | None => None
      | Some x_value =>
          if in_window x_value then
            match getitem a i with
            | None => None
            | Some value =>
                gather a x_axis rest
                       (mkSubset (x s ++ [x_value]) (y s ++ [value])
                                 (indices s ++ [i]))
            end
          else gather a x_axis rest s
      end
  end.

(** The three running variables of the second loop. *)
Record best : Type := mkBest {
  best_x_index : Z;
  best_x_value : X;
  best_y_value : Y
}.

(** The second loop over the positions left. *)
Fixpoint climb (x_axis : list X) (s : subset) (todo : list Z) (b : best)
  : option best :=
  match todo with
  | [] => Some b
  | i :: rest =>
      match getitem (y s) i with
      | None => None
      | Some candidate =>
          if lt (best_y_value b) candidate then
            match getitem (indices s) i with
            | None => None
            | Some index =>
                match getitem x_axis index with
                | None => None
                | Some x_value =>
                    climb x_axis s rest (mkBest index x_value candidate)
                end
            end
          else climb x_axis s rest b
      end
  end.

(** What a call comes to. [raise] of a [str] is not a [raise] of an
    exception: Python answers it with [TypeError]. *)
Inductive maxima : Type :=
| Maximum (best_y_value : Y) (best_x_value : X) (best_x_index : Z)
| RaisesIndexError
| RaisesTypeError.

(** [find_local_maxima(a, x_axis, center, tolerance)]. The starting
    [best_x_value] is [x_axis[0]], the first entry of the whole axis. *)
Definition find_local_maxima (a : list Y) (x_axis : list X) : maxima :=
  match gather a x_axis (range (len x_axis)) (mkSubset [] [] []) with
  | None => RaisesIndexError
  | Some s =>
      match x s with
      | [] => RaisesTypeError
      | _ :: _ =>
          match getitem (indices s) 0, getitem x_axis 0, getitem (y s) 0 with
          | Some index, Some x_value, Some value =>
              match climb x_axis s (range (len (x s)))
                          (mkBest index x_value value) with
              | Some b =>
                  Maximum (best_y_value b) (best_x_value b) (best_x_index b)
              | None => RaisesIndexError
              end
          | _, _, _ => RaisesIndexError
          end
      end
  end.

(** The notions the properties of [find_local_maxima] are stated with.
    Index [i] of the axis holds a value of the window. *)
Definition inside (x_axis : list X) (i : Z) : Prop :=
  0 <= i /\ exists x_value,
    getitem x_axis i = Some x_value /\ in_window x_value = true.

(** A point of the window: its index, its x value and its y value. *)
Definition point : Type := Z * X * Y.

(** The points the first loop collects from the indices [todo]. *)
Fixpoint picked (a : list Y) (x_axis : list X) (todo : list Z)
  : list point :=
  match todo with
  | [] => []
  | i :: rest =>
      match getitem x_axis i, getitem a i with
      | Some x_value, Some value =>
          if in_window x_value
          then (i, x_value, value) :: picked a x_axis rest
          else picked a x_axis rest
      | _, _ => picked a x_axis rest
      end
  end.

(** The lists of a sequence of points. *)
Definition columns (points : list point) : subset :=
  mkSubset (map (fun p => snd (fst p)) points)
           (map snd points)
           (map (fun p => fst (fst p)) points).

(** One turn of the second loop on a point. *)
Definition turn (b : best) (p : point) : best :=
  if lt (best_y_value b) (snd p)
  then mkBest (fst (fst p)) (snd (fst p)) (snd p)
  else b.

End LocalMaxima.

Arguments point : clear implicits.

End Maxima.

(** [peak_height_above_background(spectrum, x_axis, x_index)] with the
    default [boxcar_half_width=0]: [(height, width_wn, width_px)]. The
    debug log lines raise nothing. *)
Definition peak_height_above_background (spectrum x_axis : list num)
    (x_index : Z) : Arith.attempt (num * num * Z) :=
  match find_peak_feet_indices Arith.gt spectrum x_index with
  | None => Arith.Fails (Arith.Exception IndexError)
  | Some (left_index, right_index) =>
      Arith.and_then (Arith.subscript x_axis right_index) (fun x_right =>
      Arith.and_then (Arith.subscript x_axis left_index) (fun x_left =>
      Arith.and_then (Arith.sub x_right x_left) (fun width_wn =>
      let width_px := right_index - left_index + 1 in
      Arith.and_then (Arith.subscript spectrum right_index) (fun s_right =>
      Arith.and_then (Arith.subscript spectrum left_index) (fun s_left =>
      Arith.and_then (Arith.sub s_right s_left) (fun rise =>
      Arith.and_then (Arith.checked_float rise) (fun rise_float =>
      Arith.and_then (Arith.float_truediv rise_float width_wn) (fun slope =>
      Arith.and_then (Arith.subscript spectrum left_index) (fun s_foot =>
      Arith.and_then (Arith.subscript x_axis x_index) (fun x_peak =>
      Arith.and_then (Arith.subscript x_axis left_index) (fun x_foot =>
      Arith.and_then (Arith.sub x_peak x_foot) (fun run =>
      Arith.and_then (Arith.mul (PyFloat slope) run) (fun above =>
      Arith.and_then (Arith.add s_foot above) (fun baseline =>
      Arith.and_then (Arith.subscript spectrum x_index) (fun s_peak =>
      Arith.and_then (Arith.sub s_peak baseline) (fun height =>
      Arith.Ok (height, width_wn, width_px)))))))))))))))))
  end.

Section AreaUnderPeak.

(** [numpy.trapz(y, x)], which is not Python code of the repository. *)
Context {R : Type} (trapz : list num -> list num -> R).

(** The loop of [area_under_peak] over the indices left. *)
Fixpoint peak_points (spectrum x_axis : list num) (left_index : Z)
    (slope : float) (todo : list Z) (subspectrum subaxis : list num)
  : Arith.attempt (list num * list num) :=
  match todo with
  | [] => Arith.Ok (subspectrum, subaxis)
  | i :: rest =>
      Arith.and_then (Arith.subscript spectrum left_index) (fun s_foot =>
      Arith.and_then (Arith.subscript x_axis i) (fun x_here =>
      Arith.and_then (Arith.subscript x_axis left_index) (fun x_foot =>
      Arith.and_then (Arith.sub x_here x_foot) (fun run =>
      Arith.and_then (Arith.mul (PyFloat slope) run) (fun above =>
      Arith.and_then (Arith.add s_foot above) (fun baseline =>
      Arith.and_then (Arith.subscript spectrum i) (fun s_here =>
      Arith.and_then (Arith.sub s_here baseline) (fun lifted =>
      Arith.and_then (Arith.subscript x_axis i) (fun x_again =>
      peak_points spectrum x_axis left_index slope rest
                  (subspectrum ++ [lifted]) (subaxis ++ [x_again]))))))))))
  end.

(** [area_under_peak(spectrum, x_axis, x_index)] with the default
    [boxcar_half_width=0]. *)
Definition area_under_peak (spectrum x_axis : list num) (x_index : Z)
  : Arith.attempt R :=
  match find_peak_feet_indices Arith.gt spectrum x_index with
  | None => Arith.Fails (Arith.Exception IndexError)
  | Some (left_index, right_index) =>
      Arith.and_then (Arith.subscript spectrum right_index) (fun s_right =>
      Arith.and_then (Arith.subscript spectrum left_index) (fun s_left =>
      Arith.and_then (Arith.sub s_right s_left) (fun rise =>
      Arith.and_then (Arith.checked_float rise) (fun rise_float =>
      Arith.and_then (Arith.subscript x_axis right_index) (fun x_right =>
      Arith.and_then (Arith.subscript x_axis left_index) (fun x_left =>
      Arith.and_then (Arith.sub x_right x_left) (fun width =>
      Arith.and_then (Arith.float_truediv rise_float width) (fun slope =>
      Arith.and_then
        (peak_points spectrum x_axis left_index slope
                     (countup left_index
                              (Z.to_nat (right_index + 1 - left_index)))
                     [] [])
        (fun '(subspectrum, subaxis) =>
           Arith.Ok (trapz subspectrum subaxis))))))))))
  end.

End AreaUnderPeak.

(** An axis entry whose difference with itself is zero: an [int], or a
    [float] that is neither infinite nor a NaN. *)
Definition settled (n : num) : bool :=
  match n with
  | PyInt _ => true
  | PyFloat f => Arith.finite f
  end.

(** The entry at [i] is greater than the entry at [x_index]. *)
Definition higher (spectrum : list num) (i x_index : Z) : Prop :=
  exists u v,
    getitem spectrum i = Some u
    /\ getitem spectrum x_index = Some v
    /\ Arith.gt u v = true.

(** A spectrum with a dip at index 2, on an axis of wavenumbers. *)
Definition dip : list num := [PyInt 5; PyInt 9; PyInt 1; PyInt 7; PyInt 2].
Definition dip_axis : list num :=
  [PyFloat 800; PyFloat 801.5; PyFloat 803; PyFloat 804.5; PyFloat 806].

(** A spectrum with a peak at index 2, on the pixel axis. *)
Definition bump : list num := [PyInt 1; PyInt 3; PyInt 9; PyInt 4; PyInt 2].
Definition bump_axis : list num :=
  [PyInt 0; PyInt 1; PyInt 2; PyInt 3; PyInt 4].

(* ===================================================================== *)
(** * SpectrometerSettings.py *)
(* ===================================================================== *)

(** The fields of [EEPROM] that [SpectrometerSettings] reads or writes.
    [EEPROM.py] is not among the sources; the fields are taken as the methods
    below use them. [excitation_nm] is the legacy excitation (an integer on
    the device, a float once [update_wavecal] has synchronised it);
    [excitation_nm_float] may be [None]. *)
Record EEPROM : Set := mkEEPROM {
  format : Z;
  serial_number : string;
  detector : string;
  startup_temp_degC : Z;
  active_pixels_horizontal : Z;
  wavelength_coeffs : option (list num);
  excitation_nm : num;
  excitation_nm_float : option float
}.

(** The fields of [SpectrometerState] the acquisition reads. *)
Record SpectrometerState : Set := mkState {
  integration_time_ms : Z;
  laser_enabled : bool;
  laser_power_perc : Z;
  laser_power_mW : Z
}.

Record SpectrometerSettings : Set := mkSettings {
  state : SpectrometerState;
  eeprom : EEPROM;
  wavelengths : option (list num);
  wavenumbers : option (list num);
  lock_wavecal : bool
}.

Definition set_eeprom (e : EEPROM) (s : SpectrometerSettings) :=
  mkSettings (state s) e (wavelengths s) (wavenumbers s) (lock_wavecal s).

Definition set_wavelengths (w : option (list num)) (s : SpectrometerSettings) :=
  mkSettings (state s) (eeprom s) w (wavenumbers s) (lock_wavecal s).

Definition set_wavenumbers (w : option (list num)) (s : SpectrometerSettings) :=
  mkSettings (state s) (eeprom s) (wavelengths s) w (lock_wavecal s).

Definition set_wavelength_coeffs (c : option (list num)) (e : EEPROM) :=
  mkEEPROM (format e) (serial_number e) (detector e) (startup_temp_degC e)
           (active_pixels_horizontal e) c (excitation_nm e)
           (excitation_nm_float e).

Definition set_excitation_nm (x : num) (e : EEPROM) :=
  mkEEPROM (format e) (serial_number e) (detector e) (startup_temp_degC e)
           (active_pixels_horizontal e) (wavelength_coeffs e) x
           (excitation_nm_float e).

(** Records handed to the module's logger. *)
Inductive log_level : Set := LvlDebug | LvlInfo | LvlWarning | LvlError.

Inductive log_record : Set :=
| ExcitationOutOfRange (lvl : log_level) (new old : float).

(** The level a record is logged at. *)
Definition level (r : log_record) : log_level :=
  match r with
  | ExcitationOutOfRange lvl _ _ => lvl
  end.

(** [pixels()]. *)
Definition pixels (s : SpectrometerSettings) : Z :=
  active_pixels_horizontal (eeprom s).

(** The test [200 <= new and new <= 2500]. *)
Definition reasonable (new : float) : bool :=
  PrimFloat.leb 200%float new && PrimFloat.leb new 2500%float.

(** [excitation()], with the records it logs. Its first statement,
    [old = float(self.eeprom.excitation_nm)], may raise. *)
Definition excitation_logged (s : SpectrometerSettings)
  : Arith.attempt (float * list log_record) :=
  Arith.and_then (Arith.checked_float (excitation_nm (eeprom s))) (fun old =>
  Arith.Ok
    match excitation_nm_float (eeprom s) with
    | None => (old, [])
    | Some new =>
        if isnan new then (old, [])
        else if reasonable new then (new, [])
        else if negb (PrimFloat.eqb new 0%float)
             then (old, [ExcitationOutOfRange LvlDebug new old])
             else (old, [])
    end).

Definition excitation (s : SpectrometerSettings) : Arith.attempt float :=
  Arith.and_then (excitation_logged s) (fun r => Arith.Ok (fst r)).

(** [has_excitation()]. *)
Definition has_excitation (s : SpectrometerSettings) : Arith.attempt bool :=
  Arith.and_then (excitation s) (fun x =>
  Arith.Ok (PrimFloat.ltb 0%float x)).

(** [default_detector_setpoint_degC()]; [None] is Python's [None]. *)
Definition default_detector_setpoint_degC (s : SpectrometerSettings)
  : option Z :=
  if 4 <=? format (eeprom s) then Some (startup_temp_degC (eeprom s))
  else
    let det := upper (detector (eeprom s)) in
    if contains "S11511" det then Some 10
    else if contains "S10141" det then Some (-15)
    else if contains "G9214" det then Some (-15)
    else if contains "7031" det then Some (-15)
    else None.

(** [s.lower()] on the ASCII letters; other characters are unchanged. *)
Definition lower_ascii (c : ascii) : ascii :=
  let n := nat_of_ascii c in
  if (Nat.leb 65 n && Nat.leb n 90)%bool then ascii_of_nat (n + 32) else c.

Fixpoint lower (s : string) : string :=
  match s with
  | EmptyString => EmptyString
  | String c t => String (lower_ascii c) (lower t)
  end.

(** [is_imx()]. *)
Definition is_imx (s : SpectrometerSettings) : bool :=
  contains "imx" (lower (detector (eeprom s))).

(** [is_InGaAs()], given the truth value of [self.fpga_options.has_cf_select]
    ([FPGAOptions.py] is not among the sources). [re.match] anchors the
    pattern ['ingaas|g9214'] at the start of the name. *)
Definition is_InGaAs (s : SpectrometerSettings) (has_cf_select : bool)
  : bool :=
  let name := lower (detector (eeprom s)) in
  if String.prefix "ingaas" name || String.prefix "g9214" name then true
  else if has_cf_select then true
  else false.

(** A name of 7-bit characters only, on which [upper] and [lower] are
    Python's [str.upper] and [str.lower]. *)
Fixpoint seven_bit (s : string) : bool :=
  match s with
  | EmptyString => true
  | String c t => Nat.ltb (nat_of_ascii c) 128 && seven_bit t
  end.

(** The settings with another detector name. *)
Definition with_detector (name : string) (s : SpectrometerSettings)
  : SpectrometerSettings :=
  set_eeprom
    (mkEEPROM (format (eeprom s)) (serial_number (eeprom s)) name
              (startup_temp_degC (eeprom s))
              (active_pixels_horizontal (eeprom s))
              (wavelength_coeffs (eeprom s)) (excitation_nm (eeprom s))
              (excitation_nm_float (eeprom s)))
    s.

(** Truth value of a coefficient list in [if coeffs:]. *)
Definition truthy (c : option (list num)) : bool :=
  match c with
  | Some (_ :: _) => true
  | _ => false
  end.

(** The call to [utils.generate_wavelengths] of [update_wavecal], with the
    four subscripts [self.eeprom.wavelength_coeffs[0..3]] evaluated first.
    A subscript of [None] raises [TypeError]; [update_wavecal] makes the
    call only when the list is not empty. *)
Definition wavelengths_from_eeprom (s : SpectrometerSettings)
  : Arith.attempt (list num) :=
  match wavelength_coeffs (eeprom s) with
  | None => Arith.Fails (Arith.Exception TypeError)
  | Some cs =>
      Arith.and_then (Arith.subscript cs 0) (fun c0 =>
      Arith.and_then (Arith.subscript cs 1) (fun c1 =>
      Arith.and_then (Arith.subscript cs 2) (fun c2 =>
      Arith.and_then (Arith.subscript cs 3) (fun c3 =>
      generate_wavelengths (pixels s) c0 c1 c2 c3))))
  end.

(** The arguments of the two [log.debug("generated ...")] calls: the first
    and the last element of the array; [None] is [IndexError]. *)
Definition first_and_last (l : list num) : option (num * num) :=
  match getitem l 0, getitem l (-1) with
  | Some a, Some b => Some (a, b)
  | _, _ => None
  end.

(** The settings once the legacy excitation has been set to
    [float(round(x, 0))]. *)
Definition synchronised (x : float) (s : SpectrometerSettings)
  : SpectrometerSettings :=
  set_eeprom (set_excitation_nm (PyFloat (round0 x)) (eeprom s)) s.

(** The last two statements of [update_wavecal]'s tail: the call of
    [generate_wavenumbers(self.excitation(), self.wavelengths)] and the
    [log.debug] that subscripts its result. *)
Definition store_wavenumbers (wl : list num) (s : SpectrometerSettings)
  : completion * SpectrometerSettings :=
  match excitation s with
  | Arith.Fails e => (Raises e, s)
  | Arith.Ok x =>
      match generate_wavenumbers x wl with
      | Arith.Fails e => (Raises e, s)
      | Arith.Ok wn =>
          let s := set_wavenumbers (Some wn) s in
          match first_and_last wn with
          | Some _ => (Done, s)
          | None => (Raises (Arith.Exception IndexError), s)
          end
      end
  end.

(** The tail of [update_wavecal], from "keep legacy excitation in sync". *)
Definition update_wavenumbers (wl : list num) (s : SpectrometerSettings)
  : completion * SpectrometerSettings :=
  match has_excitation s with
  | Arith.Fails e => (Raises e, s)
  | Arith.Ok false => (Done, s)
  | Arith.Ok true =>
      match excitation s with
      | Arith.Fails e => (Raises e, s)
      | Arith.Ok x => store_wavenumbers wl (synchronised x s)
      end
  end.

(** [update_wavecal(coeffs)]: the outcome and the settings afterwards. *)
Definition update_wavecal (coeffs : option (list num))
    (s : SpectrometerSettings) : completion * SpectrometerSettings :=
  if lock_wavecal s then (Done, s)
  else
    let s := set_wavenumbers None (set_wavelengths None s) in
    if pixels s <? 1 then (Done, s)
    else
      let '(coeffs, s) :=
        match coeffs with
        | None => (wavelength_coeffs (eeprom s), s)
        | Some c =>
            (Some c, set_eeprom (set_wavelength_coeffs (Some c) (eeprom s)) s)
        end in
      let generated :=
        if truthy coeffs
        then Arith.and_then (wavelengths_from_eeprom s) (fun wl =>
             Arith.Ok (set_wavelengths (Some wl) s))
        else Arith.Ok s in
      match generated with
      | Arith.Fails e => (Raises e, s)
      | Arith.Ok s =>
          let wl :=
            match wavelengths s with
            | Some wl => wl
            | None => map PyInt (range (pixels s))
            end in
          let s := set_wavelengths (Some wl) s in
          match first_and_last wl with
          | None => (Raises (Arith.Exception IndexError), s)
          | Some _ => update_wavenumbers wl s
          end
      end.

(* ===================================================================== *)
(** * BLEDevice.py *)
(* ===================================================================== *)

Definition MAX_RETRIES : Z := 4.
Definition THROWAWAY_SPECTRA : Z := 6.

(** The GATT characteristics the acquisition uses. *)
Inductive characteristic : Set :=
| DEVICE_ACQUIRE_UUID
| SPECTRUM_PIXELS_UUID
| READ_SPECTRUM_UUID.

(** A byte of a response, as the integer Python's subscript yields. *)
Definition byte_value (b : Byte.byte) : Z := Z.of_N (Byte.to_N b).

(** The [Reading] the acquisition fills in ([Reading.py] is not among the
    sources; these are the attributes [ble_acquire] assigns). *)
Module Reading.
Record t : Set := make {
  integration_time_ms : Z;
  laser_power_perc : Z;
  laser_power_mW : Z;
  laser_enabled : bool;
  session_count : Z;
  sum_count : Z;
  spectrum : list Z
}.
End Reading.

(** What [acquire_data] and [ble_acquire] hand back. A bare [return] and
    [return None] are both [RetNone]. *)
Inductive retval : Set :=
| RetNone
| RetTrue
| RetReading (r : Reading.t).

(** The [log.error] records of [ble_acquire]. *)
Inductive ble_error : Set :=
| GivingUp (retries : Z)
| RetryRequested (delay_ms : Z)
| InvalidResponse (response_len : Z)
| ReceivedNack (first_pixel : Z)
| IgnoringTrailing (count : Z).

(** What a coroutine does to the outside, in order: the calls on the
    [BleakClient], each [asyncio.sleep] with its argument, which
    [asyncio.sleep] takes as a number of seconds, and the error records
    logged. A read carries the bytes the device answered. *)
Inductive effect : Set :=
| WriteGattChar (c : characteristic) (data : list Z)
| ReadGattChar (c : characteristic) (answer : list Byte.byte)
| Sleep (seconds : Z)
| LogError (msg : ble_error).

(** Transport I/O proper: the calls on the client. *)
Definition is_transport (e : effect) : bool :=
  match e with
  | WriteGattChar _ _ | ReadGattChar _ _ => true
  | Sleep _ | LogError _ => false
  end.

(** ** Statements with early return

    A statement either falls through with a value, executes [return],
    raises, or (only where the transport is consulted) finds that the device
    has nothing further to say. It carries the effects performed so far. *)
Inductive flow (A : Type) : Type :=
| Next (a : A)
| Return (v : retval)
| Raise (e : exn)
| Starved.
Arguments Next {A} a.
Arguments Return {A} v.
Arguments Raise {A} e.
Arguments Starved {A}.

Definition M (A : Type) : Type := flow A * list effect.

Definition next {A} (a : A) : M A := (Next a, []).
Definition ret_now (v : retval) : M unit := (Return v, []).
Definition raise {A} (e : exn) : M A := (Raise e, []).
Definition emit (e : effect) : M unit := (Next tt, [e]).

Definition bind {A B} (m : M A) (k : A -> M B) : M B :=
  match m with
  | (Next a, tr) => let '(r, tr') := k a in (r, tr ++ tr')
  | (Return v, tr) => (Return v, tr)
  | (Raise e, tr) => (Raise e, tr)
  | (Starved, tr) => (Starved, tr)
  end.

Notation "x <- m ;; k" := (bind m (fun x => k))
  (at level 61, m at next level, right associativity).
Notation "' pat <- m ;; k" := (bind m (fun x => match x with pat => k end))
  (at level 61, pat pattern, m at next level, right associativity).
Notation "m ;; k" := (bind m (fun _ => k))
  (at level 61, right associativity).

(** [if b: stmt] with nothing after it in the branch. *)
Definition when (b : bool) (m : M unit) : M unit :=
  if b then m else next tt.

(** A subscript or item assignment that may raise [IndexError]. *)
Definition or_index_error {A} (o : option A) : M A :=
  match o with
  | Some a => next a
  | None => raise IndexError
  end.

(** [n.to_bytes(2, byteorder="big")]; [OverflowError] outside 0..65535. *)
Definition to_bytes2 (n : Z) : M (list Z) :=
  if (0 <=? n) && (n <? 65536) then next [n / 256; n mod 256]
  else raise OverflowError.

(** ** The device *)

(** The attributes of [BLEDevice] the acquisition path touches.
    [perfroming_acquire] is the attribute [acquire_data] assigns (it does not
    exist until then); [performing_acquire] is the one [__init__] creates and
    [acquire_data] tests. *)
Record BLEDevice : Set := mkDevice {
  performing_acquire : bool;
  perfroming_acquire : option bool;
  disconnect : bool;
  disconnect_event : bool;
  session_reading_count : Z;
  settings : SpectrometerSettings
}.

(** What the world supplies to one turn of the packet loop: the value of
    each poll of [disconnect_event.is_set()] and of [self.disconnect] (the
    owner may call [close] from another thread at any time), and the bytes
    the device answers to the read. [event_after_pixel i] is the poll after
    storing the [i]-th pixel of the packet. *)
Record exchange : Set := mkExchange {
  event_at_top : bool;
  disconnect_seen : bool;
  event_before_sleep : bool;
  response : list Byte.byte;
  event_after_length_check : bool;
  event_after_pixel : nat -> bool
}.

(** The local variables of the packet loop. *)
Record loop_state : Set := mkLoop {
  spectrum : list Z;
  pixels_read : Z;
  retry_count : Z;
  request_retry : bool
}.

Definition header_len : Z := 2.

(** The inner [for i in range(pixels_in_packet)] loop, over the remaining
    indices [is]. A [break] and the end of the range both fall through. *)
Fixpoint store_pixels (total pixels_in_packet : Z) (x : exchange)
    (indices : list Z) (spectrum : list Z) (pixels_read : Z)
  : M (list Z * Z) :=
  match indices with
  | [] => next (spectrum, pixels_read)
  | i :: rest =>
      let offset := header_len + i * 2 in
      hi <- or_index_error (getitem (response x) (offset + 1)) ;;
      lo <- or_index_error (getitem (response x) offset) ;;
      let intensity := Z.lor (Z.shiftl (byte_value hi) 8) (byte_value lo) in
      spectrum <- or_index_error (setitem spectrum pixels_read intensity) ;;
      when (event_after_pixel x (Z.to_nat i)) (ret_now RetNone) ;;
      let pixels_read := pixels_read + 1 in
      if pixels_read =? total then
        when (negb (i + 1 =? pixels_in_packet))
             (emit (LogError (IgnoringTrailing (pixels_in_packet - (i + 1))))) ;;
        next (spectrum, pixels_read)
      else store_pixels total pixels_in_packet x rest spectrum pixels_read
  end.

(** One turn of [while (pixels_read < pixels)], after the loop test. Falling
    through (a [continue] included) yields the locals for the next turn. *)
Definition loop_body (integration_time : Z) (total : Z) (x : exchange)
    (st : loop_state) : M loop_state :=
  when (event_at_top x) (ret_now RetNone) ;;
  when (disconnect_seen x) (ret_now RetNone) ;;
  retry_count <-
    (if request_retry st then
       let retry_count := retry_count st + 1 in
       when (retry_count >? MAX_RETRIES)
            (emit (LogError (GivingUp MAX_RETRIES)) ;; ret_now RetNone) ;;
       next retry_count
     else next (retry_count st)) ;;
  let delay_ms := retry_count ^ 5 in
  let delay_ms :=
    if retry_count =? 1 then integration_time * THROWAWAY_SPECTRA
    else delay_ms in
  emit (LogError (RetryRequested delay_ms)) ;;
  when (event_before_sleep x) (ret_now RetNone) ;;
  emit (Sleep delay_ms) ;;
  request <- to_bytes2 (pixels_read st) ;;
  emit (WriteGattChar SPECTRUM_PIXELS_UUID request) ;;
  emit (ReadGattChar READ_SPECTRUM_UUID (response x)) ;;
  let response_len := len (response x) in
  if (response_len <? header_len) || negb (response_len mod 2 =? 0) then
    emit (LogError (InvalidResponse response_len)) ;;
    next (mkLoop (spectrum st) (pixels_read st) retry_count true)
  else
    when (event_after_length_check x) (ret_now RetNone) ;;
    b0 <- or_index_error (getitem (response x) 0) ;;
    b1 <- or_index_error (getitem (response x) 1) ;;
    let first_pixel := Z.lor (Z.shiftl (byte_value b0) 8) (byte_value b1) in
    if (first_pixel >? 2048) || (first_pixel <? 0) then
      emit (LogError (ReceivedNack first_pixel)) ;;
      next (mkLoop (spectrum st) (pixels_read st) retry_count true)
    else
      let pixels_in_packet := Z.quot (response_len - header_len) 2 in
      '(spectrum, pixels_read) <-
        store_pixels total pixels_in_packet x (range pixels_in_packet)
                     (spectrum st) (pixels_read st) ;;
      next (mkLoop spectrum pixels_read retry_count false).

(** [while (pixels_read < pixels)]: each turn takes the next exchange of the
    script; the locals at loop exit fall through. *)
Fixpoint packet_loop (integration_time total : Z) (script : list exchange)
    (st : loop_state) : M loop_state :=
  if pixels_read st <? total then
    match script with
    | [] => (Starved, [])
    | x :: rest =>
        st <- loop_body integration_time total x st ;;
        packet_loop integration_time total rest st
    end
  else next st.

(** [for i in range(4): spectrum[i] = spectrum[4]] over the indices left. *)
Fixpoint copy_from_fifth (indices : list Z) (spectrum : list Z)
  : option (list Z) :=
  match indices with
  | [] => Some spectrum
  | i :: rest =>
      match getitem spectrum 4 with
      | None => None
      | Some v =>
          match setitem spectrum i v with
          | None => None
          | Some spectrum => copy_from_fifth rest spectrum
          end
      end
  end.

(** The two statements after the packet loop that patch the edge pixels;
    [None] is [IndexError]. *)
Definition fixup (total : Z) (spectrum : list Z) : option (list Z) :=
  match copy_from_fifth (range 4) spectrum with
  | None => None
  | Some spectrum =>
      match getitem spectrum (total - 2) with
      | None => None
      | Some v => setitem spectrum (total - 1) v
      end
  end.

(** The statements of [ble_acquire] that follow its [return True]. *)
Definition protocol (d : BLEDevice) (script : list exchange) : M unit :=
  emit (WriteGattChar DEVICE_ACQUIRE_UUID []) ;;
  let total := active_pixels_horizontal (eeprom (settings d)) in
  let blank := map (fun _ => 0) (range total) in
  let volatile := state (settings d) in
  st <- packet_loop (integration_time_ms volatile) total script
                    (mkLoop blank 0 0 false) ;;
  completed <- or_index_error (fixup total (spectrum st)) ;;
  ret_now (RetReading
             (Reading.make (integration_time_ms volatile)
                           (laser_power_perc volatile)
                           (laser_power_mW volatile)
                           (laser_enabled volatile)
                           (session_reading_count d) 1 completed)).

(** [ble_acquire()], statement by statement. *)
Definition ble_acquire (d : BLEDevice) (script : list exchange) : M unit :=
  when (disconnect_event d) (ret_now RetNone) ;;
  ret_now RetTrue ;;
  protocol d script.

(** What the caller of [fut.result()] gets: the coroutine's return value
    (falling off its end returns [None]), its exception, or no answer at all
    when the device stops answering. *)
Inductive outcome : Set :=
| Returned (v : retval)
| Raised (e : exn)
| NoAnswer.

Definition result (f : flow unit) : outcome :=
  match f with
  | Next _ => Returned RetNone
  | Return v => Returned v
  | Raise e => Raised e
  | Starved => NoAnswer
  end.

Definition set_perfroming_acquire (b : bool) (d : BLEDevice) : BLEDevice :=
  mkDevice (performing_acquire d) (Some b) (disconnect d) (disconnect_event d)
           (session_reading_count d) (settings d).

Definition set_session_reading_count (n : Z) (d : BLEDevice) : BLEDevice :=
  mkDevice (performing_acquire d) (perfroming_acquire d) (disconnect d)
           (disconnect_event d) n (settings d).

(** The device as [__init__] leaves it, around the given settings. *)
Definition init (s : SpectrometerSettings) : BLEDevice :=
  mkDevice false None false false 0 s.

(** The device as [acquire_data] has it when it hands [ble_acquire] to the
    event loop (line 99): the counter incremented and the misspelt flag set.
    The next statement clears the misspelt flag again, before the wait for
    the result; [acquire_data] never reads that flag. *)
Definition submitted (d : BLEDevice) : BLEDevice :=
  set_session_reading_count (session_reading_count d + 1)
                            (set_perfroming_acquire true d).

(** [acquire_data()]: what it returns, the device afterwards, and the
    effects of the coroutine it ran. *)
Definition acquire_data (d : BLEDevice) (script : list exchange)
  : outcome * BLEDevice * list effect :=
  if performing_acquire d then (Returned RetTrue, d, [])
  else if disconnect d then (Returned RetNone, d, [])
  else
    let d := submitted d in
    let '(fl, tr) := ble_acquire d script in
    let d := set_perfroming_acquire false d in
    (result fl, d, tr).

(** The assignments of [close()] that precede its call on the client. *)
Definition close (d : BLEDevice) : BLEDevice :=
  mkDevice (performing_acquire d) (perfroming_acquire d) true true
           (session_reading_count d) (settings d).

(* ===================================================================== *)
(** * BLEDevice.py: settings and EEPROM *)
(* ===================================================================== *)

(** The characteristics written and read outside the acquisition. *)
Inductive setting_characteristic : Set :=
| SET_INT_UUID
| SET_GAIN_UUID
| SELECT_EEPROM_PAGE_UUID
| READ_EEPROM_UUID.

(** What these coroutines do to the outside: calls on the client, and the
    [log.error] of an [except Exception] clause. *)
Inductive gatt_call : Set :=
| GattWrite (c : setting_characteristic) (data : list Z)
| GattRead (c : setting_characteristic) (answer : list Byte.byte)
| SettingError.

(** [int(x)] on a float: truncation toward zero; [None] for the
    [ValueError] of a NaN and the [OverflowError] of an infinity. *)
Definition int_of_float (x : float) : option Z :=
  match Prim2SF x with
  | S754_zero _ => Some 0
  | S754_finite sign m e =>
      let magnitude :=
        if 0 <=? e then Z.pos m * 2 ^ e else Z.pos m / 2 ^ (- e) in
      Some (if sign then - magnitude else magnitude)
  | S754_infinity _ | S754_nan => None
  end.

(** [value.to_bytes(2, byteorder='big')] of [set_integration_time_ms]:
    only an [int] has the method, and only one within 16 bits converts. *)
Definition integration_time_bytes (value : num) : option (list Z) :=
  match value with
  | PyInt v =>
      match to_bytes2 v with
      | (Next bytes, _) => Some bytes
      | _ => None
      end
  | PyFloat _ => None
  end.

(** [set_integration_time_ms(value)]: the calls it makes. [write_ok] tells
    whether the client's write returns (it may raise instead); every
    exception ends in the [except] clause. *)
Definition set_integration_time_ms (value : num) (write_ok : bool)
  : list gatt_call :=
  match integration_time_bytes value with
  | Some value_bytes =>
      GattWrite SET_INT_UUID value_bytes
      :: (if write_ok then [] else [SettingError])
  | None => [SettingError]
  end.

(** The first two assignments of [set_gain]: [msb = int(value)] and
    [lsb = int((value - int(value)) * 256) & 0xff]. *)
Definition gain_parts (value : num) : option (Z * Z) :=
  match value with
  | PyInt v => Some (v, Z.land ((v - v) * 256) 255)
  | PyFloat f =>
      match int_of_float f with
      | None => None
      | Some msb =>
          let fraction := PrimFloat.sub f (float_of_int msb) in
          match int_of_float (PrimFloat.mul fraction (float_of_int 256)) with
          | None => None
          | Some scaled => Some (msb, Z.land scaled 255)
          end
      end
  end.

(** [((msb << 8) | lsb).to_bytes(2, byteorder='big')]. *)
Definition gain_bytes (value : num) : option (list Z) :=
  match gain_parts value with
  | None => None
  | Some (msb, lsb) =>
      match to_bytes2 (Z.lor (Z.shiftl msb 8) lsb) with
      | (Next bytes, _) => Some bytes
      | _ => None
      end
  end.

(** [set_gain(value)]: the calls it makes. *)
Definition set_gain (value : num) (write_ok : bool) : list gatt_call :=
  match gain_bytes value with
  | Some value_bytes =>
      GattWrite SET_GAIN_UUID value_bytes
      :: (if write_ok then [] else [SettingError])
  | None => [SettingError]
  end.

(** [bytearray([i, j])]: both must be in [range(256)]; [None] is the
    [ValueError]. *)
Definition page_ids (i j : Z) : option (list Z) :=
  if (0 <=? i) && (i <? 256) && (0 <=? j) && (j <? 256) then Some [i; j]
  else None.

(** The inner loop of [get_eeprom] over the subpages left: the page buffer
    and the calls so far; [None] when [bytearray] raises. [answer i j] is
    what the device returns for subpage [j] of page [i]. *)
Fixpoint read_subpages (answer : Z -> Z -> list Byte.byte) (i : Z)
    (subpages : list Z) (buf : list Byte.byte) (calls : list gatt_call)
  : option (list Byte.byte * list gatt_call) :=
  match subpages with
  | [] => Some (buf, calls)
  | j :: rest =>
      match page_ids i j with
      | None => None
      | Some ids =>
          let response := answer i j in
          read_subpages answer i rest (buf ++ response)
                        (calls ++ [GattWrite SELECT_EEPROM_PAGE_UUID ids;
                                   GattRead READ_EEPROM_UUID response])
      end
  end.

(** The outer loop of [get_eeprom] over the pages left. *)
Fixpoint read_pages (answer : Z -> Z -> list Byte.byte) (subpage_count : Z)
    (page_numbers : list Z) (pages : list (list Byte.byte))
    (calls : list gatt_call)
  : option (list (list Byte.byte) * list gatt_call) :=
  match page_numbers with
  | [] => Some (pages, calls)
  | i :: rest =>
      match read_subpages answer i (range subpage_count) [] calls with
      | None => None
      | Some (buf, calls) =>
          read_pages answer subpage_count rest (pages ++ [buf]) calls
      end
  end.

(** [get_eeprom()], for the constants [EEPROM.MAX_PAGES] and
    [EEPROM.SUBPAGE_COUNT] ([EEPROM.py] is not among the sources). *)
Definition get_eeprom (MAX_PAGES SUBPAGE_COUNT : Z)
    (answer : Z -> Z -> list Byte.byte)
  : option (list (list Byte.byte) * list gatt_call) :=
  read_pages answer SUBPAGE_COUNT (range MAX_PAGES) [] [].

(* ===================================================================== *)
(** * Notions used to state the properties *)
(* ===================================================================== *)

(** The legacy excitation is an integer of the EEPROM's 16-bit field,
    stored as an [int] or as the float of that integer. *)
Definition legacy_integer (e : EEPROM) : Prop :=
  exists z, 0 <= z < 65536
            /\ Arith.checked_float (excitation_nm e)
               = Arith.Ok (float_of_int z).

(** What the excitation tests of [update_wavecal] and
    [generate_wavenumbers] need of an integer legacy value [z]: if its float
    is positive then so is the rounded float, which is not below 1;
    otherwise the float is at most zero. *)
Definition legacy_check (z : Z) : bool :=
  let f := float_of_int z in
  if PrimFloat.ltb 0%float f
  then negb (PrimFloat.ltb (round0 f) 1%float)
       && negb (PrimFloat.leb (round0 f) 0%float)
  else PrimFloat.leb f 0%float.

(** The same test on the float itself. *)
Definition excitation_check (f : float) : bool :=
  if PrimFloat.ltb 0%float f
  then negb (PrimFloat.ltb (round0 f) 1%float)
       && negb (PrimFloat.leb (round0 f) 0%float)
  else PrimFloat.leb f 0%float.

(** [excitation_check] on the floats of [count] consecutive integers from
    [z] on. *)
Fixpoint excitation_check_from (count : nat) (z : Z) : bool :=
  match count with
  | O => true
  | S count' =>
      excitation_check (PrimFloat.of_uint63 (Uint63.of_Z z))
      && excitation_check_from count' (z + 1)
  end.

(** What a second synchronisation of the legacy excitation needs of a
    float [f] that passed [has_excitation]: the rounded value passes it
    too, and rounding it again changes nothing. *)
Definition resync_check (f : float) : bool :=
  if PrimFloat.ltb 0%float f
  then PrimFloat.ltb 0%float (round0 f)
       && PrimFloat.Leibniz.eqb (round0 (round0 f)) (round0 f)
  else true.

(** [resync_check] on the floats of [count] consecutive integers from [z]. *)
Fixpoint resync_check_from (count : nat) (z : Z) : bool :=
  match count with
  | O => true
  | S count' =>
      resync_check (PrimFloat.of_uint63 (Uint63.of_Z z))
      && resync_check_from count' (z + 1)
  end.

(** The settings as [update_wavecal] has them once it has cleared the two
    arrays. *)
Definition cleared (s : SpectrometerSettings) : SpectrometerSettings :=
  set_wavenumbers None (set_wavelengths None s).

(** The settings once [update_wavecal] has stored its argument, if any. *)
Definition with_coefficients (coeffs : option (list num))
    (s : SpectrometerSettings) : SpectrometerSettings :=
  match coeffs with
  | Some c => set_eeprom (set_wavelength_coeffs (Some c) (eeprom s)) s
  | None => s
  end.

(** [w] is [c0 + c1*x + c2*x*x + c3*x*x*x] in Python's arithmetic: the
    products and sums are taken from the left, each exact on two ints and
    in binary64 otherwise, and none of them raises. *)
Definition cubic (c0 c1 c2 c3 : num) (x : Z) (w : num) : Prop :=
  exists linear sum1 c2x square sum2 c3x c3xx cube,
    Arith.mul c1 (PyInt x) = Arith.Ok linear
    /\ Arith.add c0 linear = Arith.Ok sum1
    /\ Arith.mul c2 (PyInt x) = Arith.Ok c2x
    /\ Arith.mul c2x (PyInt x) = Arith.Ok square
    /\ Arith.add sum1 square = Arith.Ok sum2
    /\ Arith.mul c3 (PyInt x) = Arith.Ok c3x
    /\ Arith.mul c3x (PyInt x) = Arith.Ok c3xx
    /\ Arith.mul c3xx (PyInt x) = Arith.Ok cube
    /\ Arith.add sum2 cube = Arith.Ok w.

(** ** The acquisition protocol, in words of the specification *)

(** The retry count a turn of the packet loop works with: one more than
    before when the previous response failed validation. *)
Definition next_retry_count (st : loop_state) : Z :=
  if request_retry st then retry_count st + 1 else retry_count st.

(** The delay before retry [n]. *)
Definition backoff (integration_time n : Z) : Z :=
  if n =? 1 then integration_time * THROWAWAY_SPECTRA else n ^ 5.


(** A response shorter than the header, or of odd length. *)
Definition malformed (resp : list Byte.byte) : bool :=
  (len resp <? header_len) || negb (len resp mod 2 =? 0).

(** The first-pixel index of a response: its first two bytes, big-endian. *)
Definition first_pixel (resp : list Byte.byte) : Z :=
  match resp with
  | b0 :: b1 :: _ => 256 * byte_value b0 + byte_value b1
  | _ => 0
  end.

(** The bound of the NACK test of [ble_acquire]: the literal 2048 of the
    source, which is not the pixel count of the unit; the code never
    compares the first pixel of a response with the pixel count. *)
Definition max_first_pixel : Z := 2048.

(** The number of pixels a well-formed response carries. *)
Definition pixels_in (resp : list Byte.byte) : Z :=
  Z.quot (len resp - header_len) 2.

(** Pixel [i] of a response: two bytes after the header, little-endian. *)
Definition pixel (resp : list Byte.byte) (i : Z) : Z :=
  match getitem resp (header_len + i * 2),
        getitem resp (header_len + i * 2 + 1) with
  | Some lo, Some hi => byte_value lo + 256 * byte_value hi
  | _, _ => 0
  end.

(** The pixels a response contributes: all it carries when it passes both
    checks, none otherwise. *)
Definition contribution (resp : list Byte.byte) : list Z :=
  if malformed resp || (max_first_pixel <? first_pixel resp) then []
  else map (pixel resp) (range (pixels_in resp)).

(** A validation failure, as logged. *)
Definition is_failure (e : effect) : bool :=
  match e with
  | LogError (InvalidResponse _) | LogError (ReceivedNack _) => true
  | _ => false
  end.

(** A packet request. *)
Definition is_request (e : effect) : bool :=
  match e with
  | WriteGattChar SPECTRUM_PIXELS_UUID _ => true
  | _ => false
  end.

(** The retries in a list of effects: the packet requests issued while the
    latest response stands rejected. [failed] tells whether that is so at
    the start of the list. *)
Fixpoint retries_from (failed : bool) (tr : list effect) : nat :=
  match tr with
  | [] => 0
  | e :: rest =>
      if is_failure e then retries_from true rest
      else if is_request e
           then (if failed then 1 else 0) + retries_from false rest
           else retries_from failed rest
  end.

(** Whether the latest response stands rejected after a list of effects. *)
Fixpoint failed_after (failed : bool) (tr : list effect) : bool :=
  match tr with
  | [] => failed
  | e :: rest =>
      if is_failure e then failed_after true rest
      else if is_request e then failed_after false rest
      else failed_after failed rest
  end.

(** The pixels of a partly assembled spectrum that have been written. *)
Definition written (st : loop_state) : list Z :=
  firstn (Z.to_nat (pixels_read st)) (spectrum st).

(** ** Sample inputs *)

(** A three-pixel unit with a linear wavecal, legacy excitation 785 and no
    floating-point excitation. *)
Definition sample_eeprom : EEPROM :=
  mkEEPROM 3 "WP-00001" "S11511" 10 3
           (Some [PyFloat 800%float; PyFloat 0.5%float;
                  PyFloat 0%float; PyFloat 0%float])
           (PyInt 785) None.

Definition sample_settings : SpectrometerSettings :=
  mkSettings (mkState 10 false 0 0) sample_eeprom None None false.

(** The same unit with the legacy excitation overwritten by 0.4, as
    [update_from_json] can do. *)
Definition fractional_settings : SpectrometerSettings :=
  set_eeprom (set_excitation_nm (PyFloat 0.4%float) sample_eeprom)
             sample_settings.

(** The same unit with a floating-point excitation of 9999.0 beside a
    legacy excitation of 785.0. *)
Definition out_of_range_settings : SpectrometerSettings :=
  set_eeprom
    (mkEEPROM 3 "WP-00001" "S11511" 10 3
              (Some [PyFloat 800%float; PyFloat 0.5%float;
                     PyFloat 0%float; PyFloat 0%float])
              (PyFloat 785%float) (Some 9999%float))
    sample_settings.

(** A BLE device fresh from [__init__] around the reference settings. *)
Definition sample_device : BLEDevice := init sample_settings.

(** An exchange during which nobody calls [close]. *)
Definition undisturbed (resp : list Byte.byte) : exchange :=
  mkExchange false false false resp false (fun _ => false).

(** Responses: three bytes (odd length); a header of 0xFFFF alone; two
    pixels from index 0; three pixels from index 2. *)
Definition odd_response : list Byte.byte :=
  [Byte.x00; Byte.x00; Byte.x01].

Definition nack_response : list Byte.byte :=
  [Byte.xff; Byte.xff].

Definition two_pixels : list Byte.byte :=
  [Byte.x00; Byte.x00; Byte.x01; Byte.x00; Byte.x02; Byte.x01].

Definition three_pixels : list Byte.byte :=
  [Byte.x00; Byte.x02; Byte.x03; Byte.x00; Byte.x04; Byte.x00;
   Byte.x05; Byte.x00].

(** The locals of the packet loop after one rejected response. *)
Definition after_one_failure : loop_state := mkLoop [0; 0; 0] 0 0 true.



(** A response that is a header and nothing else. *)
Definition header_only : list Byte.byte := [Byte.x00; Byte.x00].

(** An exchange whose first poll finds the disconnect event set. *)
Definition cancelled : exchange :=
  mkExchange true false false [] false (fun _ => false).

(* ===================================================================== *)
(** * Properties *)
(* ===================================================================== *)

(** ** Order facts on binary64 values

    The comparisons of primitive floats are specified by [FloatAxioms] in
    terms of [SpecFloat]; the facts below are read off that specification. *)

Section FloatOrder.

Local Open Scope float_scope.

Lemma Prim2SF_200 : Prim2SF 200 = S754_finite false 7036874417766400 (-45).
Proof. vm_compute. reflexivity. Qed.

Lemma Prim2SF_one : Prim2SF 1 = S754_finite false 4503599627370496 (-52).
Proof. vm_compute. reflexivity. Qed.

Lemma Prim2SF_zero : Prim2SF 0 = S754_zero false.
Proof. vm_compute. reflexivity. Qed.

Lemma at_least_200_not_below_one x :
  (200 <=? x) = true -> (x <? 1) = false.
Proof.
  rewrite leb_spec, ltb_spec, Prim2SF_200, Prim2SF_one.
  unfold SFleb, SFltb.
  destruct (Prim2SF x) as [sg|sg| |sg m e].
  - destruct sg; cbv; congruence.
  - destruct sg; cbv; congruence.
  - cbv; congruence.
  - unfold SFcompare. destruct sg.
    + intros H; discriminate H.
    + destruct (Z.compare_spec (-45) e); destruct (Z.compare_spec e (-52));
        try lia; congruence.
Qed.

Lemma at_least_200_positive x :
  (200 <=? x) = true -> (0 <? x) = true.
Proof.
  rewrite leb_spec, ltb_spec, Prim2SF_200, Prim2SF_zero.
  unfold SFleb, SFltb.
  destruct (Prim2SF x) as [sg|sg| |sg m e].
  - destruct sg; cbv; congruence.
  - destruct sg; cbv; congruence.
  - cbv; congruence.
  - unfold SFcompare. destruct sg.
    + intros H; discriminate H.
    + reflexivity.
Qed.

Lemma at_least_200_not_nonpositive x :
  (200 <=? x) = true -> (x <=? 0) = false.
Proof.
  rewrite !leb_spec, Prim2SF_200, Prim2SF_zero.
  unfold SFleb.
  destruct (Prim2SF x) as [sg|sg| |sg m e].
  - destruct sg; cbv; congruence.
  - destruct sg; cbv; congruence.
  - cbv; congruence.
  - unfold SFcompare. destruct sg.
    + intros H; discriminate H.
    + reflexivity.
Qed.

Lemma at_least_200_not_nan x :
  (200 <=? x) = true -> isnan x = false.
Proof.
  unfold isnan. rewrite leb_spec, eqb_spec, Prim2SF_200.
  unfold SFleb, SFeqb.
  destruct (Prim2SF x) as [sg|sg| |sg m e].
  - destruct sg; cbv; congruence.
  - destruct sg; cbv; congruence.
  - cbv; congruence.
  - unfold SFcompare. destruct sg.
    + intros H; discriminate H.
    + intros _. rewrite Z.compare_refl, Pos.compare_refl. reflexivity.
Qed.

End FloatOrder.

Lemma reasonable_lower new :
  reasonable new = true -> PrimFloat.leb 200%float new = true.
Proof. unfold reasonable. intros H. apply andb_prop in H. apply H. Qed.

Lemma reasonable_not_nan new : reasonable new = true -> isnan new = false.
Proof. intros H. apply at_least_200_not_nan, reasonable_lower, H. Qed.

(** ** Excitation reconciliation *)

(** [float()] raises nothing but [OverflowError]. *)
Lemma checked_float_fails (n : num) (e : Arith.failure) :
  Arith.checked_float n = Arith.Fails e ->
  e = Arith.Exception OverflowError.
Proof.
  destruct n as [z|f]; cbn [Arith.checked_float]; [|discriminate].
  destruct (Arith.finite (float_of_int z)); [discriminate|].
  intros H. injection H as <-. reflexivity.
Qed.

(** [excitation()] once the legacy value has been converted. *)
Lemma excitation_logged_converted s old :
  Arith.checked_float (excitation_nm (eeprom s)) = Arith.Ok old ->
  excitation_logged s
  = Arith.Ok
      match excitation_nm_float (eeprom s) with
      | None => (old, [])
      | Some new =>
          if isnan new then (old, [])
          else if reasonable new then (new, [])
          else if negb (PrimFloat.eqb new 0%float)
               then (old, [ExcitationOutOfRange LvlDebug new old])
               else (old, [])
      end.
Proof. intros H. unfold excitation_logged. rewrite H. reflexivity. Qed.

Lemma excitation_logged_reasonable s old new :
  Arith.checked_float (excitation_nm (eeprom s)) = Arith.Ok old ->
  excitation_nm_float (eeprom s) = Some new ->
  reasonable new = true ->
  excitation_logged s = Arith.Ok (new, []).
Proof.
  intros Hold Hnew Hr. rewrite (excitation_logged_converted s old Hold).
  rewrite Hnew, (reasonable_not_nan _ Hr), Hr. reflexivity.
Qed.

Lemma excitation_unreasonable s old new :
  Arith.checked_float (excitation_nm (eeprom s)) = Arith.Ok old ->
  excitation_nm_float (eeprom s) = Some new ->
  reasonable new = false ->
  excitation s = Arith.Ok old.
Proof.
  intros Hold Hnew Hr. unfold excitation.
  rewrite (excitation_logged_converted s old Hold), Hnew, Hr.
  destruct (isnan new); [reflexivity|].
  destruct (negb (PrimFloat.eqb new 0%float)); reflexivity.
Qed.

Lemma excitation_absent s old :
  Arith.checked_float (excitation_nm (eeprom s)) = Arith.Ok old ->
  excitation_nm_float (eeprom s) = None ->
  excitation_logged s = Arith.Ok (old, []).
Proof.
  intros Hold H. rewrite (excitation_logged_converted s old Hold), H.
  reflexivity.
Qed.

(** Whatever [excitation()] logs, it logs at DEBUG level. *)
Lemma excitation_logs_debug s value records :
  excitation_logged s = Arith.Ok (value, records) ->
  Forall (fun r => level r = LvlDebug) records.
Proof.
  unfold excitation_logged.
  destruct (Arith.checked_float _) as [old|e]; [|discriminate].
  cbn [Arith.and_then]. intros H. injection H as H.
  destruct (excitation_nm_float (eeprom s)) as [new|].
  - destruct (isnan new); [injection H as _ <-; constructor|].
    destruct (reasonable new); [injection H as _ <-; constructor|].
    destruct (negb _); injection H as _ <-; repeat constructor.
  - injection H as _ <-. constructor.
Qed.

(** C2. When the legacy excitation is an [int] too large for a float,
    [excitation()] raises [OverflowError]. Otherwise it returns the
    floating-point excitation exactly when that value passes
    [200 <= new <= 2500]; in every other case (no value, NaN, out of range)
    it returns the legacy excitation as a float. A value that is out of
    range and not zero is handed to the logger at DEBUG level, a zero is
    not, and nothing is ever logged at another level. The three reference
    points: legacy 785.0 with floating 0.0 gives 785.0 silently; legacy
    785.0 with floating 830.4 gives 830.4; legacy 785.0 with floating 9999.0
    gives 785.0 and one DEBUG record. *)
Theorem excitation_reconciliation (s : SpectrometerSettings) :
  let legacy := Arith.checked_float (excitation_nm (eeprom s)) in
  let floating := excitation_nm_float (eeprom s) in
  (forall e, legacy = Arith.Fails e ->
     e = Arith.Exception OverflowError
     /\ excitation_logged s = Arith.Fails e)
  /\ (forall old, legacy = Arith.Ok old ->
      (forall new, floating = Some new -> reasonable new = true ->
         excitation_logged s = Arith.Ok (new, []))
      /\ (forall new, floating = Some new -> reasonable new = false ->
            excitation s = Arith.Ok old)
      /\ (floating = None -> excitation_logged s = Arith.Ok (old, []))
      /\ (forall new, floating = Some new -> reasonable new = false ->
            isnan new = false -> PrimFloat.eqb new 0%float = false ->
            excitation_logged s
            = Arith.Ok (old, [ExcitationOutOfRange LvlDebug new old]))
      /\ (forall new, floating = Some new ->
            PrimFloat.eqb new 0%float = true ->
            excitation_logged s = Arith.Ok (old, []))
      /\ (floating = Some 9999%float ->
            excitation_logged s
            = Arith.Ok (old, [ExcitationOutOfRange LvlDebug 9999%float old])))
  /\ (forall value records,
        excitation_logged s = Arith.Ok (value, records) ->
        Forall (fun r => level r = LvlDebug) records)
  /\ (excitation_nm (eeprom s) = PyFloat 785%float ->
        floating = Some 0%float ->
        excitation_logged s = Arith.Ok (785%float, []))
  /\ (excitation_nm (eeprom s) = PyFloat 785%float ->
        floating = Some 830.4%float ->
        excitation_logged s = Arith.Ok (830.4%float, []))
  /\ (excitation_nm (eeprom s) = PyFloat 785%float ->
        floating = Some 9999%float ->
        excitation_logged s
        = Arith.Ok (785%float,
                    [ExcitationOutOfRange LvlDebug 9999%float 785%float])).
Proof.
  cbv zeta. split; [|split; [|split; [|split; [|split]]]].
  - intros e He. split; [exact (checked_float_fails _ _ He)|].
    unfold excitation_logged. rewrite He. reflexivity.
  - intros old Hold. split; [|split; [|split; [|split; [|split]]]].
    + intros new. apply (excitation_logged_reasonable s old new Hold).
    + intros new. apply (excitation_unreasonable s old new Hold).
    + apply (excitation_absent s old Hold).
    + intros new Hnew Hr Hnan Hz.
      rewrite (excitation_logged_converted s old Hold).
      rewrite Hnew, Hnan, Hr, Hz. reflexivity.
    + intros new Hnew Hz.
      rewrite (excitation_logged_converted s old Hold), Hnew.
      destruct (isnan new); [reflexivity|].
      destruct (reasonable new) eqn:Hr.
      * apply reasonable_lower, at_least_200_not_nonpositive in Hr.
        exfalso. revert Hz Hr. rewrite eqb_spec, leb_spec.
        change (Prim2SF 0%float) with (S754_zero false).
        unfold SFeqb, SFleb.
        destruct (SFcompare (Prim2SF new) (S754_zero false)) as [[| |]|];
          congruence.
      * rewrite Hz. reflexivity.
    + intros Hnew. rewrite (excitation_logged_converted s old Hold), Hnew.
      reflexivity.
  - apply excitation_logs_debug.
  - intros Hold Hnew. unfold excitation_logged. rewrite Hnew, Hold.
    reflexivity.
  - intros Hold Hnew. unfold excitation_logged. rewrite Hnew, Hold.
    reflexivity.
  - intros Hold Hnew. unfold excitation_logged. rewrite Hnew, Hold.
    reflexivity.
Qed.

(** The third reference point on the sample unit: the legacy value comes
    back with a DEBUG record, and no record is a warning. *)
Lemma out_of_range_excitation_logs_no_warning :
  excitation_logged out_of_range_settings
  = Arith.Ok (785%float,
              [ExcitationOutOfRange LvlDebug 9999%float 785%float])
  /\ Forall (fun r => level r <> LvlWarning)
            [ExcitationOutOfRange LvlDebug 9999%float 785%float].
Proof.
  split; [reflexivity|].
  repeat constructor. discriminate.
Qed.

(** A legacy excitation of 2^1024 cannot be converted. *)
Example huge_legacy_excitation :
  excitation
    (set_eeprom (set_excitation_nm (PyInt (2 ^ 1024)) sample_eeprom)
                sample_settings)
  = Arith.Fails (Arith.Exception OverflowError).
Proof. vm_compute. reflexivity. Qed.

(** ** Default detector setpoint *)

Lemma prefix_upper (a b : string) :
  String.prefix a b = true -> String.prefix (upper a) (upper b) = true.
Proof.
  revert b. induction a as [|c a IH]; intros b H.
  - destruct b; reflexivity.
  - destruct b as [|c' b]; [discriminate H|].
  cbn [String.prefix upper] in *.
  destruct (ascii_dec c c') as [->|]; [|discriminate H].
  destruct (ascii_dec (upper_ascii c') (upper_ascii c')); [|congruence].
  apply IH, H.
Qed.

(** A key that occurs in a name occurs, upper-cased, in the upper-cased
    name. *)
Lemma contains_upper (key name : string) :
  contains key name = true -> contains (upper key) (upper name) = true.
Proof.
  induction name as [|c name IH]; cbn [contains upper]; intros H.
  - destruct (String.prefix key "") eqn:Hp; [|discriminate H].
    apply prefix_upper in Hp. cbn [upper] in Hp. rewrite Hp. reflexivity.
  - destruct (String.prefix key (String c name)) eqn:Hp.
    + apply prefix_upper in Hp. cbn [upper] in Hp. rewrite Hp. reflexivity.
    + destruct (String.prefix (upper key) _); [reflexivity|]. apply IH, H.
Qed.

(** C9. For a detector name of 7-bit characters: with an EEPROM format of
    4 or more the setpoint is the stored startup temperature. Below 4 it
    comes from the table S11511 -> 10, S10141 -> -15, G9214 -> -15,
    7031 -> -15, matched against the upper-cased detector name, so that
    the match ignores case, the first key that occurs winning; a key that
    occurs in the name as stored also occurs in the upper-cased name. When
    no key occurs in the upper-cased name the result is [None], and it is
    [None] in no other case. *)
Theorem default_detector_setpoint_table (s : SpectrometerSettings) :
  seven_bit (detector (eeprom s)) = true ->
  let det := upper (detector (eeprom s)) in
  let r := default_detector_setpoint_degC s in
  (4 <= format (eeprom s) -> r = Some (startup_temp_degC (eeprom s)))
  /\ (format (eeprom s) < 4 ->
        (contains "S11511" det = true -> r = Some 10)
     /\ (contains "S11511" det = false ->
         contains "S10141" det = true -> r = Some (-15))
     /\ (contains "S11511" det = false ->
         contains "S10141" det = false ->
         contains "G9214" det = true -> r = Some (-15))
     /\ (contains "S11511" det = false ->
         contains "S10141" det = false ->
         contains "G9214" det = false ->
         contains "7031" det = true -> r = Some (-15))
     /\ (r = None <->
           contains "S11511" det = false /\ contains "S10141" det = false
           /\ contains "G9214" det = false /\ contains "7031" det = false)
     /\ (contains "S11511" (detector (eeprom s)) = true -> r = Some 10)).
Proof.
  intros _. cbv zeta. unfold default_detector_setpoint_degC. split.
  - intros H. apply Z.leb_le in H. rewrite H. reflexivity.
  - intros H. apply Z.leb_gt in H. rewrite H.
    repeat split.
    + intros ->. reflexivity.
    + intros -> ->. reflexivity.
    + intros -> -> ->. reflexivity.
    + intros -> -> -> ->. reflexivity.
    + destruct (contains "S11511" _); [discriminate|].
      reflexivity.
    + destruct (contains "S11511" _); [discriminate|].
      destruct (contains "S10141" _); [discriminate|]. reflexivity.
    + destruct (contains "S11511" _); [discriminate|].
      destruct (contains "S10141" _); [discriminate|].
      destruct (contains "G9214" _); [discriminate|]. reflexivity.
    + destruct (contains "S11511" _); [discriminate|].
      destruct (contains "S10141" _); [discriminate|].
      destruct (contains "G9214" _); [discriminate|].
      destruct (contains "7031" _); [discriminate|]. reflexivity.
    + intros (-> & -> & -> & ->). reflexivity.
    + intros Hraw. apply contains_upper in Hraw.
      change (upper "S11511") with "S11511"%string in Hraw.
      rewrite Hraw. reflexivity.
Qed.

(** The table on a pre-format-4 unit whose detector is named in lower
    case. *)
Lemma default_detector_setpoint_table_witness :
  let s := with_detector "hamamatsu s10141" sample_settings in
  let det := upper (detector (eeprom s)) in
  let r := default_detector_setpoint_degC s in
  (4 <= format (eeprom s) -> r = Some (startup_temp_degC (eeprom s)))
  /\ (format (eeprom s) < 4 ->
        (contains "S11511" det = true -> r = Some 10)
     /\ (contains "S11511" det = false ->
         contains "S10141" det = true -> r = Some (-15))
     /\ (contains "S11511" det = false ->
         contains "S10141" det = false ->
         contains "G9214" det = true -> r = Some (-15))
     /\ (contains "S11511" det = false ->
         contains "S10141" det = false ->
         contains "G9214" det = false ->
         contains "7031" det = true -> r = Some (-15))
     /\ (r = None <->
           contains "S11511" det = false /\ contains "S10141" det = false
           /\ contains "G9214" det = false /\ contains "7031" det = false)
     /\ (contains "S11511" (detector (eeprom s)) = true -> r = Some 10)).
Proof.
  apply (default_detector_setpoint_table
           (with_detector "hamamatsu s10141" sample_settings)).
  reflexivity.
Defined.

(** No key of the table occurs in the name [s11511] as it is stored, and
    the setpoint is 10 all the same: the name is upper-cased first. *)
Lemma lower_case_detector_has_a_setpoint :
  let s := with_detector "s11511" sample_settings in
  format (eeprom s) = 3
  /\ contains "S11511" (detector (eeprom s)) = false
  /\ contains "S10141" (detector (eeprom s)) = false
  /\ contains "G9214" (detector (eeprom s)) = false
  /\ contains "7031" (detector (eeprom s)) = false
  /\ default_detector_setpoint_degC s = Some 10.
Proof. cbv zeta. repeat split. Qed.

(** ** Python lists *)

Section PyLists.

Context {A : Type}.
Implicit Types (l : list A) (i : Z) (k : nat) (v : A).

Lemma position_in_range (n : nat) i :
  0 <= i < Z.of_nat n -> position n i = Some (Z.to_nat i).
Proof.
  intros H. unfold position.
  destruct (Z.ltb_spec i 0); [lia|].
  destruct (Z.leb_spec 0 i); [|lia].
  destruct (Z.ltb_spec i (Z.of_nat n)); [|lia]. reflexivity.
Qed.

Lemma position_bounds (n : nat) i k :
  position n i = Some k -> (k < n)%nat.
Proof.
  unfold position. intros H.
  destruct (Z.ltb_spec i 0);
    match type of H with context [?a && ?b] =>
      destruct (andb a b) eqn:E; [|discriminate H] end;
    apply andb_prop in E; destruct E as [E1 E2];
    apply Z.leb_le in E1; apply Z.ltb_lt in E2;
    injection H as <-; lia.
Qed.

Lemma getitem_in_range l i :
  0 <= i < len l -> getitem l i = nth_error l (Z.to_nat i).
Proof.
  intros H. unfold getitem. unfold len in H.
  rewrite position_in_range by exact H. reflexivity.
Qed.

Lemma getitem_out_of_range l i :
  len l <= i -> getitem l i = None.
Proof.
  intros H. unfold getitem, position, len in *.
  destruct (Z.ltb_spec i 0); [lia|].
  destruct (Z.leb_spec 0 i); [|lia].
  destruct (Z.ltb_spec i (Z.of_nat (List.length l))); [lia|]. reflexivity.
Qed.

Lemma setitem_in_range l i v :
  0 <= i < len l -> setitem l i v = Some (update l (Z.to_nat i) v).
Proof.
  intros H. unfold setitem. unfold len in H.
  rewrite position_in_range by exact H. reflexivity.
Qed.

Lemma update_length l k v : List.length (update l k v) = List.length l.
Proof.
  revert k. induction l as [|h t IH]; intros [|k]; cbn; try reflexivity.
  rewrite IH. reflexivity.
Qed.

Lemma setitem_length l i v l' :
  setitem l i v = Some l' -> List.length l' = List.length l.
Proof.
  unfold setitem. destruct (position _ i); [|discriminate].
  intros H. injection H as <-. apply update_length.
Qed.

Lemma nth_error_update_same l k v :
  (k < List.length l)%nat -> nth_error (update l k v) k = Some v.
Proof.
  revert k. induction l as [|h t IH]; intros [|k] H; cbn in *; try lia.
  - reflexivity.
  - apply IH. lia.
Qed.

Lemma nth_error_update_other l k j v :
  j <> k -> nth_error (update l k v) j = nth_error l j.
Proof.
  revert k j. induction l as [|h t IH]; intros [|k] [|j] H; cbn;
    try reflexivity; try congruence.
  apply IH. congruence.
Qed.

(** What an update leaves of a prefix that ends before it. *)
Lemma firstn_update_beyond l k v n :
  (n <= k)%nat -> firstn n (update l k v) = firstn n l.
Proof.
  revert k n. induction l as [|h t IH]; intros [|k] [|n] H; cbn;
    try reflexivity; try lia.
  f_equal. apply IH. lia.
Qed.

(** Writing just past a prefix extends the prefix by the value written. *)
Lemma firstn_update_next l k v :
  (k < List.length l)%nat ->
  firstn (S k) (update l k v) = firstn k l ++ [v].
Proof.
  revert k. induction l as [|h t IH]; intros [|k] H; cbn in *; try lia.
  - reflexivity.
  - f_equal. apply IH. lia.
Qed.

End PyLists.

Lemma range_length (n : Z) : List.length (range n) = Z.to_nat n.
Proof. unfold range. rewrite length_map, length_seq. reflexivity. Qed.

Lemma range_nth (n x : Z) :
  0 <= x < n -> nth_error (range n) (Z.to_nat x) = Some x.
Proof.
  intros H. unfold range.
  rewrite nth_error_map, nth_error_seq.
  destruct (Nat.ltb_spec (Z.to_nat x) (Z.to_nat n)); [|lia].
  cbn. f_equal. lia.
Qed.

(** ** The edge-pixel fixup *)

Lemma copy_from_fifth_four (a b c d e : Z) (rest : list Z) :
  copy_from_fifth (range 4) (a :: b :: c :: d :: e :: rest)
  = Some (e :: e :: e :: e :: e :: rest).
Proof.
  assert (Hlen : forall p q r t, 5 <= len (p :: q :: r :: t :: e :: rest)).
  { intros. unfold len. cbn [List.length]. lia. }
  change (range 4) with [0; 1; 2; 3].
  cbn [copy_from_fifth].
  rewrite (getitem_in_range _ 4) by (specialize (Hlen a b c d); lia).
  change (Z.to_nat 4) with 4%nat. cbn [nth_error].
  rewrite setitem_in_range by (specialize (Hlen a b c d); lia).
  change (Z.to_nat 0) with 0%nat. cbn [update].
  rewrite (getitem_in_range _ 4) by (specialize (Hlen e b c d); lia).
  change (Z.to_nat 4) with 4%nat. cbn [nth_error].
  rewrite setitem_in_range by (specialize (Hlen e b c d); lia).
  change (Z.to_nat 1) with 1%nat. cbn [update].
  rewrite (getitem_in_range _ 4) by (specialize (Hlen e e c d); lia).
  change (Z.to_nat 4) with 4%nat. cbn [nth_error].
  rewrite setitem_in_range by (specialize (Hlen e e c d); lia).
  change (Z.to_nat 2) with 2%nat. cbn [update].
  rewrite (getitem_in_range _ 4) by (specialize (Hlen e e e d); lia).
  change (Z.to_nat 4) with 4%nat. cbn [nth_error].
  rewrite setitem_in_range by (specialize (Hlen e e e d); lia).
  change (Z.to_nat 3) with 3%nat. cbn [update].
  reflexivity.
Qed.

(** C7. On a spectrum of length [total >= 5] the fixup succeeds and keeps
    the length. Afterwards indices 0..3 hold the value assembled at index 4;
    the last index holds the value at index [total - 2] (the value standing
    there when the statement runs: the assembled one when [total >= 6], and
    for [total = 5] the copy of index 4 just written to index 3); every
    index from 4 to [total - 2] keeps its assembled value. *)
Theorem fixup_overwrites_edges (total : Z) (assembled : list Z) :
  len assembled = total ->
  5 <= total ->
  exists completed,
    fixup total assembled = Some completed
    /\ len completed = total
    /\ (forall i, 0 <= i <= 3 -> getitem completed i = getitem assembled 4)
    /\ getitem completed (total - 1) = getitem completed (total - 2)
    /\ (6 <= total ->
        getitem completed (total - 1) = getitem assembled (total - 2))
    /\ (total = 5 -> getitem completed 4 = getitem assembled 4)
    /\ (forall i, 4 <= i < total - 1 ->
        getitem completed i = getitem assembled i).
Proof.
  intros Hlen Hfive.
  destruct assembled as [|a [|b [|c [|d [|e rest]]]]];
    try (unfold len in Hlen; cbn [List.length] in Hlen; lia).
  unfold fixup. rewrite copy_from_fifth_four.
  set (mid := e :: e :: e :: e :: e :: rest).
  assert (Hmid : len mid = total).
  { rewrite <- Hlen. reflexivity. }
  assert (Hnat : List.length mid = Z.to_nat total).
  { unfold len in Hmid. lia. }
  rewrite getitem_in_range by lia.
  destruct (nth_error mid (Z.to_nat (total - 2))) as [v|] eqn:Hv.
  2:{ apply nth_error_None in Hv. lia. }
  rewrite setitem_in_range by lia.
  set (k := Z.to_nat (total - 1)).
  assert (Hk : (k < List.length mid)%nat) by (subst k; lia).
  assert (Hout : len (update mid k v) = total).
  { unfold len. rewrite update_length. unfold len in Hmid. exact Hmid. }
  assert (Hsame : forall i, 0 <= i < total - 1 ->
            getitem (update mid k v) i = nth_error mid (Z.to_nat i)).
  { intros i Hi. rewrite getitem_in_range by lia.
    apply nth_error_update_other. subst k. lia. }
  assert (Hin : forall i, 0 <= i < total ->
            getitem (a :: b :: c :: d :: e :: rest) i
            = nth_error (a :: b :: c :: d :: e :: rest) (Z.to_nat i)).
  { intros i Hi. apply getitem_in_range. lia. }
  assert (Htail : forall n, (4 <= n)%nat ->
            nth_error mid n = nth_error (a :: b :: c :: d :: e :: rest) n).
  { intros n Hn. do 4 (destruct n as [|n]; [lia|]). reflexivity. }
  assert (Hlast : getitem (update mid k v) (total - 1) = Some v).
  { rewrite getitem_in_range by lia. apply nth_error_update_same. exact Hk. }
  exists (update mid k v). repeat split.
  - exact Hout.
  - intros i Hi. rewrite Hsame by lia. rewrite Hin by lia.
    assert (Hc : i = 0 \/ i = 1 \/ i = 2 \/ i = 3) by lia.
    destruct Hc as [-> | [-> | [-> | ->]]]; reflexivity.
  - rewrite Hlast, Hsame by lia. symmetry. exact Hv.
  - intros Hsix. rewrite Hlast, Hin by lia.
    rewrite <- Htail by lia. symmetry. exact Hv.
  - intros Hfive'. rewrite Hfive' in Hlast, Hv.
    change (5 - 1) with 4 in Hlast. rewrite Hlast, Hin by lia.
    change (Z.to_nat (5 - 2)) with 3%nat in Hv.
    change (Z.to_nat 4) with 4%nat.
    subst mid. cbn [nth_error] in Hv |- *. symmetry. exact Hv.
  - intros i Hi. rewrite Hsame by lia. rewrite Hin by lia.
    apply Htail. lia.
Qed.

(** The fixup at work on a six-pixel spectrum. *)
Lemma fixup_overwrites_edges_witness :
  exists completed,
    fixup 6 [10; 20; 30; 40; 50; 60] = Some completed
    /\ len completed = 6
    /\ (forall i, 0 <= i <= 3 ->
        getitem completed i = getitem [10; 20; 30; 40; 50; 60] 4)
    /\ getitem completed (6 - 1) = getitem completed (6 - 2)
    /\ (6 <= 6 ->
        getitem completed (6 - 1) = getitem [10; 20; 30; 40; 50; 60] (6 - 2))
    /\ (6 = 5 -> getitem completed 4 = getitem [10; 20; 30; 40; 50; 60] 4)
    /\ (forall i, 4 <= i < 6 - 1 ->
        getitem completed i = getitem [10; 20; 30; 40; 50; 60] i).
Proof.
  apply (fixup_overwrites_edges 6 [10; 20; 30; 40; 50; 60]).
  - reflexivity.
  - lia.
Defined.

(** ** Wavelength calibration *)

(** Unfold the record updates and projections of the settings. *)
Ltac settings_simpl :=
  cbn [wavelengths wavenumbers eeprom lock_wavecal state pixels
       set_wavelengths set_wavenumbers set_eeprom set_wavelength_coeffs
       set_excitation_nm active_pixels_horizontal wavelength_coeffs
       excitation_nm excitation_nm_float format serial_number detector
       startup_temp_degC fst snd] in *.

(** A collecting loop that returns has one value per element, in order. *)
Lemma each_nth {A B : Type} (f : A -> Arith.attempt B) (l : list A) :
  forall bs,
    each f l = Arith.Ok bs ->
    List.length bs = List.length l
    /\ forall k a, nth_error l k = Some a ->
         exists b, f a = Arith.Ok b /\ nth_error bs k = Some b.
Proof.
  induction l as [|a0 l IH]; intros bs H.
  - injection H as <-. split; [reflexivity|].
    intros [|k] a Ha; discriminate Ha.
  - cbn [each] in H.
    destruct (f a0) as [b0|e] eqn:H0; [|discriminate H].
    cbn [Arith.and_then] in H.
    destruct (each f l) as [bs0|e] eqn:Hl; [|discriminate H].
    injection H as <-.
    destruct (IH bs0 eq_refl) as [Hlen Hnth].
    split; [cbn [List.length]; rewrite Hlen; reflexivity|].
    intros [|k] a Ha.
    + injection Ha as <-. exists b0. split; [exact H0|reflexivity].
    + apply (Hnth k a Ha).
Qed.

(** It returns when every turn does. *)
Lemma each_ok {A B : Type} (f : A -> Arith.attempt B) (l : list A) :
  (forall a, In a l -> exists b, f a = Arith.Ok b) ->
  exists bs, each f l = Arith.Ok bs.
Proof.
  induction l as [|a0 l IH]; intros H.
  - exists []. reflexivity.
  - destruct (H a0 (or_introl eq_refl)) as [b0 H0].
    destruct (IH (fun a Ha => H a (or_intror Ha))) as [bs Hbs].
    exists (b0 :: bs). cbn [each]. rewrite H0. cbn [Arith.and_then].
    rewrite Hbs. reflexivity.
Qed.

(** The exception it raises is the exception of one of its turns. *)
Lemma each_fails {A B : Type} (f : A -> Arith.attempt B) (l : list A) e :
  each f l = Arith.Fails e ->
  exists a, In a l /\ f a = Arith.Fails e.
Proof.
  induction l as [|a0 l IH]; intros H; [discriminate H|].
  cbn [each] in H.
  destruct (f a0) as [b0|e0] eqn:H0.
  - cbn [Arith.and_then] in H.
    destruct (each f l) as [bs|e1] eqn:Hl; [discriminate H|].
    injection H as ->.
    destruct (IH eq_refl) as (a & Ha & Hf).
    exists a. split; [right; exact Ha|exact Hf].
  - injection H as ->. exists a0. split; [left; reflexivity|exact H0].
Qed.

(** Sums and products raise nothing but [OverflowError]. *)
Lemma float_op_fails op (a b : num) e :
  Arith.float_op op a b = Arith.Fails e ->
  e = Arith.Exception OverflowError.
Proof.
  unfold Arith.float_op.
  destruct (Arith.checked_float a) as [x|ea] eqn:Ha.
  - cbn [Arith.and_then].
    destruct (Arith.checked_float b) as [y|eb] eqn:Hb; [discriminate|].
    intros H. injection H as <-. exact (checked_float_fails _ _ Hb).
  - intros H. injection H as <-. exact (checked_float_fails _ _ Ha).
Qed.

Lemma add_fails (a b : num) e :
  Arith.add a b = Arith.Fails e -> e = Arith.Exception OverflowError.
Proof.
  destruct a, b; cbn [Arith.add]; try apply float_op_fails. discriminate.
Qed.

Lemma mul_fails (a b : num) e :
  Arith.mul a b = Arith.Fails e -> e = Arith.Exception OverflowError.
Proof.
  destruct a, b; cbn [Arith.mul]; try apply float_op_fails. discriminate.
Qed.

(** One step of a chain of operations: name the value of the operation at
    the head, or close the goal with the exception it raises. *)
Ltac chain_step H fails :=
  match type of H with
  | Arith.and_then ?m _ = _ =>
      let v := fresh "v" in
      let e := fresh "e" in
      let E := fresh "E" in
      destruct m as [v|e] eqn:E; cbn [Arith.and_then] in H;
      [|first [discriminate H
              |injection H as <-; exact (fails _ _ _ E)]]
  end.

(** A turn of [generate_wavelengths] returns exactly the cubic. *)
Lemma wavelength_at_cubic (c0 c1 c2 c3 : num) (x : Z) (w : num) :
  wavelength_at c0 c1 c2 c3 x = Arith.Ok w <-> cubic c0 c1 c2 c3 x w.
Proof.
  unfold wavelength_at, cubic. split.
  - intros H.
    chain_step H mul_fails. chain_step H add_fails.
    chain_step H mul_fails. chain_step H mul_fails.
    chain_step H add_fails. chain_step H mul_fails.
    chain_step H mul_fails. chain_step H mul_fails.
    eexists _, _, _, _, _, _, _, _. repeat split; eassumption.
  - intros (linear & sum1 & c2x & square & sum2 & c3x & c3xx & cube
            & H1 & H2 & H3 & H4 & H5 & H6 & H7 & H8 & H9).
    rewrite H1. cbn [Arith.and_then]. rewrite H2. cbn [Arith.and_then].
    rewrite H3. cbn [Arith.and_then]. rewrite H4. cbn [Arith.and_then].
    rewrite H5. cbn [Arith.and_then]. rewrite H6. cbn [Arith.and_then].
    rewrite H7. cbn [Arith.and_then]. rewrite H8. cbn [Arith.and_then].
    exact H9.
Qed.

(** It raises nothing but [OverflowError]. *)
Lemma wavelength_at_fails (c0 c1 c2 c3 : num) (x : Z) e :
  wavelength_at c0 c1 c2 c3 x = Arith.Fails e ->
  e = Arith.Exception OverflowError.
Proof.
  unfold wavelength_at. intros H.
  chain_step H mul_fails. chain_step H add_fails.
  chain_step H mul_fails. chain_step H mul_fails.
  chain_step H add_fails. chain_step H mul_fails.
  chain_step H mul_fails. chain_step H mul_fails.
  exact (add_fails _ _ _ H).
Qed.

(** The cubic has at most one value. *)
Lemma cubic_unique (c0 c1 c2 c3 : num) (x : Z) (w w' : num) :
  cubic c0 c1 c2 c3 x w -> cubic c0 c1 c2 c3 x w' -> w = w'.
Proof.
  intros H H'. apply wavelength_at_cubic in H, H'. congruence.
Qed.

Lemma range_In (n x : Z) : In x (range n) -> 0 <= x < n.
Proof.
  unfold range. rewrite in_map_iff. intros (k & <- & Hk).
  apply in_seq in Hk. lia.
Qed.

(** [generate_wavelengths], when it returns. *)
Lemma generate_wavelengths_spec pixels c0 c1 c2 c3 wl :
  generate_wavelengths pixels c0 c1 c2 c3 = Arith.Ok wl ->
  len wl = Z.max 0 pixels
  /\ forall x, 0 <= x < pixels ->
       exists w, cubic c0 c1 c2 c3 x w /\ getitem wl x = Some w.
Proof.
  unfold generate_wavelengths. intros H.
  destruct (each_nth _ _ _ H) as [Hlen Hnth].
  rewrite range_length in Hlen.
  split; [unfold len; lia|].
  intros x Hx.
  destruct (Hnth (Z.to_nat x) x (range_nth pixels x Hx)) as (w & Hw & Hat).
  exists w. split; [apply wavelength_at_cubic, Hw|].
  rewrite getitem_in_range by (unfold len; lia). exact Hat.
Qed.

(** It returns when the cubic has a value at every pixel. *)
Lemma generate_wavelengths_ok pixels c0 c1 c2 c3 :
  (forall x, 0 <= x < pixels -> exists w, cubic c0 c1 c2 c3 x w) ->
  exists wl, generate_wavelengths pixels c0 c1 c2 c3 = Arith.Ok wl.
Proof.
  intros H. apply each_ok. intros x Hx. apply range_In in Hx.
  destruct (H x Hx) as [w Hw]. exists w. apply wavelength_at_cubic, Hw.
Qed.

(** It raises [OverflowError] when the cubic has no value at some pixel. *)
Lemma generate_wavelengths_overflow pixels c0 c1 c2 c3 :
  (exists x, 0 <= x < pixels /\ forall w, ~ cubic c0 c1 c2 c3 x w) ->
  generate_wavelengths pixels c0 c1 c2 c3
  = Arith.Fails (Arith.Exception OverflowError).
Proof.
  intros (x & Hx & Hnone).
  destruct (generate_wavelengths pixels c0 c1 c2 c3) as [wl|e] eqn:H.
  - destruct (generate_wavelengths_spec _ _ _ _ _ _ H) as [_ Hat].
    destruct (Hat x Hx) as (w & Hw & _). destruct (Hnone w Hw).
  - unfold generate_wavelengths in H. apply each_fails in H.
    destruct H as (a & _ & Ha). apply wavelength_at_fails in Ha.
    rewrite Ha. reflexivity.
Qed.

Lemma pixel_space_at pixels x :
  0 <= x < pixels -> getitem (map PyInt (range pixels)) x = Some (PyInt x).
Proof.
  intros H. rewrite getitem_in_range
    by (unfold len; rewrite length_map, range_length; lia).
  rewrite nth_error_map, range_nth by exact H. reflexivity.
Qed.

Lemma first_and_last_nonempty (a : num) (l : list num) :
  first_and_last (a :: l) <> None.
Proof.
  unfold first_and_last.
  assert (H : 1 <= len (a :: l)) by (unfold len; cbn [List.length]; lia).
  rewrite getitem_in_range by lia.
  change (nth_error (a :: l) (Z.to_nat 0)) with (Some a).
  unfold getitem, position.
  change (-1 <? 0) with true. cbn match.
  unfold len in H.
  destruct (Z.leb_spec 0 (-1 + Z.of_nat (List.length (a :: l)))); [|lia].
  destruct (Z.ltb_spec (-1 + Z.of_nat (List.length (a :: l)))
                       (Z.of_nat (List.length (a :: l)))); [|lia].
  cbn [andb].
  destruct (nth_error (a :: l) _) eqn:E; [discriminate|].
  apply nth_error_None in E. lia.
Qed.

Lemma first_and_last_positive (wl : list num) :
  1 <= len wl -> first_and_last wl <> None.
Proof.
  destruct wl as [|a l]; [unfold len; cbn [List.length]; lia|].
  intros _. apply first_and_last_nonempty.
Qed.

(** What the last two statements of [update_wavecal] leave untouched. *)
Lemma store_wavenumbers_frame (wl : list num) (s : SpectrometerSettings) :
  let t := snd (store_wavenumbers wl s) in
  lock_wavecal t = lock_wavecal s
  /\ eeprom t = eeprom s
  /\ wavelengths t = wavelengths s
  /\ state t = state s.
Proof.
  cbv zeta. unfold store_wavenumbers.
  destruct (excitation s); [|repeat split].
  destruct (generate_wavenumbers _ _); [|repeat split].
  destruct (first_and_last _); repeat split.
Qed.

(** What the tail of [update_wavecal] leaves untouched. *)
Lemma update_wavenumbers_frame (wl : list num) (s : SpectrometerSettings) :
  let t := snd (update_wavenumbers wl s) in
  lock_wavecal t = lock_wavecal s
  /\ pixels t = pixels s
  /\ wavelength_coeffs (eeprom t) = wavelength_coeffs (eeprom s)
  /\ wavelengths t = wavelengths s
  /\ state t = state s.
Proof.
  cbv zeta. unfold update_wavenumbers.
  destruct (has_excitation s) as [[|]|]; [|repeat split|repeat split].
  destruct (excitation s) as [x|]; [|repeat split].
  destruct (store_wavenumbers_frame wl (synchronised x s))
    as (H1 & H2 & H3 & H4).
  unfold pixels. rewrite H1, H2, H3, H4. repeat split.
Qed.

(** The tail of [update_wavecal] leaves the wavelengths alone. *)
Lemma update_wavenumbers_keeps_wavelengths wl s :
  wavelengths (snd (update_wavenumbers wl s)) = wavelengths s.
Proof. apply (update_wavenumbers_frame wl s). Qed.

(** [update_wavecal] unlocked, in terms of its stages. *)
Lemma update_wavecal_stages (coeffs : option (list num))
    (s : SpectrometerSettings) :
  lock_wavecal s = false ->
  update_wavecal coeffs s
  = if pixels s <? 1 then (Done, cleared s)
    else
      let t := with_coefficients coeffs (cleared s) in
      match (if truthy (wavelength_coeffs (eeprom t))
             then wavelengths_from_eeprom t
             else Arith.Ok (map PyInt (range (pixels s)))) with
      | Arith.Fails e => (Raises e, t)
      | Arith.Ok wl =>
          match first_and_last wl with
          | None => (Raises (Arith.Exception IndexError),
                     set_wavelengths (Some wl) t)
          | Some _ => update_wavenumbers wl (set_wavelengths (Some wl) t)
          end
      end.
Proof.
  intros Hlock. unfold update_wavecal. rewrite Hlock.
  change (pixels (set_wavenumbers None (set_wavelengths None s)))
    with (pixels s).
  destruct (pixels s <? 1); [reflexivity|].
  destruct coeffs as [c|]; cbv zeta; unfold with_coefficients.
  - change (wavelength_coeffs
              (eeprom (set_eeprom
                         (set_wavelength_coeffs (Some c)
                                                (eeprom (cleared s)))
                         (cleared s))))
      with (Some c).
    destruct (truthy (Some c)).
    + fold (cleared s). destruct (wavelengths_from_eeprom _); reflexivity.
    + reflexivity.
  - fold (cleared s).
    change (wavelength_coeffs (eeprom (cleared s)))
      with (wavelength_coeffs (eeprom s)).
    destruct (truthy (wavelength_coeffs (eeprom s))).
    + destruct (wavelengths_from_eeprom _); reflexivity.
    + reflexivity.
Qed.

(** The coefficients in use: the argument, or else the EEPROM's. *)
Lemma coefficients_in_use (coeffs : option (list num))
    (s : SpectrometerSettings) :
  wavelength_coeffs (eeprom (with_coefficients coeffs (cleared s)))
  = match coeffs with
    | Some c => Some c
    | None => wavelength_coeffs (eeprom s)
    end.
Proof. destruct coeffs; reflexivity. Qed.

Lemma wavelengths_from_eeprom_four (t : SpectrometerSettings)
    (c0 c1 c2 c3 : num) (more : list num) :
  wavelength_coeffs (eeprom t) = Some (c0 :: c1 :: c2 :: c3 :: more) ->
  wavelengths_from_eeprom t = generate_wavelengths (pixels t) c0 c1 c2 c3.
Proof.
  intros Ht. unfold wavelengths_from_eeprom, Arith.subscript. rewrite Ht.
  change (getitem (c0 :: c1 :: c2 :: c3 :: more) 0) with (Some c0).
  rewrite (getitem_in_range _ 1), (getitem_in_range _ 2),
    (getitem_in_range _ 3) by (unfold len; cbn [List.length]; lia).
  reflexivity.
Qed.

Lemma wavelengths_from_eeprom_short (t : SpectrometerSettings)
    (c0 : num) (rest : list num) :
  wavelength_coeffs (eeprom t) = Some (c0 :: rest) ->
  (List.length rest < 3)%nat ->
  wavelengths_from_eeprom t = Arith.Fails (Arith.Exception IndexError).
Proof.
  intros Ht Hshort. unfold wavelengths_from_eeprom, Arith.subscript.
  rewrite Ht.
  change (getitem (c0 :: rest) 0) with (Some c0). cbn [Arith.and_then].
  destruct rest as [|c1 [|c2 [|c3 more]]];
    [| | |cbn [List.length] in Hshort; lia].
  - rewrite getitem_out_of_range by (unfold len; cbn [List.length]; lia).
    reflexivity.
  - rewrite (getitem_in_range _ 1) by (unfold len; cbn [List.length]; lia).
    cbn [Z.to_nat Pos.to_nat Pos.iter_op Nat.add nth_error Arith.and_then].
    rewrite getitem_out_of_range by (unfold len; cbn [List.length]; lia).
    reflexivity.
  - rewrite (getitem_in_range _ 1), (getitem_in_range _ 2)
      by (unfold len; cbn [List.length]; lia).
    cbn [Z.to_nat Pos.to_nat Pos.iter_op Nat.add nth_error Arith.and_then].
    rewrite getitem_out_of_range by (unfold len; cbn [List.length]; lia).
    reflexivity.
Qed.

(** C3. After an unlocked [update_wavecal] on [pixels >= 1], the
    coefficients in use being the argument or else the EEPROM's:
    - with at least four coefficients, if [c0 + c1*x + c2*x*x + c3*x*x*x]
      has a value in Python's arithmetic at every pixel, the wavelengths
      array has exactly [pixels] entries and entry [x] is that value; if at
      some pixel it has none (an [int] too large for a float among the
      operands), the call raises [OverflowError] and the array stays absent;
    - with no coefficients ([None] or an empty list) the array has exactly
      [pixels] entries and entry [x] is the integer [x];
    - with one, two or three coefficients the call raises [IndexError] and
      the array stays absent. *)
Theorem update_wavecal_wavelengths (coeffs : option (list num))
    (s : SpectrometerSettings) :
  lock_wavecal s = false ->
  1 <= pixels s ->
  let outcome := fst (update_wavecal coeffs s) in
  let s' := snd (update_wavecal coeffs s) in
  let used :=
    match coeffs with
    | Some c => Some c
    | None => wavelength_coeffs (eeprom s)
    end in
  (forall c0 c1 c2 c3 more,
      used = Some (c0 :: c1 :: c2 :: c3 :: more) ->
      ((forall x, 0 <= x < pixels s -> exists w, cubic c0 c1 c2 c3 x w) ->
       exists wl,
         wavelengths s' = Some wl /\ len wl = pixels s
         /\ forall x, 0 <= x < pixels s ->
              exists w, cubic c0 c1 c2 c3 x w /\ getitem wl x = Some w)
      /\ ((exists x, 0 <= x < pixels s
                     /\ forall w, ~ cubic c0 c1 c2 c3 x w) ->
          outcome = Raises (Arith.Exception OverflowError)
          /\ wavelengths s' = None))
  /\ (used = None \/ used = Some [] ->
      exists wl,
        wavelengths s' = Some wl /\ len wl = pixels s
        /\ forall x, 0 <= x < pixels s -> getitem wl x = Some (PyInt x))
  /\ (forall c0 rest,
        used = Some (c0 :: rest) -> (List.length rest < 3)%nat ->
        outcome = Raises (Arith.Exception IndexError)
        /\ wavelengths s' = None).
Proof.
  intros Hlock Hpix. cbv zeta.
  rewrite (update_wavecal_stages coeffs s Hlock).
  destruct (Z.ltb_spec (pixels s) 1) as [|_]; [lia|]. cbv zeta.
  rewrite coefficients_in_use.
  set (t := with_coefficients coeffs (cleared s)).
  assert (Hused : wavelength_coeffs (eeprom t)
                  = match coeffs with
                    | Some c => Some c
                    | None => wavelength_coeffs (eeprom s)
                    end) by apply coefficients_in_use.
  assert (Htpix : pixels t = pixels s)
    by (subst t; destruct coeffs; reflexivity).
  assert (Htwl : wavelengths t = None)
    by (subst t; destruct coeffs; reflexivity).
  set (used := match coeffs with
               | Some c => Some c
               | None => wavelength_coeffs (eeprom s)
               end) in *.
  split; [|split].
  - intros c0 c1 c2 c3 more Hu. rewrite Hu in *. cbn [truthy].
    rewrite (wavelengths_from_eeprom_four t c0 c1 c2 c3 more Hused), Htpix.
    split.
    + intros Hall.
      destruct (generate_wavelengths_ok _ _ _ _ _ Hall) as [wl Hwl].
      rewrite Hwl.
      destruct (generate_wavelengths_spec _ _ _ _ _ _ Hwl) as [Hlen Hat].
      assert (Hl : len wl = pixels s) by lia.
      exists wl.
      destruct (first_and_last wl) eqn:E;
        [|exfalso; apply (first_and_last_positive wl); [lia|exact E]].
      rewrite update_wavenumbers_keeps_wavelengths.
      split; [reflexivity|]. split; [exact Hl|exact Hat].
    + intros Hbad. rewrite (generate_wavelengths_overflow _ _ _ _ _ Hbad).
      split; [reflexivity|exact Htwl].
  - intros Hu.
    assert (Hfalse : truthy used = false)
      by (destruct Hu as [-> | ->]; reflexivity).
    rewrite Hfalse.
    set (wl := map PyInt (range (pixels s))).
    assert (Hl : len wl = pixels s).
    { subst wl. unfold len. rewrite length_map, range_length. lia. }
    exists wl.
    destruct (first_and_last wl) eqn:E;
      [|exfalso; apply (first_and_last_positive wl); [lia|exact E]].
    rewrite update_wavenumbers_keeps_wavelengths.
    split; [reflexivity|]. split; [exact Hl|].
    intros x Hx. apply pixel_space_at, Hx.
  - intros c0 rest Hu Hshort. rewrite Hu in *. cbn [truthy].
    rewrite (wavelengths_from_eeprom_short t c0 rest Hused Hshort).
    split; [reflexivity|exact Htwl].
Qed.

(** The reference unit: three wavelengths from the linear wavecal. *)
Lemma update_wavecal_wavelengths_witness :
  let s := sample_settings in
  let outcome := fst (update_wavecal None s) in
  let s' := snd (update_wavecal None s) in
  let used := wavelength_coeffs (eeprom s) in
  (forall c0 c1 c2 c3 more,
      used = Some (c0 :: c1 :: c2 :: c3 :: more) ->
      ((forall x, 0 <= x < pixels s -> exists w, cubic c0 c1 c2 c3 x w) ->
       exists wl,
         wavelengths s' = Some wl /\ len wl = pixels s
         /\ forall x, 0 <= x < pixels s ->
              exists w, cubic c0 c1 c2 c3 x w /\ getitem wl x = Some w)
      /\ ((exists x, 0 <= x < pixels s
                     /\ forall w, ~ cubic c0 c1 c2 c3 x w) ->
          outcome = Raises (Arith.Exception OverflowError)
          /\ wavelengths s' = None))
  /\ (used = None \/ used = Some [] ->
      exists wl,
        wavelengths s' = Some wl /\ len wl = pixels s
        /\ forall x, 0 <= x < pixels s -> getitem wl x = Some (PyInt x))
  /\ (forall c0 rest,
        used = Some (c0 :: rest) -> (List.length rest < 3)%nat ->
        outcome = Raises (Arith.Exception IndexError)
        /\ wavelengths s' = None).
Proof.
  apply (update_wavecal_wavelengths None sample_settings).
  - reflexivity.
  - unfold pixels, sample_settings, sample_eeprom. settings_simpl. lia.
Defined.

(** One coefficient on the three-pixel reference unit: [IndexError], and
    no wavelengths, where three were to be expected. *)
Lemma update_wavecal_one_coefficient :
  fst (update_wavecal (Some [PyFloat 800%float]) sample_settings)
  = Raises (Arith.Exception IndexError)
  /\ wavelengths
       (snd (update_wavecal (Some [PyFloat 800%float]) sample_settings))
     = None
  /\ pixels sample_settings = 3.
Proof. vm_compute. repeat split. Qed.

(** An [int] coefficient of 10^400 beside float coefficients:
    [OverflowError], and no wavelengths. *)
Example update_wavecal_huge_coefficient :
  update_wavecal
    (Some [PyFloat 800%float; PyInt (10 ^ 400); PyFloat 0%float;
           PyFloat 0%float])
    (cleared sample_settings)
  = (Raises (Arith.Exception OverflowError),
     with_coefficients
       (Some [PyFloat 800%float; PyInt (10 ^ 400); PyFloat 0%float;
              PyFloat 0%float])
       (cleared sample_settings)).
Proof. vm_compute. reflexivity. Qed.

(** ** Wavenumbers *)

(** Below 2^63 the conversion of an [int] is the primitive one. *)
Lemma float_of_int_small (z : Z) :
  0 <= z < 2 ^ 63 -> float_of_int z = PrimFloat.of_uint63 (Uint63.of_Z z).
Proof.
  intros H. unfold float_of_int.
  rewrite <- (SF2Prim_Prim2SF (PrimFloat.of_uint63 (Uint63.of_Z z))).
  rewrite of_uint63_spec, Uint63.of_Z_spec.
  rewrite Z.mod_small; [reflexivity|].
  change Uint63.wB with (2 ^ 63). exact H.
Qed.

Lemma excitation_check_from_spec (count : nat) :
  forall z0 z,
    excitation_check_from count z0 = true ->
    z0 <= z < z0 + Z.of_nat count ->
    excitation_check (PrimFloat.of_uint63 (Uint63.of_Z z)) = true.
Proof.
  induction count as [|count IH]; intros z0 z Hall Hz; [lia|].
  cbn [excitation_check_from] in Hall. apply andb_prop in Hall.
  destruct Hall as [Hhere Hrest].
  destruct (Z.eq_dec z z0) as [->|Hne]; [exact Hhere|].
  apply (IH (z0 + 1)); [exact Hrest|lia].
Qed.

Lemma excitation_check_all :
  excitation_check_from (Z.to_nat 65536) 0 = true.
Proof. vm_compute. reflexivity. Qed.

Lemma legacy_check_holds z : 0 <= z < 65536 -> legacy_check z = true.
Proof.
  intros H. unfold legacy_check.
  change (excitation_check (float_of_int z) = true).
  rewrite float_of_int_small by lia.
  apply (excitation_check_from_spec (Z.to_nat 65536) 0 z
                                    excitation_check_all).
  lia.
Qed.

(** [excitation()] looks at the legacy value only when it does not choose
    the floating-point one, and the choice does not depend on the legacy
    value. *)
Lemma excitation_choice (s : SpectrometerSettings) :
  (exists new, excitation_nm_float (eeprom s) = Some new
               /\ reasonable new = true
               /\ forall x old,
                    Arith.checked_float x = Arith.Ok old ->
                    excitation
                      (set_eeprom (set_excitation_nm x (eeprom s)) s)
                    = Arith.Ok new)
  \/ (forall x, excitation (set_eeprom (set_excitation_nm x (eeprom s)) s)
                = Arith.checked_float x).
Proof.
  unfold excitation, excitation_logged. settings_simpl.
  destruct (excitation_nm_float (eeprom s)) as [new|].
  2:{ right. intros x. destruct (Arith.checked_float x); reflexivity. }
  destruct (reasonable new) eqn:Hr.
  - left. exists new. rewrite (reasonable_not_nan _ Hr), Hr.
    split; [reflexivity|]. split; [reflexivity|].
    intros x old ->. reflexivity.
  - right. intros x. destruct (Arith.checked_float x); [|reflexivity].
    cbn [Arith.and_then]. destruct (isnan new); [reflexivity|].
    destruct (negb _); reflexivity.
Qed.

Lemma excitation_set_same (s : SpectrometerSettings) :
  excitation (set_eeprom (set_excitation_nm (excitation_nm (eeprom s))
                                            (eeprom s)) s)
  = excitation s.
Proof. destruct s as [st [] wl wn lk]. reflexivity. Qed.

(** Under an integer legacy value [excitation()] returns, and the two
    tests on it agree: an excitation that fails [has_excitation] is at most
    zero, and one that passes it is, once the legacy value has been
    synchronised, neither below 1 nor at most zero. *)
Lemma integer_legacy_tests_agree (s : SpectrometerSettings) :
  legacy_integer (eeprom s) ->
  exists x,
    excitation s = Arith.Ok x
    /\ (PrimFloat.ltb 0%float x = false -> PrimFloat.leb x 0%float = true)
    /\ (PrimFloat.ltb 0%float x = true ->
        exists x', excitation (synchronised x s) = Arith.Ok x'
                   /\ PrimFloat.ltb x' 1%float = false
                   /\ PrimFloat.leb x' 0%float = false).
Proof.
  intros (z & Hz & Hleg). unfold synchronised.
  destruct (excitation_choice s) as [(new & Hnew & Hr & Hx)|Hx].
  - exists new. rewrite <- (excitation_set_same s).
    rewrite (Hx _ _ Hleg).
    apply reasonable_lower in Hr.
    split; [reflexivity|]. split.
    + rewrite (at_least_200_positive _ Hr). discriminate.
    + intros _. exists new. split; [apply (Hx (PyFloat _) _ eq_refl)|].
      split.
      * apply at_least_200_not_below_one, Hr.
      * apply at_least_200_not_nonpositive, Hr.
  - exists (float_of_int z). rewrite <- (excitation_set_same s).
    rewrite Hx, Hleg.
    pose proof (legacy_check_holds z Hz) as Hc. unfold legacy_check in Hc.
    split; [reflexivity|].
    destruct (PrimFloat.ltb 0%float (float_of_int z)).
    + apply andb_prop in Hc. destruct Hc as [H1 H2].
      apply negb_true_iff in H1, H2.
      split; [discriminate|]. intros _.
      exists (round0 (float_of_int z)). rewrite Hx.
      split; [reflexivity|]. split; assumption.
    + split; [intros _; exact Hc|discriminate].
Qed.

(** A float that compares equal to zero is at most zero. *)
Lemma zero_is_nonpositive (x : float) :
  PrimFloat.eqb x 0%float = true -> PrimFloat.leb x 0%float = true.
Proof.
  rewrite eqb_spec, leb_spec. unfold SFeqb, SFleb.
  destruct (SFcompare (Prim2SF x) (Prim2SF 0%float)) as [[| |]|];
    congruence.
Qed.

(** Under an integer legacy value the tail of [update_wavecal] does what
    the specification says of the wavenumbers. With an excitation that is
    not positive it changes nothing, and the excitation is at most zero.
    With a positive one it synchronises the legacy value and then, the
    excitation [x'] read back being at least 1, computes one wavenumber per
    wavelength from [1e7 / x']: the array it stores is as long as the
    wavelengths, and entry [i] is the wavenumber of wavelength [i]; only
    the exception of one of these computations (an [int] wavelength too
    large for a float) stops it. *)
Lemma integer_legacy_wavenumbers (a : num) (l : list num)
    (s : SpectrometerSettings) :
  legacy_integer (eeprom s) ->
  exists x,
    excitation s = Arith.Ok x
    /\ (PrimFloat.ltb 0%float x = false ->
        PrimFloat.leb x 0%float = true
        /\ update_wavenumbers (a :: l) s = (Done, s))
    /\ (PrimFloat.ltb 0%float x = true ->
        exists x',
          excitation (synchronised x s) = Arith.Ok x'
          /\ PrimFloat.leb x' 0%float = false
          /\ match each (wavenumber_at (PrimFloat.div 1e7%float x'))
                        (a :: l) with
             | Arith.Ok wn =>
                 update_wavenumbers (a :: l) s
                 = (Done, set_wavenumbers (Some wn) (synchronised x s))
                 /\ len wn = len (a :: l)
                 /\ forall i w, getitem (a :: l) i = Some w ->
                      exists v,
                        wavenumber_at (PrimFloat.div 1e7%float x') w
                        = Arith.Ok v
                        /\ getitem wn i = Some v
             | Arith.Fails e =>
                 update_wavenumbers (a :: l) s
                 = (Raises e, synchronised x s)
             end).
Proof.
  intros Hleg.
  destruct (integer_legacy_tests_agree s Hleg) as (x & Hx & Hneg & Hpos).
  exists x. split; [exact Hx|]. split.
  - intros Hlt. split; [exact (Hneg Hlt)|].
    unfold update_wavenumbers, has_excitation. rewrite Hx.
    cbn [Arith.and_then]. rewrite Hlt. reflexivity.
  - intros Hlt. destruct (Hpos Hlt) as (x' & Hx' & Hone & Hzero).
    exists x'. split; [exact Hx'|]. split; [exact Hzero|].
    assert (Hnz : PrimFloat.eqb x' 0%float = false).
    { destruct (PrimFloat.eqb x' 0%float) eqn:E; [|reflexivity].
      apply zero_is_nonpositive in E. congruence. }
    assert (Hrun : update_wavenumbers (a :: l) s
                   = match each (wavenumber_at (PrimFloat.div 1e7%float x'))
                                (a :: l) with
                     | Arith.Fails e => (Raises e, synchronised x s)
                     | Arith.Ok wn =>
                         match first_and_last wn with
                         | Some _ =>
                             (Done,
                              set_wavenumbers (Some wn) (synchronised x s))
                         | None =>
                             (Raises (Arith.Exception IndexError),
                              set_wavenumbers (Some wn) (synchronised x s))
                         end
                     end).
    { unfold update_wavenumbers, has_excitation. rewrite Hx.
      cbn [Arith.and_then]. rewrite Hlt.
      unfold store_wavenumbers. rewrite Hx'.
      unfold generate_wavenumbers. rewrite Hone. cbn [orb].
      unfold Arith.float_truediv at 1.
      cbn [Arith.checked_float Arith.and_then]. rewrite Hnz.
      reflexivity. }
    rewrite Hrun.
    destruct (each _ (a :: l)) as [wn|e] eqn:Heach.
    + destruct (each_nth _ _ _ Heach) as [Hlen Hnth].
      assert (Hl : len wn = len (a :: l)) by (unfold len; lia).
      destruct (first_and_last wn) eqn:E.
      2:{ exfalso. apply (first_and_last_positive wn); [|exact E].
          rewrite Hl. unfold len. cbn [List.length]. lia. }
      split; [reflexivity|]. split; [exact Hl|].
      intros i w Hi.
      unfold getitem in Hi |- *. rewrite Hlen.
      destruct (position (List.length (a :: l)) i) as [k|];
        [|discriminate Hi].
      destruct (Hnth k w Hi) as (v & Hv & Hat).
      exists v. split; assumption.
    + reflexivity.
Qed.

Lemma getitem_map {A B} (f : A -> B) (l : list A) (i : Z) :
  getitem (map f l) i = option_map f (getitem l i).
Proof.
  unfold getitem. rewrite length_map.
  destruct (position _ i); [|reflexivity]. apply nth_error_map.
Qed.

(** What the reference unit ends up with. *)
Example sample_wavecal :
  update_wavecal None sample_settings
  = (Done,
     mkSettings (mkState 10 false 0 0)
                (set_excitation_nm (PyFloat 785%float) sample_eeprom)
                (Some [PyFloat 800%float; PyFloat 800.5%float;
                       PyFloat 801%float])
                (Some [PyFloat (PrimFloat.sub
                                  (PrimFloat.div 1e7%float 785%float)
                                  (PrimFloat.div 1e7%float 800%float));
                       PyFloat (PrimFloat.sub
                                  (PrimFloat.div 1e7%float 785%float)
                                  (PrimFloat.div 1e7%float 800.5%float));
                       PyFloat (PrimFloat.sub
                                  (PrimFloat.div 1e7%float 785%float)
                                  (PrimFloat.div 1e7%float 801%float))])
                false).
Proof. vm_compute. reflexivity. Qed.

(** C4. A unit with three pixels, a linear wavecal and a legacy excitation
    of 0.4, no floating-point excitation. The excitation is positive, so
    [has_excitation()] holds and the wavelengths are not empty; the legacy
    value is rounded to 0.0, which fails [generate_wavenumbers]' test
    [excitation < 1]; the list that comes back is empty and the [log.debug]
    that follows raises [IndexError] on its first subscript. Afterwards the
    wavenumbers are the empty list and the excitation is 0.0. *)
Theorem fractional_legacy_excitation :
  has_excitation fractional_settings = Arith.Ok true
  /\ fst (update_wavecal None fractional_settings)
     = Raises (Arith.Exception IndexError)
  /\ wavelengths (snd (update_wavecal None fractional_settings))
     = Some [PyFloat 800%float; PyFloat 800.5%float; PyFloat 801%float]
  /\ wavenumbers (snd (update_wavecal None fractional_settings)) = Some []
  /\ excitation (snd (update_wavecal None fractional_settings))
     = Arith.Ok 0%float.
Proof. vm_compute. repeat split. Qed.

(** ** [acquire_data] and [ble_acquire] as they run *)

(** [ble_acquire] never reaches the statements after its [return True]:
    whatever the device would answer, it performs no effect and returns
    [None] (event set) or [True]. *)
Lemma ble_acquire_returns_early (d : BLEDevice) (script : list exchange) :
  ble_acquire d script
  = (Return (if disconnect_event d then RetNone else RetTrue), []).
Proof.
  unfold ble_acquire, when. destruct (disconnect_event d); reflexivity.
Qed.

(** No step of the acquisition path writes the flag that [acquire_data]
    tests first. *)
Lemma performing_acquire_never_written (d : BLEDevice)
    (script : list exchange) :
  performing_acquire (submitted d) = performing_acquire d
  /\ performing_acquire (close d) = performing_acquire d
  /\ performing_acquire (snd (fst (acquire_data d script)))
     = performing_acquire d.
Proof.
  repeat split. unfold acquire_data.
  destruct (performing_acquire d) eqn:E; [exact E|].
  destruct (disconnect d); [exact E|].
  rewrite ble_acquire_returns_early. exact E.
Qed.

(** C10. When no acquisition is flagged as in flight, no disconnect has
    been requested and the disconnect event is not set, [acquire_data]
    returns [True] with an empty list of effects, whatever the device would
    have answered: no trigger is written, no packet requested or read,
    nothing is slept or logged. The coroutine it runs returns [True] before
    the protocol statements, so the result does not depend on them; only the
    session counter and the [perfroming_acquire] attribute change. *)
Theorem acquire_data_returns_true_without_io (d : BLEDevice)
    (script : list exchange) :
  performing_acquire d = false ->
  disconnect d = false ->
  disconnect_event d = false ->
  acquire_data d script
  = (Returned RetTrue,
     mkDevice false (Some false) false false (session_reading_count d + 1)
              (settings d),
     [])
  /\ ble_acquire (submitted d) script = (Return RetTrue, [])
  /\ forall e, In e (snd (acquire_data d script)) -> is_transport e = false.
Proof.
  intros Hflag Hdis Hev.
  assert (Hrun : acquire_data d script
            = (Returned RetTrue,
               mkDevice false (Some false) false false
                        (session_reading_count d + 1) (settings d),
               [])).
  { unfold acquire_data. rewrite Hflag, Hdis, ble_acquire_returns_early.
    unfold submitted, set_session_reading_count, set_perfroming_acquire.
    cbn [disconnect_event performing_acquire disconnect
         session_reading_count settings perfroming_acquire].
    rewrite Hflag, Hdis, Hev. reflexivity. }
  split; [exact Hrun|]. split.
  - rewrite ble_acquire_returns_early.
    unfold submitted, set_session_reading_count, set_perfroming_acquire.
    cbn [disconnect_event]. rewrite Hev. reflexivity.
  - rewrite Hrun. intros e [].
Qed.

(** A fresh device: one call, [True], nothing on the wire. *)
Lemma acquire_data_returns_true_without_io_witness :
  acquire_data sample_device []
  = (Returned RetTrue,
     mkDevice false (Some false) false false
              (session_reading_count sample_device + 1)
              (settings sample_device),
     [])
  /\ ble_acquire (submitted sample_device) [] = (Return RetTrue, [])
  /\ forall e, In e (snd (acquire_data sample_device [])) ->
               is_transport e = false.
Proof.
  apply (acquire_data_returns_true_without_io sample_device []);
    reflexivity.
Defined.

(** C8. The collision guard does not engage. While a first request is in
    flight (the device is as [submitted] leaves it) the flag that
    [acquire_data] tests is still [False], because the assignments go to
    the attribute [perfroming_acquire]. A second request therefore runs
    the ordinary path: it counts a further session reading and runs
    [ble_acquire] again (without effects, as that coroutine returns at
    once); and when [close] has been called in the meantime it returns
    [None], not [True]. *)
Theorem second_request_is_not_short_circuited (s : SpectrometerSettings)
    (script : list exchange) :
  let in_flight := submitted (init s) in
  performing_acquire in_flight = false
  /\ perfroming_acquire in_flight = Some true
  /\ acquire_data in_flight script
     = (Returned RetTrue, mkDevice false (Some false) false false 2 s, [])
  /\ acquire_data (close in_flight) script
     = (Returned RetNone, close in_flight, []).
Proof.
  cbv zeta. repeat split.
Qed.

(** ** One turn of the packet loop *)

(** The bytes of a 16-bit word: shifting and or-ing is positional
    notation. *)
Lemma byte_value_range (b : Byte.byte) : 0 <= byte_value b < 256.
Proof.
  unfold byte_value. pose proof (Byte.to_N_bounded b) as H. lia.
Qed.

Lemma word_of_bytes (hi lo : Byte.byte) :
  Z.lor (Z.shiftl (byte_value hi) 8) (byte_value lo)
  = 256 * byte_value hi + byte_value lo.
Proof.
  pose proof (byte_value_range hi) as Hh.
  pose proof (byte_value_range lo) as Hl.
  rewrite Z.shiftl_mul_pow2 by lia. change (2 ^ 8) with 256.
  assert (Hland : Z.land (byte_value hi * 256) (byte_value lo) = 0).
  { apply Z.bits_inj'. intros n Hn.
    rewrite Z.land_spec, Z.bits_0.
    destruct (Z.ltb_spec n 8).
    - replace (byte_value hi * 256) with (byte_value hi * 2 ^ 8) by lia.
      rewrite Z.mul_pow2_bits_low by lia. reflexivity.
    - replace (Z.testbit (byte_value lo) n) with false;
        [apply andb_false_r|].
      symmetry. apply Z.bits_above_log2; [lia|].
      destruct (Z.eq_dec (byte_value lo) 0) as [->|Hnz]; [cbn; lia|].
      apply Z.log2_lt_pow2; [lia|].
      apply Z.lt_le_trans with (m := 2 ^ 8);
        [change (2 ^ 8) with 256; lia|].
      apply Z.pow_le_mono_r; lia. }
  rewrite <- (Z.lxor_lor _ _ Hland), <- (Z.add_nocarry_lxor _ _ Hland).
  lia.
Qed.

(** [loop_body], branch by branch. *)
Lemma loop_body_unfold (it total : Z) (x : exchange) (st : loop_state) :
  loop_body it total x st
  = if event_at_top x then (Return RetNone, [])
    else if disconnect_seen x then (Return RetNone, [])
    else
      let rc := next_retry_count st in
      if request_retry st && (rc >? MAX_RETRIES)
      then (Return RetNone, [LogError (GivingUp MAX_RETRIES)])
      else
        let delay := backoff it rc in
        if event_before_sleep x
        then (Return RetNone, [LogError (RetryRequested delay)])
        else if negb ((0 <=? pixels_read st) && (pixels_read st <? 65536))
        then (Raise OverflowError,
              [LogError (RetryRequested delay); Sleep delay])
        else
          let pre :=
            [LogError (RetryRequested delay); Sleep delay;
             WriteGattChar SPECTRUM_PIXELS_UUID
                           [pixels_read st / 256; pixels_read st mod 256];
             ReadGattChar READ_SPECTRUM_UUID (response x)] in
          if malformed (response x)
          then (Next (mkLoop (spectrum st) (pixels_read st) rc true),
                pre ++ [LogError (InvalidResponse (len (response x)))])
          else if event_after_length_check x then (Return RetNone, pre)
          else
            match getitem (response x) 0, getitem (response x) 1 with
            | Some b0, Some b1 =>
                let fp := Z.lor (Z.shiftl (byte_value b0) 8) (byte_value b1) in
                if (fp >? 2048) || (fp <? 0)
                then (Next (mkLoop (spectrum st) (pixels_read st) rc true),
                      pre ++ [LogError (ReceivedNack fp)])
                else
                  let '(r, tr) :=
                    store_pixels total (pixels_in (response x)) x
                                 (range (pixels_in (response x)))
                                 (spectrum st) (pixels_read st) in
                  (match r with
                   | Next (sp, pr) => Next (mkLoop sp pr rc false)
                   | Return v => Return v
                   | Raise e => Raise e
                   | Starved => Starved
                   end, pre ++ tr)
            | _, _ => (Raise IndexError, pre)
            end.
Proof.
  unfold loop_body, next_retry_count, backoff, malformed, pixels_in, when,
    to_bytes2, or_index_error, ret_now, emit, next, raise.
  destruct (event_at_top x); [reflexivity|].
  destruct (disconnect_seen x); [reflexivity|].
  destruct (request_retry st); cbn [andb bind];
    [destruct (retry_count st + 1 >? MAX_RETRIES); [reflexivity|]|];
    cbn [bind app];
    (destruct (event_before_sleep x); [reflexivity|]);
    cbn [bind app];
    (destruct ((0 <=? pixels_read st) && (pixels_read st <? 65536));
      [|reflexivity]);
    cbn [negb bind app];
    (destruct ((len (response x) <? header_len)
               || negb (len (response x) mod 2 =? 0)); [reflexivity|]);
    (destruct (event_after_length_check x); [reflexivity|]);
    cbn [bind app];
    (destruct (getitem (response x) 0) as [b0|]; [|reflexivity]);
    cbn [bind app];
    (destruct (getitem (response x) 1) as [b1|]; [|reflexivity]);
    cbn [bind app];
    (destruct ((_ >? 2048) || (_ <? 0)); [reflexivity|]);
    (destruct (store_pixels _ _ _ _ _ _) as [[[sp pr]|v|e|] tr]);
    cbn [bind app]; rewrite ?app_nil_r; reflexivity.
Qed.

Lemma getitem_head_two {A} (l : list A) (a b : A) :
  getitem l 0 = Some a -> getitem l 1 = Some b ->
  exists rest, l = a :: b :: rest.
Proof.
  destruct l as [|a' [|b' rest]].
  - discriminate.
  - intros _ H. rewrite getitem_out_of_range in H; [discriminate|].
    unfold len. cbn [List.length]. lia.
  - intros Ha Hb. change (Some a' = Some a) in Ha.
    rewrite getitem_in_range in Hb
      by (unfold len; cbn [List.length]; lia).
    change (Some b' = Some b) in Hb.
    exists rest. congruence.
Qed.



(** The first retry of the reference unit waits six integration times. *)
Example first_retry_delay :
  snd (loop_body 10 3 (undisturbed two_pixels) after_one_failure)
  = [LogError (RetryRequested 60); Sleep 60;
     WriteGattChar SPECTRUM_PIXELS_UUID [0; 0];
     ReadGattChar READ_SPECTRUM_UUID two_pixels].
Proof. vm_compute. reflexivity. Qed.

(** ** Response validation *)

Lemma first_pixel_nonnegative (resp : list Byte.byte) :
  0 <= first_pixel resp.
Proof.
  unfold first_pixel. destruct resp as [|b0 [|b1 rest]]; try lia.
  pose proof (byte_value_range b0). pose proof (byte_value_range b1). lia.
Qed.

Lemma malformed_iff (resp : list Byte.byte) :
  malformed resp = true <-> len resp < header_len \/ len resp mod 2 <> 0.
Proof.
  unfold malformed. rewrite orb_true_iff, negb_true_iff.
  rewrite Z.ltb_lt, Z.eqb_neq. reflexivity.
Qed.

(** An empty or one-byte response is malformed: the length check comes
    before any subscript of the response. *)
Lemma short_response_malformed (resp : list Byte.byte) :
  getitem resp 0 = None \/ getitem resp 1 = None -> malformed resp = true.
Proof.
  intros H. apply malformed_iff. left. unfold header_len.
  destruct resp as [|b0 [|b1 rest]]; unfold len; cbn [List.length]; try lia.
  destruct H as [H|H]; [discriminate H|].
  rewrite getitem_in_range in H by (unfold len; cbn [List.length]; lia).
  discriminate H.
Qed.




(** The two rejections, run. *)
Example rejected_responses :
  loop_body 10 3 (undisturbed odd_response) after_one_failure
  = (Next (mkLoop [0; 0; 0] 0 1 true),
     [LogError (RetryRequested 60); Sleep 60;
      WriteGattChar SPECTRUM_PIXELS_UUID [0; 0];
      ReadGattChar READ_SPECTRUM_UUID odd_response;
      LogError (InvalidResponse 3)])
  /\ loop_body 10 3 (undisturbed nack_response) after_one_failure
     = (Next (mkLoop [0; 0; 0] 0 1 true),
        [LogError (RetryRequested 60); Sleep 60;
         WriteGattChar SPECTRUM_PIXELS_UUID [0; 0];
         ReadGattChar READ_SPECTRUM_UUID nack_response;
         LogError (ReceivedNack 65535)]).
Proof. vm_compute. split; reflexivity. Qed.

(** ** Retries over a whole acquisition *)

Lemma retries_from_app (failed : bool) (a b : list effect) :
  retries_from failed (a ++ b)
  = (retries_from failed a + retries_from (failed_after failed a) b)%nat.
Proof.
  revert failed. induction a as [|e a IH]; intros failed; [reflexivity|].
  cbn [app retries_from failed_after].
  destruct (is_failure e); [apply IH|].
  destruct (is_request e); [|apply IH].
  rewrite IH. lia.
Qed.

Lemma failed_after_app (failed : bool) (a b : list effect) :
  failed_after failed (a ++ b) = failed_after (failed_after failed a) b.
Proof.
  revert failed. induction a as [|e a IH]; intros failed; [reflexivity|].
  cbn [app failed_after].
  destruct (is_failure e); [apply IH|].
  destruct (is_request e); apply IH.
Qed.

(** [store_pixels] on a non-empty range, branch by branch. *)
Lemma store_pixels_unfold (total n : Z) (x : exchange) (i : Z)
    (rest : list Z) (sp : list Z) (pr : Z) :
  store_pixels total n x (i :: rest) sp pr
  = match getitem (response x) (header_len + i * 2 + 1) with
    | None => (Raise IndexError, [])
    | Some hi =>
        match getitem (response x) (header_len + i * 2) with
        | None => (Raise IndexError, [])
        | Some lo =>
            match setitem sp pr
                    (Z.lor (Z.shiftl (byte_value hi) 8) (byte_value lo)) with
            | None => (Raise IndexError, [])
            | Some sp' =>
                if event_after_pixel x (Z.to_nat i)
                then (Return RetNone, [])
                else if pr + 1 =? total
                then (Next (sp', pr + 1),
                      if negb (i + 1 =? n)
                      then [LogError (IgnoringTrailing (n - (i + 1)))]
                      else [])
                else store_pixels total n x rest sp' (pr + 1)
            end
        end
    end.
Proof.
  cbn [store_pixels].
  unfold or_index_error, when, ret_now, emit, next, raise.
  destruct (getitem (response x) (header_len + i * 2 + 1)); [|reflexivity].
  destruct (getitem (response x) (header_len + i * 2)); [|reflexivity].
  cbn [bind app].
  destruct (setitem sp pr _); [|reflexivity].
  cbn [bind app].
  destruct (event_after_pixel x (Z.to_nat i)); [reflexivity|].
  cbn [bind app].
  destruct (pr + 1 =? total).
  - destruct (negb (i + 1 =? n)); reflexivity.
  - destruct (store_pixels _ _ _ _ _ _) as [r tr]. reflexivity.
Qed.

(** Storing pixels neither requests a packet nor fails validation. *)
Lemma store_pixels_quiet (total n : Z) (x : exchange) (indices : list Z)
    (sp : list Z) (pr : Z) (failed : bool) :
  let tr := snd (store_pixels total n x indices sp pr) in
  retries_from failed tr = 0%nat /\ failed_after failed tr = failed.
Proof.
  cbv zeta. revert sp pr.
  induction indices as [|i rest IH]; intros sp pr; [split; reflexivity|].
  rewrite store_pixels_unfold.
  destruct (getitem _ _); [|split; reflexivity].
  destruct (getitem _ _); [|split; reflexivity].
  destruct (setitem _ _ _); [|split; reflexivity].
  destruct (event_after_pixel _ _); [split; reflexivity|].
  destruct (pr + 1 =? total); [|apply IH].
  destruct (negb _); split; reflexivity.
Qed.

(** What one turn adds to the retries, and how it leaves the count. *)
Lemma loop_body_retries (it total : Z) (x : exchange) (st : loop_state) :
  retry_count st <= MAX_RETRIES ->
  let failed := request_retry st in
  let '(r, tr) := loop_body it total x st in
  match r with
  | Next st' =>
      retry_count st' = next_retry_count st
      /\ retry_count st' <= MAX_RETRIES
      /\ retries_from failed tr = (if failed then 1 else 0)%nat
      /\ failed_after failed tr = request_retry st'
  | _ =>
      (retries_from failed tr
       <= if failed && (retry_count st <? MAX_RETRIES)%Z then 1 else 0)%nat
  end.
Proof.
  intros Hle. cbv zeta. rewrite loop_body_unfold.
  destruct (event_at_top x); [apply Nat.le_0_l|].
  destruct (disconnect_seen x); [apply Nat.le_0_l|].
  cbv zeta.
  destruct (request_retry st && (next_retry_count st >? MAX_RETRIES))
    eqn:Hgo.
  { apply Nat.le_0_l. }
  assert (Hrc : next_retry_count st <= MAX_RETRIES).
  { unfold next_retry_count in *. destruct (request_retry st); [|lia].
    cbn [andb] in Hgo.
    destruct (Z.gtb_spec (retry_count st + 1) MAX_RETRIES);
      [discriminate Hgo|lia]. }
  assert (Hone : ((if request_retry st then 1 else 0)
                  <= if request_retry st
                        && (retry_count st <? MAX_RETRIES)%Z
                     then 1 else 0)%nat).
  { unfold next_retry_count in *.
    destruct (request_retry st); [|apply Nat.le_0_l]. cbn [andb] in *.
    destruct (Z.ltb_spec (retry_count st) MAX_RETRIES); [lia|].
    destruct (Z.gtb_spec (retry_count st + 1) MAX_RETRIES);
      [discriminate Hgo|lia]. }
  set (rc := next_retry_count st) in *.
  destruct (event_before_sleep x).
  { apply Nat.le_0_l. }
  destruct (negb _).
  { apply Nat.le_0_l. }
  cbv zeta.
  set (pre := [_; _; _; _]).
  assert (Hpre : forall failed,
            retries_from failed pre = (if failed then 1 else 0)%nat
            /\ failed_after failed pre = false).
  { intros failed. subst pre. cbn. split; [lia|reflexivity]. }
  destruct (malformed (response x)).
  { rewrite retries_from_app, failed_after_app.
    destruct (Hpre (request_retry st)) as [-> ->].
    cbn. repeat split; try lia; reflexivity. }
  destruct (event_after_length_check x).
  { destruct (Hpre (request_retry st)) as [-> _]. exact Hone. }
  destruct (getitem (response x) 0);
    [|destruct (Hpre (request_retry st)) as [-> _]; exact Hone].
  destruct (getitem (response x) 1);
    [|destruct (Hpre (request_retry st)) as [-> _]; exact Hone].
  cbv zeta.
  destruct (_ || _).
  { rewrite retries_from_app, failed_after_app.
    destruct (Hpre (request_retry st)) as [-> ->].
    cbn. repeat split; try lia; reflexivity. }
  pose proof (store_pixels_quiet total (pixels_in (response x)) x
                (range (pixels_in (response x))) (spectrum st)
                (pixels_read st) false) as Hq.
  cbv zeta in Hq.
  destruct (store_pixels _ _ _ _ _ _) as [r tr]. cbn [snd] in Hq.
  destruct Hq as [Hq1 Hq2].
  assert (Hsum : retries_from (request_retry st) (pre ++ tr)
                 = (if request_retry st then 1 else 0)%nat).
  { rewrite retries_from_app.
    destruct (Hpre (request_retry st)) as [-> ->]. rewrite Hq1. lia. }
  assert (Hflag : failed_after (request_retry st) (pre ++ tr) = false).
  { rewrite failed_after_app.
    destruct (Hpre (request_retry st)) as [_ ->]. exact Hq2. }
  destruct r as [[sp pr]| | |].
  - cbn [retry_count request_retry]. repeat split; auto.
  - rewrite Hsum. exact Hone.
  - rewrite Hsum. exact Hone.
  - rewrite Hsum. exact Hone.
Qed.

(** The retries of a run of the packet loop fit in what is left of the
    limit. *)
Lemma packet_loop_retries (it total : Z) (script : list exchange) :
  forall st,
    retry_count st <= MAX_RETRIES ->
    Z.of_nat (retries_from (request_retry st)
                           (snd (packet_loop it total script st)))
    <= MAX_RETRIES - retry_count st.
Proof.
  induction script as [|x rest IH]; intros st Hle; cbn [packet_loop].
  - destruct (pixels_read st <? total);
      cbn [snd next retries_from Z.of_nat]; lia.
  - destruct (pixels_read st <? total);
      [|cbn [snd next retries_from Z.of_nat]; lia].
    pose proof (loop_body_retries it total x st Hle) as Hbody.
    cbv zeta in Hbody.
    destruct (loop_body it total x st) as [r tr].
    destruct r as [st'| v | e |]; cbn [bind snd].
    + destruct Hbody as (Hrc & Hle' & Hret & Hflag).
      specialize (IH st' Hle').
      destruct (packet_loop it total rest st') as [r' tr'].
      cbn [snd] in *. rewrite retries_from_app, Hret, Hflag.
      unfold next_retry_count in Hrc.
      destruct (request_retry st); lia.
    + destruct (request_retry st); cbn [andb] in Hbody; [|lia].
      destruct (Z.ltb_spec (retry_count st) MAX_RETRIES); lia.
    + destruct (request_retry st); cbn [andb] in Hbody; [|lia].
      destruct (Z.ltb_spec (retry_count st) MAX_RETRIES); lia.
    + destruct (request_retry st); cbn [andb] in Hbody; [|lia].
      destruct (Z.ltb_spec (retry_count st) MAX_RETRIES); lia.
Qed.

(** ** Assembly of the spectrum *)

Lemma firstn_absorb {A} (n : nat) (l m : list A) :
  firstn n (firstn n l ++ m) = firstn n (l ++ m).
Proof.
  destruct (Nat.le_gt_cases (List.length l) n) as [H|H].
  - rewrite (firstn_all2 l) by exact H. reflexivity.
  - rewrite !firstn_app, firstn_firstn, Nat.min_id.
    rewrite length_firstn.
    replace (n - Nat.min n (List.length l))%nat with 0%nat by lia.
    replace (n - List.length l)%nat with 0%nat by lia.
    reflexivity.
Qed.

Lemma firstn_exact {A} (l m : list A) (n : nat) :
  List.length l = n -> firstn n (l ++ m) = l.
Proof.
  intros <-. rewrite firstn_app, Nat.sub_diag, firstn_all.
  cbn [firstn]. apply app_nil_r.
Qed.

Lemma firstn_whole {A} (n : nat) (l : list A) :
  (List.length l <= n)%nat -> firstn n (l ++ []) = l.
Proof.
  intros H. rewrite app_nil_r. apply firstn_all2, H.
Qed.

(** The pixels stored by the inner loop are the packet's, in order, up to
    the end of the spectrum. *)
Lemma store_pixels_written (total n : Z) (x : exchange) (indices : list Z) :
  forall sp0 pr0 sp pr tr,
    len sp0 = total ->
    0 <= pr0 < total ->
    store_pixels total n x indices sp0 pr0 = (Next (sp, pr), tr) ->
    len sp = total
    /\ pr0 <= pr <= total
    /\ firstn (Z.to_nat pr) sp
       = firstn (Z.to_nat total)
                (firstn (Z.to_nat pr0) sp0
                 ++ map (pixel (response x)) indices).
Proof.
  induction indices as [|i rest IH]; intros sp0 pr0 sp pr tr Hlen Hpr Hrun.
  - cbn [store_pixels] in Hrun. injection Hrun as <- <- <-.
    split; [exact Hlen|]. split; [lia|].
    cbn [map]. symmetry. apply firstn_whole.
    rewrite length_firstn. unfold len in Hlen. lia.
  - rewrite store_pixels_unfold in Hrun.
    cbn [map]. unfold pixel at 1.
    destruct (getitem (response x) (header_len + i * 2 + 1)) as [hi|];
      [|discriminate Hrun].
    destruct (getitem (response x) (header_len + i * 2)) as [lo|];
      [|discriminate Hrun].
    rewrite word_of_bytes in Hrun.
    rewrite setitem_in_range in Hrun by lia.
    set (v := 256 * byte_value hi + byte_value lo) in *.
    replace (byte_value lo + 256 * byte_value hi) with v by (subst v; lia).
    set (sp1 := update sp0 (Z.to_nat pr0) v) in *.
    assert (Hlen1 : len sp1 = total).
    { subst sp1. unfold len in *. rewrite update_length. exact Hlen. }
    assert (Hnext : firstn (Z.to_nat (pr0 + 1)) sp1
                    = firstn (Z.to_nat pr0) sp0 ++ [v]).
    { replace (Z.to_nat (pr0 + 1)) with (S (Z.to_nat pr0)) by lia.
      subst sp1. apply firstn_update_next. unfold len in Hlen. lia. }
    destruct (event_after_pixel x (Z.to_nat i)); [discriminate Hrun|].
    destruct (Z.eqb_spec (pr0 + 1) total) as [Heq|Hneq].
    + injection Hrun as <- <- _.
      split; [exact Hlen1|]. split; [lia|].
      rewrite Hnext, <- Heq.
      change (v :: map (pixel (response x)) rest)
        with ([v] ++ map (pixel (response x)) rest).
      rewrite app_assoc. symmetry. apply firstn_exact.
      rewrite length_app, length_firstn. unfold len in Hlen.
      cbn [List.length]. lia.
    + destruct (IH sp1 (pr0 + 1) sp pr tr Hlen1 ltac:(lia) Hrun)
        as (Hl & Hb & Hw).
      split; [exact Hl|]. split; [lia|].
      rewrite Hw, Hnext, <- app_assoc. reflexivity.
Qed.

Lemma written_length (total : Z) (st : loop_state) :
  len (spectrum st) = total -> 0 <= pixels_read st <= total ->
  List.length (written st) = Z.to_nat (pixels_read st).
Proof.
  intros Hlen Hpr. unfold written. rewrite length_firstn.
  unfold len in Hlen. lia.
Qed.

(** One turn of the packet loop extends the written pixels by what the
    response contributes, up to the end of the spectrum. *)
Lemma loop_body_written (it total : Z) (x : exchange) (st st' : loop_state)
    (tr : list effect) :
  len (spectrum st) = total ->
  0 <= pixels_read st < total ->
  loop_body it total x st = (Next st', tr) ->
  len (spectrum st') = total
  /\ pixels_read st <= pixels_read st' <= total
  /\ written st'
     = firstn (Z.to_nat total) (written st ++ contribution (response x)).
Proof.
  intros Hlen Hpr Hrun.
  assert (Hkeep : written st
                  = firstn (Z.to_nat total) (written st ++ [])).
  { symmetry. apply firstn_whole.
    rewrite (written_length total) by (try exact Hlen; lia). lia. }
  rewrite loop_body_unfold in Hrun.
  destruct (event_at_top x); [discriminate Hrun|].
  destruct (disconnect_seen x); [discriminate Hrun|].
  cbv zeta in Hrun.
  destruct (request_retry st && _); [discriminate Hrun|].
  destruct (event_before_sleep x); [discriminate Hrun|].
  destruct (negb _); [discriminate Hrun|].
  unfold contribution.
  destruct (malformed (response x)).
  { injection Hrun as <- _. cbn [spectrum pixels_read orb].
    split; [exact Hlen|]. split; [lia|]. exact Hkeep. }
  destruct (event_after_length_check x); [discriminate Hrun|].
  destruct (getitem (response x) 0) as [b0|] eqn:H0; [|discriminate Hrun].
  destruct (getitem (response x) 1) as [b1|] eqn:H1; [|discriminate Hrun].
  destruct (getitem_head_two _ _ _ H0 H1) as (rest & Hresp).
  assert (Hfp : first_pixel (response x)
                = 256 * byte_value b0 + byte_value b1).
  { rewrite Hresp. reflexivity. }
  rewrite word_of_bytes, <- Hfp in Hrun.
  pose proof (first_pixel_nonnegative (response x)) as Hnn.
  cbn [orb]. unfold max_first_pixel.
  destruct (Z.gtb_spec (first_pixel (response x)) 2048) as [Hgt|Hle].
  { cbn [orb] in Hrun. injection Hrun as <- _.
    destruct (Z.ltb_spec 2048 (first_pixel (response x))); [|lia].
    cbn [spectrum pixels_read].
    split; [exact Hlen|]. split; [lia|]. exact Hkeep. }
  destruct (Z.ltb_spec (first_pixel (response x)) 0); [lia|].
  cbn [orb] in Hrun.
  destruct (Z.ltb_spec 2048 (first_pixel (response x))); [lia|].
  destruct (store_pixels _ _ _ _ _ _) as [[[sp pr]|v|e|] tr'] eqn:Hstore;
    try discriminate Hrun.
  injection Hrun as <- _. cbn [spectrum pixels_read].
  unfold written at 1. cbn [spectrum pixels_read].
  exact (store_pixels_written _ _ _ _ _ _ _ _ _ Hlen Hpr Hstore).
Qed.

(** A run of the packet loop that falls through has read all the pixels:
    they are what the responses it consumed contributed, in order, cut at
    the pixel count. *)
Lemma packet_loop_written (it total : Z) (script : list exchange) :
  forall st st' tr,
    len (spectrum st) = total ->
    0 <= pixels_read st <= total ->
    packet_loop it total script st = (Next st', tr) ->
    len (spectrum st') = total
    /\ pixels_read st' = total
    /\ exists used rest,
         script = used ++ rest
         /\ written st'
            = firstn (Z.to_nat total)
                     (written st
                      ++ flat_map (fun x => contribution (response x)) used).
Proof.
  induction script as [|x script IH]; intros st st' tr Hlen Hpr Hrun;
    cbn [packet_loop] in Hrun.
  - destruct (Z.ltb_spec (pixels_read st) total); [discriminate Hrun|].
    injection Hrun as <- _.
    split; [exact Hlen|]. split; [lia|].
    exists [], []. split; [reflexivity|].
    cbn [flat_map]. symmetry. apply firstn_whole.
    rewrite (written_length total) by (try exact Hlen; lia). lia.
  - destruct (Z.ltb_spec (pixels_read st) total) as [Hlt|Hge].
    + destruct (loop_body it total x st) as [[st1|v|e|] tr1] eqn:Hbody;
        try discriminate Hrun.
      destruct (loop_body_written _ _ _ _ _ _ Hlen ltac:(lia) Hbody)
        as (Hlen1 & Hpr1 & Hw1).
      cbn [bind] in Hrun.
      destruct (packet_loop it total script st1) as [r2 tr2] eqn:Hrest.
      injection Hrun as -> _.
      destruct (IH st1 st' tr2 Hlen1 ltac:(lia) Hrest)
        as (Hlen' & Hpr' & used & rest & -> & Hw').
      split; [exact Hlen'|]. split; [exact Hpr'|].
      exists (x :: used), rest. split; [reflexivity|].
      rewrite Hw', Hw1, firstn_absorb. cbn [flat_map].
      rewrite app_assoc. reflexivity.
    + injection Hrun as <- _.
      split; [exact Hlen|]. split; [lia|].
      exists [], (x :: script). split; [reflexivity|].
      cbn [flat_map]. symmetry. apply firstn_whole.
      rewrite (written_length total) by (try exact Hlen; lia). lia.
Qed.

Lemma copy_from_fifth_length (indices : list Z) :
  forall sp sp',
    copy_from_fifth indices sp = Some sp' ->
    List.length sp' = List.length sp.
Proof.
  induction indices as [|i rest IH]; intros sp sp' H; cbn in H.
  - congruence.
  - destruct (getitem sp 4); [|discriminate H].
    destruct (setitem sp i z) as [sp1|] eqn:E; [|discriminate H].
    rewrite (IH _ _ H). exact (setitem_length _ _ _ _ E).
Qed.

Lemma fixup_length (total : Z) (sp sp' : list Z) :
  fixup total sp = Some sp' -> List.length sp' = List.length sp.
Proof.
  unfold fixup.
  destruct (copy_from_fifth (range 4) sp) as [sp1|] eqn:E; [|discriminate].
  destruct (getitem sp1 (total - 2)); [|discriminate].
  intros H. rewrite (setitem_length _ _ _ _ H).
  exact (copy_from_fifth_length _ _ _ E).
Qed.

(** Inside the loops every [return] is a bare one. *)
Lemma store_pixels_returns_none (total n : Z) (x : exchange)
    (indices : list Z) :
  forall sp pr v,
    fst (store_pixels total n x indices sp pr) = Return v -> v = RetNone.
Proof.
  induction indices as [|i rest IH]; intros sp pr v; [discriminate|].
  rewrite store_pixels_unfold.
  destruct (getitem _ _); [|discriminate].
  destruct (getitem _ _); [|discriminate].
  destruct (setitem _ _ _); [|discriminate].
  destruct (event_after_pixel _ _); [cbn [fst]; congruence|].
  destruct (pr + 1 =? total); [discriminate|apply IH].
Qed.

Lemma loop_body_returns_none (it total : Z) (x : exchange)
    (st : loop_state) (v : retval) :
  fst (loop_body it total x st) = Return v -> v = RetNone.
Proof.
  rewrite loop_body_unfold.
  destruct (event_at_top x); [cbn [fst]; congruence|].
  destruct (disconnect_seen x); [cbn [fst]; congruence|].
  cbv zeta.
  destruct (request_retry st && _); [cbn [fst]; congruence|].
  destruct (event_before_sleep x); [cbn [fst]; congruence|].
  destruct (negb _); [discriminate|].
  destruct (malformed _); [discriminate|].
  destruct (event_after_length_check x); [cbn [fst]; congruence|].
  destruct (getitem (response x) 0); [|discriminate].
  destruct (getitem (response x) 1); [|discriminate].
  destruct (_ || _); [discriminate|].
  pose proof (store_pixels_returns_none total (pixels_in (response x)) x
                (range (pixels_in (response x))) (spectrum st)
                (pixels_read st)) as Hs.
  destruct (store_pixels _ _ _ _ _ _) as [[[sp pr]|v'|e|] tr];
    cbn [fst] in *; try discriminate.
  intros H. injection H as <-. apply Hs. reflexivity.
Qed.

Lemma packet_loop_returns_none (it total : Z) (script : list exchange) :
  forall st v,
    fst (packet_loop it total script st) = Return v -> v = RetNone.
Proof.
  induction script as [|x rest IH]; intros st v; cbn [packet_loop].
  - destruct (pixels_read st <? total); discriminate.
  - destruct (pixels_read st <? total); [|discriminate].
    pose proof (loop_body_returns_none it total x st) as Hb.
    destruct (loop_body it total x st) as [[st1|v1|e|] tr1];
      cbn [bind fst] in *; try discriminate.
    + specialize (IH st1 v).
      destruct (packet_loop it total rest st1) as [r2 tr2].
      cbn [fst] in *. exact IH.
    + intros H. injection H as <-. apply Hb. reflexivity.
Qed.

(** The statements after [return True], seen from their result. *)
Lemma protocol_returns_reading (d : BLEDevice) (script : list exchange)
    (r : Reading.t) :
  fst (protocol d script) = Return (RetReading r) ->
  let total := active_pixels_horizontal (eeprom (settings d)) in
  exists st tr,
    packet_loop (integration_time_ms (state (settings d))) total script
                (mkLoop (map (fun _ => 0) (range total)) 0 0 false)
    = (Next st, tr)
    /\ fixup total (spectrum st) = Some (Reading.spectrum r).
Proof.
  cbv zeta. unfold protocol, emit, or_index_error, ret_now, next, raise.
  cbn [bind].
  pose proof (packet_loop_returns_none
                (integration_time_ms (state (settings d)))
                (active_pixels_horizontal (eeprom (settings d))) script
                (mkLoop (map (fun _ => 0)
                             (range (active_pixels_horizontal
                                       (eeprom (settings d)))))
                        0 0 false)) as Hnone.
  destruct (packet_loop _ _ _ _) as [[st|v|e|] tr]; cbn [bind fst] in *;
    try discriminate.
  2:{ intros H. injection H as ->. specialize (Hnone _ eq_refl).
      discriminate Hnone. }
  destruct (fixup _ (spectrum st)) as [completed|] eqn:Hfix;
    cbn [bind fst]; [|discriminate].
  intros H. injection H as <-. exists st, tr.
  split; [reflexivity|exact Hfix].
Qed.

(** The effects of the protocol statements: the trigger, then those of the
    packet loop; the fixup and the reading add none. *)
Lemma protocol_effects (d : BLEDevice) (script : list exchange) :
  snd (protocol d script)
  = WriteGattChar DEVICE_ACQUIRE_UUID []
    :: snd (packet_loop (integration_time_ms (state (settings d)))
                        (active_pixels_horizontal (eeprom (settings d)))
                        script
                        (mkLoop (map (fun _ => 0)
                                     (range (active_pixels_horizontal
                                               (eeprom (settings d)))))
                                0 0 false)).
Proof.
  unfold protocol, emit, or_index_error, ret_now, next, raise.
  cbn [bind].
  destruct (packet_loop _ _ _ _) as [[st|v|e|] tr]; cbn [bind snd app];
    try reflexivity.
  destruct (fixup _ (spectrum st)); cbn [bind snd app];
    rewrite ?app_nil_r; reflexivity.
Qed.

(** A turn that follows a rejected response counts it, and gives up
    without touching the transport once the count passes the limit. *)
Lemma loop_body_counts_failure (it total : Z) (x : exchange)
    (st : loop_state) :
  request_retry st = true ->
  (forall st' tr,
      loop_body it total x st = (Next st', tr) ->
      retry_count st' = retry_count st + 1
      /\ retry_count st' <= MAX_RETRIES)
  /\ (MAX_RETRIES < retry_count st + 1 ->
      fst (loop_body it total x st) = Return RetNone
      /\ forall e, In e (snd (loop_body it total x st)) ->
                   e = LogError (GivingUp MAX_RETRIES)).
Proof.
  intros Hretry. rewrite loop_body_unfold. unfold next_retry_count.
  rewrite Hretry. cbn [andb]. split.
  - intros st' tr.
    destruct (event_at_top x); [discriminate|].
    destruct (disconnect_seen x); [discriminate|].
    cbv zeta.
    destruct (Z.gtb_spec (retry_count st + 1) MAX_RETRIES) as [|Hle];
      [discriminate|].
    destruct (event_before_sleep x); [discriminate|].
    destruct (negb _); [discriminate|].
    destruct (malformed _).
    { intros H. injection H as <- _. cbn [retry_count]. lia. }
    destruct (event_after_length_check x); [discriminate|].
    destruct (getitem (response x) 0); [|discriminate].
    destruct (getitem (response x) 1); [|discriminate].
    destruct (_ || _).
    { intros H. injection H as <- _. cbn [retry_count]. lia. }
    destruct (store_pixels _ _ _ _ _ _) as [[[sp pr]|v|e|] tr'];
      try discriminate.
    intros H. injection H as <- _. cbn [retry_count]. lia.
  - intros Hover.
    destruct (event_at_top x); [split; [reflexivity|intros e []]|].
    destruct (disconnect_seen x); [split; [reflexivity|intros e []]|].
    cbv zeta.
    destruct (Z.gtb_spec (retry_count st + 1) MAX_RETRIES); [|lia].
    split; [reflexivity|].
    intros e [<-|[]]. reflexivity.
Qed.

(** C1. Of the acquisition protocol as written after [return True]:
    whatever the device answers, at most 4 packet requests are retries
    (requests issued while the latest response stands rejected). A turn of
    the loop that follows a rejected response adds one to the retry count;
    if it goes on, the count is at most 4, and once the count would exceed
    4 the turn returns [None] having done nothing but log that it gives
    up. A reading is returned only with a spectrum of exactly the
    configured number of pixels, and the spectrum assembled before the
    fixup consists, pixel by pixel, of what the consumed responses
    contributed: no pixel of it is left unwritten. *)
Theorem acquisition_retries_bounded_and_complete (d : BLEDevice)
    (script : list exchange) :
  let total := active_pixels_horizontal (eeprom (settings d)) in
  (retries_from false (snd (protocol d script)) <= 4)%nat
  /\ (forall it x st,
        request_retry st = true ->
        (forall st' tr,
            loop_body it total x st = (Next st', tr) ->
            retry_count st' = retry_count st + 1
            /\ retry_count st' <= MAX_RETRIES)
        /\ (MAX_RETRIES < retry_count st + 1 ->
            fst (loop_body it total x st) = Return RetNone
            /\ forall e, In e (snd (loop_body it total x st)) ->
                         e = LogError (GivingUp MAX_RETRIES)))
  /\ (forall r,
        fst (protocol d script) = Return (RetReading r) ->
        len (Reading.spectrum r) = total
        /\ exists used rest assembled,
             script = used ++ rest
             /\ assembled
                = firstn (Z.to_nat total)
                         (flat_map (fun x => contribution (response x)) used)
             /\ len assembled = total
             /\ fixup total assembled = Some (Reading.spectrum r)).
Proof.
  cbv zeta. split; [|split].
  - rewrite protocol_effects. cbn [retries_from is_failure is_request].
    pose proof (packet_loop_retries
                  (integration_time_ms (state (settings d)))
                  (active_pixels_horizontal (eeprom (settings d))) script
                  (mkLoop (map (fun _ => 0)
                               (range (active_pixels_horizontal
                                         (eeprom (settings d)))))
                          0 0 false)) as H.
    cbn [retry_count request_retry] in H. unfold MAX_RETRIES in H. lia.
  - intros it x st. apply loop_body_counts_failure.
  - intros r Hret.
    destruct (protocol_returns_reading d script r Hret)
      as (st & tr & Hloop & Hfix).
    set (total := active_pixels_horizontal (eeprom (settings d))) in *.
    destruct (Z.lt_ge_cases total 0) as [Hneg|Hpos].
    { exfalso. replace (range total) with (@nil Z) in Hloop
        by (unfold range; replace (Z.to_nat total) with 0%nat by lia;
            reflexivity).
      assert (Hst : st = mkLoop [] 0 0 false).
      { destruct script as [|x script]; cbn [packet_loop pixels_read map]
          in Hloop;
          (destruct (Z.ltb_spec 0 total); [lia|]);
          unfold next in Hloop; congruence. }
      rewrite Hst in Hfix. discriminate Hfix. }
    assert (Hblank : len (map (fun _ : Z => 0) (range total)) = total).
    { unfold len. rewrite length_map, range_length. lia. }
    assert (Hzero : 0 <= 0 <= total) by lia.
    destruct (packet_loop_written
                _ total script
                (mkLoop (map (fun _ => 0) (range total)) 0 0 false)
                st tr Hblank Hzero Hloop)
      as (Hlen & Hpr & used & rest & Hscript & Hw).
    assert (Hall : written st = spectrum st).
    { unfold written. rewrite Hpr. apply firstn_all2.
      unfold len in Hlen. lia. }
    split.
    + unfold len in *. rewrite (fixup_length _ _ _ Hfix). exact Hlen.
    + exists used, rest, (spectrum st).
      split; [exact Hscript|]. split; [|split; [exact Hlen|exact Hfix]].
      rewrite <- Hall, Hw. reflexivity.
Qed.

(** The reference unit on a device that first answers with an odd-length
    response, then a NACK, then its three pixels in two packets. *)
Example sample_acquisition :
  protocol (mkDevice false None false false 1
                     (set_eeprom (mkEEPROM 3 "WP-00001" "S11511" 10 5 None
                                           (PyInt 785) None)
                                 sample_settings))
           [undisturbed odd_response; undisturbed nack_response;
            undisturbed two_pixels; undisturbed three_pixels]
  = (Return (RetReading (Reading.make 10 0 0 false 1 1 [5; 5; 5; 5; 5])),
     [WriteGattChar DEVICE_ACQUIRE_UUID [];
      LogError (RetryRequested 0); Sleep 0;
      WriteGattChar SPECTRUM_PIXELS_UUID [0; 0];
      ReadGattChar READ_SPECTRUM_UUID odd_response;
      LogError (InvalidResponse 3);
      LogError (RetryRequested 60); Sleep 60;
      WriteGattChar SPECTRUM_PIXELS_UUID [0; 0];
      ReadGattChar READ_SPECTRUM_UUID nack_response;
      LogError (ReceivedNack 65535);
      LogError (RetryRequested 32); Sleep 32;
      WriteGattChar SPECTRUM_PIXELS_UUID [0; 0];
      ReadGattChar READ_SPECTRUM_UUID two_pixels;
      LogError (RetryRequested 32); Sleep 32;
      WriteGattChar SPECTRUM_PIXELS_UUID [0; 2];
      ReadGattChar READ_SPECTRUM_UUID three_pixels]).
Proof. vm_compute. reflexivity. Qed.

(* ===================================================================== *)
(** * Further properties *)
(* ===================================================================== *)

(** ** Setting writes *)

(** A 16-bit word from any high part and a low byte. *)
Lemma word_of_parts (hi lo : Z) :
  0 <= lo < 256 -> Z.lor (Z.shiftl hi 8) lo = 256 * hi + lo.
Proof.
  intros Hl.
  rewrite Z.shiftl_mul_pow2 by lia. change (2 ^ 8) with 256.
  assert (Hland : Z.land (hi * 256) lo = 0).
  { apply Z.bits_inj'. intros n Hn.
    rewrite Z.land_spec, Z.bits_0.
    destruct (Z.ltb_spec n 8).
    - replace (hi * 256) with (hi * 2 ^ 8) by lia.
      rewrite Z.mul_pow2_bits_low by lia. reflexivity.
    - replace (Z.testbit lo n) with false; [apply andb_false_r|].
      symmetry. apply Z.bits_above_log2; [lia|].
      destruct (Z.eq_dec lo 0) as [->|Hnz]; [cbn; lia|].
      apply Z.log2_lt_pow2; [lia|].
      apply Z.lt_le_trans with (m := 2 ^ 8);
        [change (2 ^ 8) with 256; lia|].
      apply Z.pow_le_mono_r; lia. }
  rewrite <- (Z.lxor_lor _ _ Hland), <- (Z.add_nocarry_lxor _ _ Hland).
  lia.
Qed.

Lemma to_bytes2_in_range (n : Z) :
  0 <= n < 65536 -> to_bytes2 n = (Next [n / 256; n mod 256], []).
Proof.
  intros H. unfold to_bytes2.
  destruct (Z.leb_spec 0 n); [|lia].
  destruct (Z.ltb_spec n 65536); [|lia]. reflexivity.
Qed.

Lemma to_bytes2_out_of_range (n : Z) :
  n < 0 \/ 65536 <= n -> to_bytes2 n = (Raise OverflowError, []).
Proof.
  intros H. unfold to_bytes2.
  destruct (Z.leb_spec 0 n); [|reflexivity].
  destruct (Z.ltb_spec n 65536); [lia|reflexivity].
Qed.

(** X1. [set_integration_time_ms] sends an integer of 0..65535 as its two
    bytes, high byte first, and sends nothing for any other value (a float
    included): the exception is logged instead. *)
Theorem set_integration_time_ms_big_endian (value : num) (write_ok : bool) :
  (forall v, value = PyInt v -> 0 <= v < 65536 ->
     exists hi lo,
       set_integration_time_ms value write_ok
       = GattWrite SET_INT_UUID [hi; lo]
         :: (if write_ok then [] else [SettingError])
       /\ 0 <= hi < 256 /\ 0 <= lo < 256 /\ 256 * hi + lo = v)
  /\ ((forall v, value = PyInt v -> v < 0 \/ 65536 <= v) ->
      set_integration_time_ms value write_ok = [SettingError]).
Proof.
  split.
  - intros v -> Hv. exists (v / 256), (v mod 256).
    unfold set_integration_time_ms, integration_time_bytes.
    rewrite to_bytes2_in_range by exact Hv.
    split; [reflexivity|].
    pose proof (Z.mod_pos_bound v 256 ltac:(lia)).
    pose proof (Z.div_mod v 256 ltac:(lia)).
    assert (0 <= v / 256 < 256).
    { split; [apply Z.div_pos; lia|apply Z.div_lt_upper_bound; lia]. }
    lia.
  - intros Hout. unfold set_integration_time_ms, integration_time_bytes.
    destruct value as [v|f]; [|reflexivity].
    rewrite to_bytes2_out_of_range by (apply Hout; reflexivity).
    reflexivity.
Qed.

Lemma land_255_range (x : Z) : 0 <= Z.land x 255 < 256.
Proof.
  change 255 with (Z.ones 8). rewrite Z.land_ones by lia.
  change (2 ^ 8) with 256. apply Z.mod_pos_bound. lia.
Qed.

(** X2. [set_gain] on an [int] within 0..255 sends that byte and a low
    byte of 0. On a float it sends [msb = int(value)] in the high byte and
    [lsb = int((value - int(value)) * 256) & 0xff], which is within 0..255,
    in the low byte, provided [msb] is within 0..255. For any other value
    (an integer part that is negative or 256 or more, a NaN, an infinity)
    nothing is sent and the exception is logged. *)
Theorem set_gain_split_value (value : num) (write_ok : bool) :
  (forall v, value = PyInt v ->
     (0 <= v < 256 ->
      set_gain value write_ok
      = GattWrite SET_GAIN_UUID [v; 0]
        :: (if write_ok then [] else [SettingError]))
     /\ (v < 0 \/ 256 <= v -> set_gain value write_ok = [SettingError]))
  /\ (forall f, value = PyFloat f ->
      (int_of_float f = None -> set_gain value write_ok = [SettingError])
      /\ forall msb, int_of_float f = Some msb ->
           let scaled :=
             int_of_float
               (PrimFloat.mul (PrimFloat.sub f (float_of_int msb))
                              256%float) in
           (scaled = None -> set_gain value write_ok = [SettingError])
           /\ forall k, scaled = Some k ->
                0 <= Z.land k 255 < 256
                /\ (0 <= msb < 256 ->
                    set_gain value write_ok
                    = GattWrite SET_GAIN_UUID [msb; Z.land k 255]
                      :: (if write_ok then [] else [SettingError]))
                /\ (msb < 0 \/ 256 <= msb ->
                    set_gain value write_ok = [SettingError])).
Proof.
  assert (Hsend : forall msb lsb,
            gain_parts value = Some (msb, lsb) -> 0 <= lsb < 256 ->
            (0 <= msb < 256 ->
             set_gain value write_ok
             = GattWrite SET_GAIN_UUID [msb; lsb]
               :: (if write_ok then [] else [SettingError]))
            /\ (msb < 0 \/ 256 <= msb ->
                set_gain value write_ok = [SettingError])).
  { intros msb lsb Hparts Hl.
    unfold set_gain, gain_bytes. rewrite Hparts, word_of_parts by exact Hl.
    split.
    - intros Hm. rewrite to_bytes2_in_range by lia.
      replace ((256 * msb + lsb) / 256) with msb
        by (apply Z.div_unique with (r := lsb); lia).
      replace ((256 * msb + lsb) mod 256) with lsb
        by (apply Z.mod_unique with (q := msb); lia).
      reflexivity.
    - intros Hm. rewrite to_bytes2_out_of_range by lia. reflexivity. }
  assert (H256 : float_of_int 256 = 256%float)
    by (vm_compute; reflexivity).
  split.
  - intros v ->.
    apply (Hsend v 0); [|lia].
    unfold gain_parts. replace ((v - v) * 256) with 0 by lia. reflexivity.
  - intros f ->. split.
    + intros Hnone. unfold set_gain, gain_bytes, gain_parts.
      rewrite Hnone. reflexivity.
    + intros msb Hmsb. cbv zeta. split.
      * intros Hnone. unfold set_gain, gain_bytes, gain_parts.
        rewrite Hmsb, H256, Hnone. reflexivity.
      * intros k Hk. split; [apply land_255_range|].
        apply (Hsend msb (Z.land k 255)); [|apply land_255_range].
        unfold gain_parts. rewrite Hmsb, H256, Hk. reflexivity.
Qed.

(** A gain of 8.5 goes out as the bytes 8 and 128. *)
Example set_gain_sample :
  set_gain (PyFloat 8.5%float) true = [GattWrite SET_GAIN_UUID [8; 128]]
  /\ set_gain (PyFloat 256%float) true = [SettingError]
  /\ set_gain (PyFloat (-1.5)%float) true = [SettingError]
  /\ set_gain (PyFloat nan) true = [SettingError].
Proof. vm_compute. repeat split. Qed.

(** ** Reading the EEPROM *)

Lemma read_subpages_spec (answer : Z -> Z -> list Byte.byte) (i : Z)
    (subpages : list Z) :
  0 <= i < 256 ->
  (forall j, In j subpages -> 0 <= j < 256) ->
  forall buf calls,
    read_subpages answer i subpages buf calls
    = Some (buf ++ flat_map (answer i) subpages,
            calls ++ flat_map
                       (fun j => [GattWrite SELECT_EEPROM_PAGE_UUID [i; j];
                                  GattRead READ_EEPROM_UUID (answer i j)])
                       subpages).
Proof.
  intros Hi. induction subpages as [|j rest IH]; intros Hall buf calls.
  - cbn [read_subpages flat_map]. rewrite !app_nil_r. reflexivity.
  - cbn [read_subpages flat_map]. unfold page_ids.
    pose proof (Hall j (or_introl eq_refl)) as Hj.
    destruct (Z.leb_spec 0 i); [|lia].
    destruct (Z.ltb_spec i 256); [|lia].
    destruct (Z.leb_spec 0 j); [|lia].
    destruct (Z.ltb_spec j 256); [|lia].
    cbn [andb]. rewrite IH by (intros k Hk; apply Hall; right; exact Hk).
    rewrite <- !app_assoc. reflexivity.
Qed.

Lemma read_pages_spec (answer : Z -> Z -> list Byte.byte)
    (subpage_count : Z) (page_numbers : list Z) :
  subpage_count <= 256 ->
  (forall i, In i page_numbers -> 0 <= i < 256) ->
  forall pages calls,
    read_pages answer subpage_count page_numbers pages calls
    = Some (pages
            ++ map (fun i => flat_map (answer i) (range subpage_count))
                   page_numbers,
            calls
            ++ flat_map
                 (fun i =>
                    flat_map
                      (fun j => [GattWrite SELECT_EEPROM_PAGE_UUID [i; j];
                                 GattRead READ_EEPROM_UUID (answer i j)])
                      (range subpage_count))
                 page_numbers).
Proof.
  intros Hs. induction page_numbers as [|i rest IH]; intros Hall pages calls.
  - cbn [read_pages map flat_map]. rewrite !app_nil_r. reflexivity.
  - cbn [read_pages map flat_map].
    rewrite read_subpages_spec.
    + rewrite IH by (intros k Hk; apply Hall; right; exact Hk).
      cbn [app]. rewrite <- !app_assoc. reflexivity.
    + apply Hall. left. reflexivity.
    + intros j Hj. apply range_In in Hj. lia.
Qed.

(** X3. [get_eeprom] returns one buffer per page, page [i] being the
    answers to its subpages 0, 1, ... joined in that order; on the way it selects
    and reads every subpage once, pages in ascending order and subpages in
    ascending order within a page, two calls per subpage. *)
Theorem get_eeprom_page_major (MAX_PAGES SUBPAGE_COUNT : Z)
    (answer : Z -> Z -> list Byte.byte) :
  MAX_PAGES <= 256 ->
  SUBPAGE_COUNT <= 256 ->
  exists pages calls,
    get_eeprom MAX_PAGES SUBPAGE_COUNT answer = Some (pages, calls)
    /\ pages = map (fun i => flat_map (answer i) (range SUBPAGE_COUNT))
                   (range MAX_PAGES)
    /\ calls = flat_map
                 (fun i =>
                    flat_map
                      (fun j => [GattWrite SELECT_EEPROM_PAGE_UUID [i; j];
                                 GattRead READ_EEPROM_UUID (answer i j)])
                      (range SUBPAGE_COUNT))
                 (range MAX_PAGES)
    /\ len pages = Z.max 0 MAX_PAGES
    /\ len calls = 2 * (Z.max 0 MAX_PAGES * Z.max 0 SUBPAGE_COUNT).
Proof.
  intros Hm Hs. eexists _, _.
  split.
  - unfold get_eeprom. rewrite read_pages_spec.
    + cbn [app]. reflexivity.
    + exact Hs.
    + intros i Hi. apply range_In in Hi. lia.
  - split; [reflexivity|]. split; [reflexivity|]. split.
    + unfold len. rewrite length_map, range_length. lia.
    + unfold len.
      assert (Hinner : forall i,
                List.length
                  (flat_map
                     (fun j => [GattWrite SELECT_EEPROM_PAGE_UUID [i; j];
                                GattRead READ_EEPROM_UUID (answer i j)])
                     (range SUBPAGE_COUNT))
                = (2 * Z.to_nat SUBPAGE_COUNT)%nat).
      { intros i. rewrite <- (range_length SUBPAGE_COUNT).
        induction (range SUBPAGE_COUNT) as [|j rest IH]; [reflexivity|].
        cbn [flat_map app List.length]. rewrite IH. lia. }
      assert (Houter : forall l : list Z,
                List.length
                  (flat_map
                     (fun i =>
                        flat_map
                          (fun j =>
                             [GattWrite SELECT_EEPROM_PAGE_UUID [i; j];
                              GattRead READ_EEPROM_UUID (answer i j)])
                          (range SUBPAGE_COUNT)) l)
                = (List.length l * (2 * Z.to_nat SUBPAGE_COUNT))%nat).
      { induction l as [|i rest IH]; [reflexivity|].
        cbn [flat_map List.length]. rewrite length_app, Hinner, IH. lia. }
      rewrite Houter, range_length. nia.
Qed.

(** Eight pages of four subpages: the usual EEPROM. *)
Lemma get_eeprom_page_major_witness :
  exists pages calls,
    get_eeprom 8 4 (fun i j => [Byte.x00]) = Some (pages, calls)
    /\ pages = map (fun i => flat_map ((fun i j => [Byte.x00]) i) (range 4))
                   (range 8)
    /\ calls = flat_map
                 (fun i =>
                    flat_map
                      (fun j => [GattWrite SELECT_EEPROM_PAGE_UUID [i; j];
                                 GattRead READ_EEPROM_UUID
                                          ((fun i j => [Byte.x00]) i j)])
                      (range 4))
                 (range 8)
    /\ len pages = Z.max 0 8
    /\ len calls = 2 * (Z.max 0 8 * Z.max 0 4).
Proof.
  apply (get_eeprom_page_major 8 4 (fun i j => [Byte.x00])); lia.
Defined.

(** ** Running [update_wavecal] again *)

Lemma resync_check_from_spec (count : nat) :
  forall z0 z,
    resync_check_from count z0 = true ->
    z0 <= z < z0 + Z.of_nat count ->
    resync_check (PrimFloat.of_uint63 (Uint63.of_Z z)) = true.
Proof.
  induction count as [|count IH]; intros z0 z Hall Hz; [lia|].
  cbn [resync_check_from] in Hall. apply andb_prop in Hall.
  destruct Hall as [Hhere Hrest].
  destruct (Z.eq_dec z z0) as [->|Hne]; [exact Hhere|].
  apply (IH (z0 + 1)); [exact Hrest|lia].
Qed.

Lemma resync_check_all : resync_check_from (Z.to_nat 65536) 0 = true.
Proof. vm_compute. reflexivity. Qed.

Lemma resync_check_holds (z : Z) :
  0 <= z < 65536 -> resync_check (float_of_int z) = true.
Proof.
  intros H. rewrite float_of_int_small by lia.
  apply (resync_check_from_spec (Z.to_nat 65536) 0 z resync_check_all).
  lia.
Qed.

(** Under an integer legacy value [excitation()] returns. *)
Lemma integer_legacy_excitation (s : SpectrometerSettings) :
  legacy_integer (eeprom s) -> exists x, excitation s = Arith.Ok x.
Proof.
  intros Hleg. destruct (integer_legacy_tests_agree s Hleg) as (x & Hx & _).
  exists x. exact Hx.
Qed.

(** Synchronising the legacy excitation a second time changes nothing:
    the excitation read back is still positive and rounds to the same
    value. *)
Lemma synchronised_again (s : SpectrometerSettings) (x : float) :
  legacy_integer (eeprom s) ->
  excitation s = Arith.Ok x ->
  PrimFloat.ltb 0%float x = true ->
  exists x',
    excitation (synchronised x s) = Arith.Ok x'
    /\ PrimFloat.ltb 0%float x' = true
    /\ round0 x' = round0 x.
Proof.
  intros (z & Hz & Hleg) Hx Hpos. unfold synchronised.
  rewrite <- (excitation_set_same s) in Hx.
  destruct (excitation_choice s) as [(new & Hnew & Hr & Hc)|Hc].
  - rewrite (Hc _ _ Hleg) in Hx. injection Hx as <-.
    exists new. split; [apply (Hc (PyFloat _) _ eq_refl)|].
    split; [exact Hpos|reflexivity].
  - rewrite Hc, Hleg in Hx. injection Hx as <-.
    exists (round0 (float_of_int z)). rewrite Hc.
    pose proof (resync_check_holds z Hz) as Hk. unfold resync_check in Hk.
    rewrite Hpos in Hk. apply andb_prop in Hk. destruct Hk as [H1 H2].
    apply FloatAxioms.Leibniz.eqb_spec in H2.
    split; [reflexivity|]. split; [exact H1|exact H2].
Qed.

(** The last two statements change nothing but the wavenumbers. *)
Lemma store_wavenumbers_cleared (wl : list num) (s : SpectrometerSettings) :
  wavenumbers s = None ->
  set_wavenumbers None (snd (store_wavenumbers wl s)) = s.
Proof.
  intros Hnone. unfold store_wavenumbers.
  assert (Hs : set_wavenumbers None s = s).
  { destruct s as [st e w n l]. cbn in Hnone. subst n. reflexivity. }
  destruct (excitation s); [|exact Hs].
  destruct (generate_wavenumbers _ _); [|exact Hs].
  destruct (first_and_last _); exact Hs.
Qed.

(** The tail of [update_wavecal], run again on its own result with the
    wavenumbers cleared, ends as it did. *)
Lemma update_wavenumbers_again (wl : list num) (s : SpectrometerSettings) :
  legacy_integer (eeprom s) ->
  wavenumbers s = None ->
  update_wavenumbers wl
    (set_wavenumbers None (snd (update_wavenumbers wl s)))
  = update_wavenumbers wl s.
Proof.
  intros Hleg Hnone.
  assert (Hs : set_wavenumbers None s = s).
  { destruct s as [st e w n l]. cbn in Hnone. subst n. reflexivity. }
  destruct (integer_legacy_excitation s Hleg) as [x Hx].
  unfold update_wavenumbers at 2 3. unfold has_excitation. rewrite Hx.
  cbn [Arith.and_then].
  destruct (PrimFloat.ltb 0%float x) eqn:Hpos.
  - destruct (synchronised_again s x Hleg Hx Hpos) as (x' & Hx' & Hpos' & Hr).
    set (d := synchronised x s) in *.
    assert (Hdnone : wavenumbers d = None) by exact Hnone.
    rewrite (store_wavenumbers_cleared wl d Hdnone).
    unfold update_wavenumbers, has_excitation. rewrite Hx'.
    cbn [Arith.and_then]. rewrite Hpos'.
    assert (Hsame : synchronised x' d = d).
    { subst d. unfold synchronised. rewrite Hr.
      destruct s as [st [] w n l]. reflexivity. }
    rewrite Hsame. reflexivity.
  - cbn [snd]. rewrite Hs. unfold update_wavenumbers, has_excitation.
    rewrite Hx. cbn [Arith.and_then]. rewrite Hpos. reflexivity.
Qed.

(** The wavelengths read the pixel count and the coefficients only. *)
Lemma wavelengths_from_eeprom_ext (s t : SpectrometerSettings) :
  pixels s = pixels t ->
  wavelength_coeffs (eeprom s) = wavelength_coeffs (eeprom t) ->
  wavelengths_from_eeprom s = wavelengths_from_eeprom t.
Proof.
  intros H1 H2. unfold wavelengths_from_eeprom. rewrite H1, H2.
  reflexivity.
Qed.

(** X4. An unlocked [update_wavecal], run again without argument on the
    settings it left, ends the same way and leaves the same settings. *)
Theorem update_wavecal_idempotent (coeffs : option (list num))
    (s : SpectrometerSettings) :
  lock_wavecal s = false ->
  legacy_integer (eeprom s) ->
  update_wavecal None (snd (update_wavecal coeffs s))
  = update_wavecal coeffs s.
Proof.
  intros Hlock Hleg.
  rewrite (update_wavecal_stages coeffs s Hlock).
  destruct (pixels s <? 1) eqn:Hpix.
  { cbn [snd]. rewrite update_wavecal_stages by exact Hlock.
    change (pixels (cleared s)) with (pixels s). rewrite Hpix.
    reflexivity. }
  cbv zeta.
  set (t := with_coefficients coeffs (cleared s)).
  assert (Ht : lock_wavecal t = false /\ pixels t = pixels s
               /\ cleared t = t /\ wavenumbers t = None
               /\ excitation_nm (eeprom t) = excitation_nm (eeprom s)).
  { subst t. destruct coeffs; repeat split; assumption. }
  destruct Ht as (Htlock & Htpix & Htclear & Htwn & Htleg).
  assert (Hleg' : legacy_integer (eeprom t)).
  { unfold legacy_integer. rewrite Htleg. exact Hleg. }
  destruct (if truthy (wavelength_coeffs (eeprom t))
            then wavelengths_from_eeprom t
            else Arith.Ok (map PyInt (range (pixels s)))) as [wl|e] eqn:Hwl.
  2:{ cbn [snd]. rewrite update_wavecal_stages by exact Htlock.
      rewrite Htpix, Hpix. cbv zeta. unfold with_coefficients.
      rewrite Htclear, Hwl. reflexivity. }
  set (u := set_wavelengths (Some wl) t).
  assert (Hu : lock_wavecal u = false /\ pixels u = pixels s
               /\ cleared u = t /\ wavenumbers u = None
               /\ eeprom u = eeprom t).
  { subst u. repeat split; assumption. }
  destruct Hu as (Hulock & Hupix & Huclear & Huwn & Hueeprom).
  destruct (first_and_last wl) eqn:Hfl.
  2:{ cbn [snd]. rewrite update_wavecal_stages by exact Hulock.
      rewrite Hupix, Hpix. cbv zeta. unfold with_coefficients.
      rewrite Huclear, Hwl, Hfl. reflexivity. }
  assert (Hleg'' : legacy_integer (eeprom u)).
  { rewrite Hueeprom. exact Hleg'. }
  destruct (update_wavenumbers_frame wl u)
    as (Hflock & Hfpix & Hfco & Hfwl & Hfst).
  set (v := snd (update_wavenumbers wl u)) in *.
  rewrite update_wavecal_stages by (rewrite Hflock; exact Hulock).
  rewrite Hfpix, Hupix, Hpix. cbv zeta. unfold with_coefficients.
  assert (Hcoeffs : wavelength_coeffs (eeprom (cleared v))
                    = wavelength_coeffs (eeprom t)).
  { change (eeprom (cleared v)) with (eeprom v).
    rewrite Hfco, Hueeprom. reflexivity. }
  rewrite Hcoeffs.
  rewrite (wavelengths_from_eeprom_ext (cleared v) t)
    by (try exact Hcoeffs;
        change (pixels (cleared v)) with (pixels v); congruence).
  rewrite Hwl, Hfl.
  replace (set_wavelengths (Some wl) (cleared v))
    with (set_wavenumbers None v).
  - subst v. apply update_wavenumbers_again; assumption.
  - assert (Hvw : wavelengths v = Some wl) by (rewrite Hfwl; reflexivity).
    destruct v as [vs ve vw vn vl]. cbn in Hvw. subst vw. reflexivity.
Qed.

(** The reference unit, calibrated twice. *)
Lemma update_wavecal_idempotent_witness :
  update_wavecal None (snd (update_wavecal None sample_settings))
  = update_wavecal None sample_settings.
Proof.
  apply (update_wavecal_idempotent None sample_settings).
  - reflexivity.
  - exists 785. split; [lia|reflexivity].
Defined.

(** ** The feet of a peak *)

Section PeakFeetFacts.

Context {A : Type} (gt : A -> A -> bool) (s : list A).

(** Entry [i] is not greater than entry [j]. *)
Let not_above (i j : Z) : Prop :=
  forall a b, getitem s i = Some a -> getitem s j = Some b -> gt a b = false.

Lemma left_foot_spec (k : nat) :
  forall cur,
    Z.of_nat k <= cur < len s ->
    exists l,
      left_foot gt s (countdown k) cur = Some l
      /\ (l = cur
          \/ (1 <= l < Z.of_nat k
              /\ not_above (Z.of_nat k - 1) cur
              /\ forall i, l <= i < Z.of_nat k - 1 -> not_above i (i + 1))).
Proof.
  induction k as [|k IH]; intros cur Hcur.
  - exists cur. split; [reflexivity|left; reflexivity].
  - cbn [countdown left_foot].
    destruct (Z.eqb_spec (Z.of_nat k) 0) as [Hz|Hnz].
    { exists cur. split; [reflexivity|left; reflexivity]. }
    rewrite (getitem_in_range s (Z.of_nat k)) by lia.
    rewrite (getitem_in_range s cur) by lia.
    destruct (nth_error s (Z.to_nat (Z.of_nat k))) as [here|] eqn:Hhere.
    2:{ apply nth_error_None in Hhere. unfold len in Hcur. lia. }
    destruct (nth_error s (Z.to_nat cur)) as [best|] eqn:Hbest.
    2:{ apply nth_error_None in Hbest. unfold len in Hcur. lia. }
    destruct (gt here best) eqn:Hgt.
    { exists cur. split; [reflexivity|left; reflexivity]. }
    destruct (IH (Z.of_nat k) ltac:(lia)) as (l & Hl & Hcase).
    exists l. split; [exact Hl|]. right.
    assert (Hfirst : not_above (Z.of_nat (S k) - 1) cur).
    { intros a b Ha Hb.
      replace (Z.of_nat (S k) - 1) with (Z.of_nat k) in Ha by lia.
      rewrite getitem_in_range in Ha, Hb by lia. congruence. }
    destruct Hcase as [->|(Hrange & Hstep & Hchain)].
    + split; [lia|]. split; [exact Hfirst|]. intros i Hi. lia.
    + split; [lia|]. split; [exact Hfirst|].
      intros i Hi.
      destruct (Z.eq_dec i (Z.of_nat k - 1)) as [->|Hne].
      * replace (Z.of_nat k - 1 + 1) with (Z.of_nat k) by lia.
        exact Hstep.
      * apply Hchain. lia.
Qed.

Lemma right_foot_spec (count : nat) :
  forall start cur,
    start + Z.of_nat count = len s ->
    0 <= cur < start ->
    exists r,
      right_foot gt s (len s) (countup start count) cur = Some r
      /\ (r = cur
          \/ (start <= r < len s - 1
              /\ not_above start cur
              /\ forall i, start < i <= r -> not_above i (i - 1))).
Proof.
  induction count as [|count IH]; intros start cur Hend Hcur.
  - exists cur. split; [reflexivity|left; reflexivity].
  - cbn [countup right_foot].
    destruct (Z.eqb_spec (start + 1) (len s)) as [Hlast|Hmore].
    { exists cur. split; [reflexivity|left; reflexivity]. }
    rewrite (getitem_in_range s start) by lia.
    rewrite (getitem_in_range s cur) by lia.
    destruct (nth_error s (Z.to_nat start)) as [here|] eqn:Hhere.
    2:{ apply nth_error_None in Hhere. unfold len in *. lia. }
    destruct (nth_error s (Z.to_nat cur)) as [best|] eqn:Hbest.
    2:{ apply nth_error_None in Hbest. unfold len in *. lia. }
    destruct (gt here best) eqn:Hgt.
    { exists cur. split; [reflexivity|left; reflexivity]. }
    destruct (IH (start + 1) start ltac:(lia) ltac:(lia))
      as (r & Hr & Hcase).
    exists r. split; [exact Hr|]. right.
    assert (Hfirst : not_above start cur).
    { intros a b Ha Hb.
      rewrite getitem_in_range in Ha, Hb by lia. congruence. }
    destruct Hcase as [->|(Hrange & Hstep & Hchain)].
    + split; [lia|]. split; [exact Hfirst|]. intros i Hi. lia.
    + split; [lia|]. split; [exact Hfirst|].
      intros i Hi.
      destruct (Z.eq_dec i (start + 1)) as [->|Hne].
      * replace (start + 1 - 1) with start by lia. exact Hstep.
      * apply Hchain. lia.
Qed.

(** X5. For a peak index inside the spectrum, [find_peak_feet_indices]
    (default boxcar) raises nothing and returns feet that bracket the peak:
    the left foot is the peak index or lies between 1 and the peak, the
    right foot is the peak index or lies between the peak and the last
    index but one; neither foot is ever the first or the last pixel unless
    the peak is. From the left foot up to the peak no entry is greater than
    its right neighbour, and from the peak to the right foot no entry is
    greater than its left neighbour. *)
Theorem find_peak_feet_indices_bracket (x_index : Z) :
  0 <= x_index < len s ->
  exists l r,
    find_peak_feet_indices gt s x_index = Some (l, r)
    /\ (l = x_index \/ 1 <= l < x_index)
    /\ (r = x_index \/ x_index < r < len s - 1)
    /\ (forall i, l <= i < x_index -> not_above i (i + 1))
    /\ (forall i, x_index < i <= r -> not_above i (i - 1)).
Proof.
  intros Hx. unfold find_peak_feet_indices, peak_feet.
  replace (Z.to_nat (x_index - (0 + 1) + 1)) with (Z.to_nat x_index)
    by lia.
  destruct (left_foot_spec (Z.to_nat x_index) x_index ltac:(lia))
    as (l & -> & Hl).
  destruct (right_foot_spec
              (Z.to_nat (len s - (x_index + (0 + 1))))
              (x_index + (0 + 1)) x_index ltac:(lia) ltac:(lia))
    as (r & -> & Hr).
  exists l, r. split; [reflexivity|].
  rewrite Z2Nat.id in Hl by lia.
  replace (x_index + (0 + 1)) with (x_index + 1) in Hr by lia.
  split; [|split; [|split]].
  - destruct Hl as [->|(H & _)]; [left; reflexivity|right; lia].
  - destruct Hr as [->|(H & _)]; [left; reflexivity|right; lia].
  - intros i Hi. destruct Hl as [->|(Hrange & Hstep & Hchain)]; [lia|].
    destruct (Z.eq_dec i (x_index - 1)) as [->|Hne].
    + replace (x_index - 1 + 1) with x_index by lia. exact Hstep.
    + apply Hchain. lia.
  - intros i Hi. destruct Hr as [->|(Hrange & Hstep & Hchain)]; [lia|].
    destruct (Z.eq_dec i (x_index + 1)) as [->|Hne].
    + replace (x_index + 1 - 1) with x_index by lia. exact Hstep.
    + apply Hchain. lia.
Qed.

End PeakFeetFacts.

(** A peak at index 4 of nine integer pixels: feet at 1 and 7. *)
Lemma find_peak_feet_indices_bracket_witness :
  exists l r,
    find_peak_feet_indices Z.gtb [5; 1; 2; 3; 9; 4; 4; 2; 7] 4 = Some (l, r)
    /\ (l = 4 \/ 1 <= l < 4)
    /\ (r = 4 \/ 4 < r < len [5; 1; 2; 3; 9; 4; 4; 2; 7] - 1)
    /\ (forall i, l <= i < 4 ->
        forall a b,
          getitem [5; 1; 2; 3; 9; 4; 4; 2; 7] i = Some a ->
          getitem [5; 1; 2; 3; 9; 4; 4; 2; 7] (i + 1) = Some b ->
          Z.gtb a b = false)
    /\ (forall i, 4 < i <= r ->
        forall a b,
          getitem [5; 1; 2; 3; 9; 4; 4; 2; 7] i = Some a ->
          getitem [5; 1; 2; 3; 9; 4; 4; 2; 7] (i - 1) = Some b ->
          Z.gtb a b = false).
Proof.
  apply (find_peak_feet_indices_bracket Z.gtb [5; 1; 2; 3; 9; 4; 4; 2; 7] 4).
  unfold len. cbn [List.length]. lia.
Defined.

(** ** Edge behaviour of the packet loop *)

(** One turn on a response of exactly two bytes with an accepted first
    pixel: a request goes out, nothing is stored, nothing is counted. *)
Lemma loop_body_header_only (it total : Z) (b0 b1 : Byte.byte)
    (st : loop_state) :
  request_retry st = false ->
  0 <= pixels_read st < 65536 ->
  256 * byte_value b0 + byte_value b1 <= 2048 ->
  loop_body it total (undisturbed [b0; b1]) st
  = (Next st,
     [LogError (RetryRequested (backoff it (retry_count st)));
      Sleep (backoff it (retry_count st));
      WriteGattChar SPECTRUM_PIXELS_UUID
                    [pixels_read st / 256; pixels_read st mod 256];
      ReadGattChar READ_SPECTRUM_UUID [b0; b1]]).
Proof.
  intros Hretry Hoffset Hfp. rewrite loop_body_unfold.
  unfold undisturbed.
  cbn [event_at_top disconnect_seen event_before_sleep response
       event_after_length_check].
  unfold next_retry_count. rewrite Hretry. cbn [andb]. cbv zeta.
  destruct (Z.leb_spec 0 (pixels_read st)); [|lia].
  destruct (Z.ltb_spec (pixels_read st) 65536); [|lia].
  cbn [andb negb].
  change (malformed [b0; b1]) with false. cbv iota.
  change (getitem [b0; b1] 0) with (Some b0).
  change (getitem [b0; b1] 1) with (Some b1).
  cbv iota beta. rewrite word_of_bytes.
  pose proof (byte_value_range b0). pose proof (byte_value_range b1).
  destruct (Z.gtb_spec (256 * byte_value b0 + byte_value b1) 2048); [lia|].
  destruct (Z.ltb_spec (256 * byte_value b0 + byte_value b1) 0); [lia|].
  cbn [orb].
  change (pixels_in [b0; b1]) with 0.
  change (range 0) with (@nil Z). cbn [store_pixels next].
  rewrite app_nil_r. destruct st as [sp pr rc rr].
  cbn in Hretry. subst rr. reflexivity.
Qed.

(** X6. A device that keeps answering with a bare header (two bytes, first
    pixel accepted) holds the packet loop for as long as it answers: [n]
    such answers make [n] packet requests, none of them a retry, and the
    loop is still waiting. The length check admits a response without any
    pixel, and such a response neither advances the pixel count nor counts
    as a failure. *)
Theorem header_only_answers_never_end (it total : Z) (b0 b1 : Byte.byte)
    (st : loop_state) (n : nat) :
  request_retry st = false ->
  0 <= pixels_read st < 65536 ->
  pixels_read st < total ->
  256 * byte_value b0 + byte_value b1 <= 2048 ->
  let run := packet_loop it total (repeat (undisturbed [b0; b1]) n) st in
  fst run = Starved
  /\ List.length (filter is_request (snd run)) = n
  /\ retries_from false (snd run) = 0%nat.
Proof.
  intros Hretry Hoffset Hmore Hfp. cbv zeta.
  induction n as [|n IH]; cbn [repeat packet_loop].
  - destruct (Z.ltb_spec (pixels_read st) total); [|lia].
    repeat split.
  - destruct (Z.ltb_spec (pixels_read st) total); [|lia].
    rewrite loop_body_header_only by assumption.
    cbn [bind].
    destruct (packet_loop it total (repeat (undisturbed [b0; b1]) n) st)
      as [r tr].
    cbn [fst snd] in *. destruct IH as (Hr & Hn & Hz).
    split; [exact Hr|]. split.
    + cbn [app filter is_request List.length]. rewrite Hn. reflexivity.
    + cbn [app retries_from is_failure is_request]. exact Hz.
Qed.

(** Three bare headers, three requests, no pixel. *)
Lemma header_only_answers_never_end_witness :
  let run :=
    packet_loop 10 3 (repeat (undisturbed [Byte.x00; Byte.x00]) 3)
                (mkLoop [0; 0; 0] 0 0 false) in
  fst run = Starved
  /\ List.length (filter is_request (snd run)) = 3%nat
  /\ retries_from false (snd run) = 0%nat.
Proof.
  apply (header_only_answers_never_end 10 3 Byte.x00 Byte.x00
                                       (mkLoop [0; 0; 0] 0 0 false) 3).
  - reflexivity.
  - cbn. lia.
  - cbn. lia.
  - cbn. lia.
Defined.

(** X7. Once a turn of the packet loop finds the disconnect event set, or
    the disconnect flag raised, at its top, nothing that would have come
    after has any influence: the result and the effects of the run are the
    same whatever the rest of the script is. *)
Theorem disconnect_cuts_the_run (it total : Z) (used : list exchange)
    (x : exchange) (rest rest' : list exchange) :
  event_at_top x = true \/ disconnect_seen x = true ->
  forall st,
    packet_loop it total (used ++ x :: rest) st
    = packet_loop it total (used ++ x :: rest') st.
Proof.
  intros Hstop.
  assert (Hbody : forall st,
            loop_body it total x st = (Return RetNone, [])).
  { intros st. rewrite loop_body_unfold.
    destruct Hstop as [-> | ->]; [reflexivity|].
    destruct (event_at_top x); reflexivity. }
  induction used as [|y used IH]; intros st; cbn [app packet_loop].
  - destruct (pixels_read st <? total); [|reflexivity].
    rewrite Hbody. reflexivity.
  - destruct (pixels_read st <? total); [|reflexivity].
    destruct (loop_body it total y st) as [[st1|v|e|] tr];
      cbn [bind]; try reflexivity.
    rewrite IH. reflexivity.
Qed.

(** A cancelled turn after one packet: what follows does not matter. *)
Lemma disconnect_cuts_the_run_witness :
  packet_loop 10 3
              ([undisturbed two_pixels] ++ cancelled
               :: [undisturbed three_pixels])
              (mkLoop [0; 0; 0] 0 0 false)
  = packet_loop 10 3 ([undisturbed two_pixels] ++ cancelled :: [])
                (mkLoop [0; 0; 0] 0 0 false).
Proof.
  apply (disconnect_cuts_the_run 10 3 [undisturbed two_pixels] cancelled
                                 [undisturbed three_pixels] []).
  left. reflexivity.
Defined.

(** X8. After [close()] an [acquire_data()] does not run the coroutine:
    it makes no call, leaves the device as it is, and returns [None]
    (or [True] if the in-flight flag were set); and closing twice is
    closing once. *)
Theorem acquire_data_after_close (d : BLEDevice) (script : list exchange) :
  acquire_data (close d) script
  = (Returned (if performing_acquire d then RetTrue else RetNone),
     close d, [])
  /\ close (close d) = close d
  /\ disconnect_event (close d) = true.
Proof.
  unfold acquire_data. cbn [close performing_acquire disconnect].
  destruct (performing_acquire d); repeat split.
Qed.

(** ** Updating an object from a dictionary *)

Section UpdateObjFacts.

Context {V : Type}.
Implicit Types (obj src : list (string * V)) (k : string).

Lemma lookup_some_key obj k v :
  lookup k obj = Some v -> In k (map fst obj).
Proof.
  induction obj as [|[k' v'] rest IH]; cbn [lookup map fst]; [discriminate|].
  destruct (String.eqb_spec k' k) as [->|Hne].
  - intros _. left. reflexivity.
  - intros H. right. apply IH, H.
Qed.

Lemma lookup_none_key obj k :
  lookup k obj = None -> ~ In k (map fst obj).
Proof.
  induction obj as [|[k' v'] rest IH]; cbn [lookup map fst]; [tauto|].
  destruct (String.eqb_spec k' k) as [->|Hne]; [discriminate|].
  intros H [Heq|Hin]; [contradiction|]. exact (IH H Hin).
Qed.

Lemma setattr_keys obj k v :
  In k (map fst obj) -> map fst (setattr obj k v) = map fst obj.
Proof.
  induction obj as [|[k' v'] rest IH]; cbn [setattr map fst In]; [tauto|].
  destruct (String.eqb_spec k' k) as [->|Hne]; [reflexivity|].
  intros [Heq|Hin]; [contradiction|].
  cbn [map fst]. rewrite IH by exact Hin. reflexivity.
Qed.

Lemma lookup_setattr_same obj k v : lookup k (setattr obj k v) = Some v.
Proof.
  induction obj as [|[k' v'] rest IH]; cbn [setattr lookup].
  - rewrite String.eqb_refl. reflexivity.
  - destruct (String.eqb_spec k' k) as [->|Hne]; cbn [lookup].
    + rewrite String.eqb_refl. reflexivity.
    + destruct (String.eqb_spec k' k); [contradiction|]. exact IH.
Qed.

Lemma lookup_setattr_other obj k k' v :
  k <> k' -> lookup k' (setattr obj k v) = lookup k' obj.
Proof.
  intros Hne.
  induction obj as [|[k0 v0] rest IH]; cbn [setattr lookup].
  - destruct (String.eqb_spec k k'); [contradiction|]. reflexivity.
  - destruct (String.eqb_spec k0 k) as [->|Hne0]; cbn [lookup].
    + destruct (String.eqb_spec k k'); [contradiction|]. reflexivity.
    + rewrite IH. reflexivity.
Qed.

Lemma insert_sorted_In k k' (keys : list string) :
  In k' (insert_sorted k keys) <-> k' = k \/ In k' keys.
Proof.
  induction keys as [|k0 rest IH]; cbn [insert_sorted In].
  - intuition congruence.
  - destruct (String.leb k k0); cbn [In]; [intuition congruence|].
    rewrite IH. intuition congruence.
Qed.

Lemma sorted_In k (keys : list string) : In k (sorted keys) <-> In k keys.
Proof.
  induction keys as [|k0 rest IH]; cbn [sorted In]; [tauto|].
  rewrite insert_sorted_In, IH. intuition congruence.
Qed.

(** The loop of [update_obj_from_dict] over any list of the object's
    attribute names. *)
Lemma update_loop_spec src (keys : list string) :
  forall obj,
    (forall k, In k keys -> In k (map fst obj)) ->
    let result :=
      fold_left
        (fun obj k =>
           match lookup k src with
           | Some v => setattr obj k v
           | None => obj
           end)
        keys obj in
    map fst result = map fst obj
    /\ forall k,
         lookup k result
         = if existsb (String.eqb k) keys
           then match lookup k src with
                | Some v => Some v
                | None => lookup k obj
                end
           else lookup k obj.
Proof.
  induction keys as [|k0 rest IH]; intros obj Hkeys; cbv zeta.
  - split; reflexivity.
  - cbn [fold_left existsb].
    set (obj1 := match lookup k0 src with
                 | Some v => setattr obj k0 v
                 | None => obj
                 end).
    assert (Hk0 : In k0 (map fst obj)) by (apply Hkeys; left; reflexivity).
    assert (Hsame : map fst obj1 = map fst obj).
    { subst obj1. destruct (lookup k0 src); [|reflexivity].
      apply setattr_keys, Hk0. }
    destruct (IH obj1) as [Hmap Hlook].
    { intros k Hk. rewrite Hsame. apply Hkeys. right. exact Hk. }
    split; [rewrite Hmap; exact Hsame|].
    intros k. rewrite Hlook.
    destruct (String.eqb_spec k k0) as [->|Hne]; cbn [orb].
    + subst obj1. destruct (lookup k0 src) as [v|] eqn:Hsrc.
      * rewrite lookup_setattr_same.
        destruct (existsb _ rest); reflexivity.
      * destruct (existsb _ rest); reflexivity.
    + subst obj1. destruct (lookup k0 src) as [v|].
      * rewrite lookup_setattr_other by congruence. reflexivity.
      * reflexivity.
Qed.

(** X9. [update_obj_from_dict] keeps the object's attributes and their
    order; an attribute that is a key of the dictionary takes the
    dictionary's value, every other attribute keeps its own; and a key of
    the dictionary that is no attribute of the object is ignored: it does
    not become one. *)
Theorem update_obj_from_dict_merges (dest_obj src_dict : list (string * V)) :
  let result := update_obj_from_dict dest_obj src_dict in
  map fst result = map fst dest_obj
  /\ (forall k old,
        lookup k dest_obj = Some old ->
        lookup k result
        = match lookup k src_dict with
          | Some v => Some v
          | None => Some old
          end)
  /\ (forall k, lookup k dest_obj = None -> lookup k result = None).
Proof.
  cbv zeta. unfold update_obj_from_dict.
  destruct (update_loop_spec src_dict (sorted (map fst dest_obj)) dest_obj)
    as [Hmap Hlook].
  { intros k Hk. apply sorted_In, Hk. }
  split; [exact Hmap|]. split.
  - intros k old Hold. rewrite Hlook.
    assert (Hin : existsb (String.eqb k) (sorted (map fst dest_obj)) = true).
    { apply existsb_exists. exists k. split; [|apply String.eqb_refl].
      apply sorted_In. exact (lookup_some_key _ _ _ Hold). }
    rewrite Hin, Hold. reflexivity.
  - intros k Hnone. rewrite Hlook.
    assert (Hout : existsb (String.eqb k) (sorted (map fst dest_obj))
                   = false).
    { destruct (existsb _ _) eqn:E; [|reflexivity].
      apply existsb_exists in E. destruct E as (k' & Hin & Heq).
      apply String.eqb_eq in Heq. subst k'.
      apply (proj1 (sorted_In _ _)) in Hin.
      exfalso. exact (lookup_none_key _ _ Hnone Hin). }
    rewrite Hout. exact Hnone.
Qed.

End UpdateObjFacts.

(** An EEPROM-like object merged with a dictionary that has one of its
    keys and one foreign key. *)
Example update_obj_from_dict_sample :
  update_obj_from_dict
    [("serial_number"%string, 1); ("excitation_nm"%string, 785)]
    [("excitation_nm"%string, 830); ("unknown"%string, 7)]
  = [("serial_number"%string, 1); ("excitation_nm"%string, 830)].
Proof. reflexivity. Qed.

(** ** The maximum within a window *)

Section LocalMaximaFacts.

Context {X Y : Type} (le : X -> X -> bool) (lt : Y -> Y -> bool)
        (lower upper : X) (a : list Y) (x_axis : list X).

Let window := Maxima.in_window le lower upper.
Let pick := Maxima.picked le lower upper a x_axis.

(** The first loop collects the points of the window, in order. *)
Lemma gather_spec (todo : list Z) :
  forall s,
    len x_axis <= len a ->
    (forall i, In i todo -> 0 <= i < len x_axis) ->
    Maxima.gather le lower upper a x_axis todo s
    = Some (Maxima.mkSubset
              (Maxima.x s ++ Maxima.x (Maxima.columns (pick todo)))
              (Maxima.y s ++ Maxima.y (Maxima.columns (pick todo)))
              (Maxima.indices s
               ++ Maxima.indices (Maxima.columns (pick todo)))).
Proof.
  induction todo as [|i rest IH]; intros s Hlen Hin.
  - cbn. rewrite !app_nil_r. destruct s; reflexivity.
  - cbn [Maxima.gather]. unfold pick. cbn [Maxima.picked].
    assert (Hi : 0 <= i < len x_axis) by (apply Hin; left; reflexivity).
    assert (Hrest : forall j, In j rest -> 0 <= j < len x_axis)
      by (intros j Hj; apply Hin; right; exact Hj).
    rewrite (getitem_in_range x_axis i) by lia.
    rewrite (getitem_in_range a i) by lia.
    destruct (nth_error x_axis (Z.to_nat i)) as [x_value|] eqn:Hx.
    2:{ apply nth_error_None in Hx. unfold len in Hi. lia. }
    destruct (nth_error a (Z.to_nat i)) as [value|] eqn:Ha.
    2:{ apply nth_error_None in Ha. unfold len in Hi, Hlen. lia. }
    destruct (Maxima.in_window le lower upper x_value) eqn:Hw.
    + rewrite (IH _ Hlen Hrest). cbn [Maxima.x Maxima.y Maxima.indices
        Maxima.columns map fst snd].
      rewrite <- !app_assoc. reflexivity.
    + apply (IH _ Hlen Hrest).
Qed.

(** A collected point is a point of the window. *)
Lemma picked_sound (todo : list Z) (p : Maxima.point X Y) :
  In p (pick todo) ->
  In (fst (fst p)) todo
  /\ getitem x_axis (fst (fst p)) = Some (snd (fst p))
  /\ window (snd (fst p)) = true
  /\ getitem a (fst (fst p)) = Some (snd p).
Proof.
  induction todo as [|i rest IH]; [intros []|].
  unfold pick. cbn [Maxima.picked].
  destruct (getitem x_axis i) as [x_value|] eqn:Hx;
    [destruct (getitem a i) as [value|] eqn:Ha;
     [destruct (Maxima.in_window le lower upper x_value) eqn:Hw|]|];
    intros Hin.
  1:{ destruct Hin as [<-|Hin].
      - cbn [fst snd]. repeat split; try assumption. left; reflexivity.
      - destruct (IH Hin) as (H1 & H2). split; [right; exact H1|exact H2]. }
  all: destruct (IH Hin) as (H1 & H2); split; [right; exact H1|exact H2].
Qed.

(** Every point of the window among the indices is collected. *)
Lemma picked_complete (todo : list Z) (i : Z) (x_value : X) (value : Y) :
  In i todo ->
  getitem x_axis i = Some x_value -> window x_value = true ->
  getitem a i = Some value ->
  In (i, x_value, value) (pick todo).
Proof.
  intros Hin Hx Hw Ha.
  induction todo as [|j rest IH]; [destruct Hin|].
  unfold pick. cbn [Maxima.picked].
  destruct Hin as [->|Hin].
  - rewrite Hx, Ha. fold window. rewrite Hw. left; reflexivity.
  - specialize (IH Hin).
    destruct (getitem x_axis j) as [xj|]; [|exact IH].
    destruct (getitem a j) as [vj|]; [|exact IH].
    destruct (Maxima.in_window le lower upper xj); [right|]; exact IH.
Qed.

(** The indices of the points collected from an ascending run are
    ascending: each later one is above the first. *)
Lemma picked_ascending (count : nat) :
  forall start p rest,
    pick (map Z.of_nat (seq start count)) = p :: rest ->
    forall q, In q rest -> fst (fst p) < fst (fst q).
Proof.
  induction count as [|count IH]; intros start p rest Hp q Hq.
  - discriminate Hp.
  - unfold pick in Hp. cbn [seq map Maxima.picked] in Hp.
    assert (Hlater : forall r, In r (pick (map Z.of_nat (seq (S start) count)))
                               -> Z.of_nat start < fst (fst r)).
    { intros r Hr. apply picked_sound in Hr. destruct Hr as (Hr & _).
      apply in_map_iff in Hr. destruct Hr as (k & <- & Hk).
      apply in_seq in Hk. lia. }
    destruct (getitem x_axis (Z.of_nat start)) as [xv|];
      [destruct (getitem a (Z.of_nat start)) as [v|];
       [destruct (Maxima.in_window le lower upper xv)|]|].
    1:{ injection Hp as <- <-. cbn [fst]. apply Hlater. exact Hq. }
    all: exact (IH _ _ _ Hp q Hq).
Qed.

(** The second loop takes one turn per collected point. *)
Lemma climb_spec (post : list (Maxima.point X Y)) :
  forall pre b,
    (forall p, In p post ->
               getitem x_axis (fst (fst p)) = Some (snd (fst p))) ->
    Maxima.climb lt x_axis (Maxima.columns (pre ++ post))
                 (map Z.of_nat (seq (List.length pre) (List.length post))) b
    = Some (fold_left (Maxima.turn lt) post b).
Proof.
  induction post as [|p post IH]; intros pre b Hx.
  - reflexivity.
  - cbn [List.length seq map Maxima.climb fold_left].
    assert (Hpos : 0 <= Z.of_nat (List.length pre)
                   < len (pre ++ p :: post)).
    { unfold len. rewrite length_app. cbn [List.length]. lia. }
    assert (Hnth : nth_error (pre ++ p :: post)
                             (Z.to_nat (Z.of_nat (List.length pre)))
                   = Some p).
    { rewrite Nat2Z.id, nth_error_app2 by lia.
      rewrite Nat.sub_diag. reflexivity. }
    cbn [Maxima.columns Maxima.y Maxima.indices].
    rewrite !getitem_map.
    rewrite (getitem_in_range (pre ++ p :: post)) by exact Hpos.
    rewrite Hnth. cbn [option_map].
    specialize (IH (pre ++ [p])).
    rewrite <- app_assoc in IH. cbn [app] in IH.
    rewrite length_app in IH. cbn [List.length] in IH.
    rewrite Nat.add_1_r in IH.
    assert (Hrest : forall q, In q post ->
                getitem x_axis (fst (fst q)) = Some (snd (fst q)))
      by (intros q Hq; apply Hx; right; exact Hq).
    unfold Maxima.turn at 2.
    destruct (lt (Maxima.best_y_value b) (snd p)) eqn:Hlt.
    + rewrite (Hx p (or_introl eq_refl)).
      apply IH. exact Hrest.
    + apply IH. exact Hrest.
Qed.

Context (lt_irreflexive : forall v, lt v v = false)
        (lt_transitive : forall u v w,
            lt u v = true -> lt v w = true -> lt u w = true).

(** After the turns the running best is the start or one of the points,
    no point exceeds it, and it is not below the start. *)
Lemma turns_spec (points : list (Maxima.point X Y)) :
  forall b,
    let b' := fold_left (Maxima.turn lt) points b in
    (b' = b
     \/ exists p, In p points
                  /\ b' = Maxima.mkBest (fst (fst p)) (snd (fst p)) (snd p))
    /\ (forall p, In p points ->
                  lt (Maxima.best_y_value b') (snd p) = false)
    /\ (forall v, lt (Maxima.best_y_value b') v = true ->
                  lt (Maxima.best_y_value b) v = true).
Proof.
  induction points as [|p points IH]; intros b; cbn zeta.
  - cbn [fold_left]. split; [left; reflexivity|].
    split; [intros p []|intros v Hv; exact Hv].
  - cbn [fold_left].
    destruct (IH (Maxima.turn lt b p)) as (Horigin & Hmax & Hup).
    set (b' := fold_left (Maxima.turn (X:=X) lt) points
                        (Maxima.turn lt b p)) in *.
    unfold Maxima.turn in Horigin, Hup.
    destruct (lt (Maxima.best_y_value b) (snd p)) eqn:Hlt.
    + cbn [Maxima.best_y_value] in Hup.
      split.
      { right. destruct Horigin as [->|(q & Hq & ->)].
        - exists p. split; [left; reflexivity|reflexivity].
        - exists q. split; [right; exact Hq|reflexivity]. }
      split.
      { intros q [<-|Hq]; [|apply Hmax; exact Hq].
        destruct (lt (Maxima.best_y_value b') (snd p)) eqn:Hc;
          [|reflexivity].
        apply Hup in Hc. rewrite lt_irreflexive in Hc. discriminate Hc. }
      intros v Hv. apply (lt_transitive _ _ _ Hlt). apply Hup. exact Hv.
    + split.
      { destruct Horigin as [->|(q & Hq & ->)]; [left; reflexivity|].
        right. exists q. split; [right; exact Hq|reflexivity]. }
      split.
      { intros q [<-|Hq]; [|apply Hmax; exact Hq].
        destruct (lt (Maxima.best_y_value b') (snd p)) eqn:Hc;
          [|reflexivity].
        apply Hup in Hc. congruence. }
      exact Hup.
Qed.

Lemma inside_picked (i : Z) (value : Y) :
  len x_axis <= len a ->
  Maxima.inside le lower upper x_axis i -> getitem a i = Some value ->
  exists x_value,
    getitem x_axis i = Some x_value
    /\ In (i, x_value, value) (pick (range (len x_axis))).
Proof.
  intros Hlen (Hpos & x_value & Hx & Hw) Ha.
  exists x_value. split; [exact Hx|].
  apply picked_complete; try assumption.
  destruct (Z.lt_ge_cases i (len x_axis)) as [Hlt|Hge].
  - unfold range. apply in_map_iff. exists (Z.to_nat i).
    split; [lia|]. apply in_seq. lia.
  - rewrite getitem_out_of_range in Hx by exact Hge. discriminate Hx.
Qed.

Lemma picked_inside (p : Maxima.point X Y) :
  In p (pick (range (len x_axis))) ->
  Maxima.inside le lower upper x_axis (fst (fst p))
  /\ getitem x_axis (fst (fst p)) = Some (snd (fst p))
  /\ getitem a (fst (fst p)) = Some (snd p).
Proof.
  intros Hp. apply picked_sound in Hp.
  destruct Hp as (Hin & Hx & Hw & Ha).
  apply range_In in Hin.
  split; [|split; assumption].
  split; [lia|]. exists (snd (fst p)). split; assumption.
Qed.

(** X10. [find_local_maxima] on an [a] at least as long as [x_axis], for
    a [<] that is irreflexive and transitive (as Python's is on ints and on
    floats, NaN included). When no entry of the axis lies within the
    tolerance it raises [TypeError], the answer to [raise] of a string.
    Otherwise it returns a triple whose index is an index of the window,
    whose y value is the entry of [a] there, and which no y value of the
    window exceeds; the x value returned is the axis entry at that index,
    except when the first point of the window is the maximum: then it is
    [x_axis[0]], the first entry of the whole axis. *)
Theorem find_local_maxima_finds_a_maximum :
  len x_axis <= len a ->
  ((forall i, ~ Maxima.inside le lower upper x_axis i)
   /\ Maxima.find_local_maxima le lt lower upper a x_axis
      = Maxima.RaisesTypeError)
  \/ exists first best_y_value best_x_value best_x_index,
       Maxima.find_local_maxima le lt lower upper a x_axis
       = Maxima.Maximum best_y_value best_x_value best_x_index
       /\ Maxima.inside le lower upper x_axis first
       /\ (forall j, Maxima.inside le lower upper x_axis j -> first <= j)
       /\ Maxima.inside le lower upper x_axis best_x_index
       /\ getitem a best_x_index = Some best_y_value
       /\ (forall j value,
              Maxima.inside le lower upper x_axis j ->
              getitem a j = Some value -> lt best_y_value value = false)
       /\ getitem x_axis (if best_x_index =? first then 0 else best_x_index)
          = Some best_x_value.
Proof.
  intros Hlen.
  unfold Maxima.find_local_maxima.
  rewrite (gather_spec (range (len x_axis)) _ Hlen (range_In (len x_axis))).
  cbn [Maxima.x Maxima.y Maxima.indices app].
  pose proof picked_inside as Hsound.
  pose proof (fun i v => inside_picked i v Hlen) as Hcomplete.
  pose proof (picked_ascending (Z.to_nat (len x_axis)) 0) as Hasc.
  fold (range (len x_axis)) in Hasc.
  destruct (pick (range (len x_axis))) as [|p0 rest] eqn:Hpick.
  - left. split; [|reflexivity].
    intros i Hi.
    assert (Hlt : i < len x_axis).
    { destruct Hi as (_ & xv & Hx & _).
      destruct (Z.lt_ge_cases i (len x_axis)) as [H|H]; [exact H|].
      rewrite getitem_out_of_range in Hx by exact H. discriminate Hx. }
    assert (Hpos : 0 <= i) by apply Hi.
    destruct (nth_error a (Z.to_nat i)) as [v|] eqn:Ha.
    2:{ apply nth_error_None in Ha. unfold len in Hlt, Hlen. lia. }
    destruct (Hcomplete i v Hi) as (xv & _ & []).
    rewrite getitem_in_range by lia. exact Ha.
  - right.
    destruct p0 as [[first x_first] y_first].
    destruct (Hsound _ (or_introl eq_refl)) as (Hfirst & Hxfirst & Hafirst).
    cbn [fst snd] in Hfirst, Hxfirst, Hafirst.
    assert (Hminimal : forall j, Maxima.inside le lower upper x_axis j ->
                                 first <= j).
    { intros j Hj.
      assert (Hjlt : 0 <= j < len x_axis).
      { destruct Hj as (Hpos & xv & Hx & _). split; [exact Hpos|].
        destruct (Z.lt_ge_cases j (len x_axis)) as [H|H]; [exact H|].
        rewrite getitem_out_of_range in Hx by exact H. discriminate Hx. }
      destruct (nth_error a (Z.to_nat j)) as [v|] eqn:Ha.
      2:{ apply nth_error_None in Ha. unfold len in Hjlt, Hlen. lia. }
      destruct (Hcomplete j v Hj) as (xv & _ & [Heq|Hin]).
      { rewrite getitem_in_range by lia. exact Ha. }
      - injection Heq as -> _ _. lia.
      - specialize (Hasc _ _ eq_refl _ Hin). cbn [fst] in Hasc. lia. }
    assert (Hzero : exists x_zero, getitem x_axis 0 = Some x_zero).
    { assert (Hlt : first < len x_axis).
      { destruct (Z.lt_ge_cases first (len x_axis)) as [H|H]; [exact H|].
        rewrite getitem_out_of_range in Hxfirst by exact H.
        discriminate Hxfirst. }
      assert (Hpos : 0 <= first) by apply Hfirst.
      rewrite getitem_in_range by lia.
      destruct x_axis as [|x_zero tail]; [unfold len in Hlt; cbn in Hlt; lia|].
      exists x_zero. reflexivity. }
    destruct Hzero as (x_zero & Hzero).
    cbn [Maxima.columns Maxima.x Maxima.y Maxima.indices map fst snd].
    unfold getitem at 1. cbn [List.length]. rewrite position_in_range by lia.
    cbn [Z.to_nat nth_error].
    rewrite Hzero.
    unfold getitem at 1. cbn [List.length]. rewrite position_in_range by lia.
    cbn [Z.to_nat nth_error].
    pose proof (climb_spec ((first, x_first, y_first) :: rest) []
                  (Maxima.mkBest first x_zero y_first)) as Hclimb.
    unfold Maxima.columns in Hclimb.
    cbn [app map fst snd List.length] in Hclimb.
    unfold range, len. cbn [List.length]. rewrite Nat2Z.id, length_map.
    specialize (Hclimb (fun p Hp => proj1 (proj2 (Hsound p Hp)))).
    match goal with
    | |- context [Maxima.climb ?l ?xa ?s ?t ?b] =>
        replace (Maxima.climb l xa s t b)
          with (Some (fold_left (Maxima.turn (X:=X) lt)
                                ((first, x_first, y_first) :: rest)
                                (Maxima.mkBest first x_zero y_first)))
          by (symmetry; exact Hclimb)
    end.
    clear Hclimb.
    cbn [fold_left].
    assert (Hstay : Maxima.turn lt (Maxima.mkBest first x_zero y_first)
                                (first, x_first, y_first)
                    = Maxima.mkBest first x_zero y_first).
    { unfold Maxima.turn. cbn [Maxima.best_y_value snd].
      rewrite lt_irreflexive. reflexivity. }
    rewrite Hstay. clear Hstay.
    destruct (turns_spec rest (Maxima.mkBest first x_zero y_first))
      as (Horigin & Hmax & Hup).
    cbn [Maxima.best_y_value] in Hup.
    set (b' := fold_left (Maxima.turn (X:=X) lt) rest
                         (Maxima.mkBest first x_zero y_first)) in *.
    assert (Hbest : forall j value,
               Maxima.inside le lower upper x_axis j ->
               getitem a j = Some value ->
               lt (Maxima.best_y_value b') value = false).
    { intros j value Hj Ha.
      destruct (Hcomplete j value Hj Ha) as (xv & _ & [Heq|Hin]).
      - injection Heq as _ _ <-.
        destruct (lt (Maxima.best_y_value b') y_first) eqn:Hc;
          [|reflexivity].
        apply Hup in Hc. rewrite lt_irreflexive in Hc. discriminate Hc.
      - apply (Hmax _ Hin). }
    exists first, (Maxima.best_y_value b'), (Maxima.best_x_value b'),
           (Maxima.best_x_index b').
    split; [reflexivity|]. split; [exact Hfirst|].
    split; [exact Hminimal|].
    destruct Horigin as [Hsame|(q & Hq & Hsame)]; rewrite Hsame in *;
      cbn [Maxima.best_x_index Maxima.best_x_value Maxima.best_y_value] in *.
    + split; [exact Hfirst|]. split; [exact Hafirst|].
      split; [exact Hbest|]. rewrite Z.eqb_refl. exact Hzero.
    + destruct (Hsound q (or_intror Hq)) as (Hqin & Hqx & Hqa).
      specialize (Hasc _ _ eq_refl _ Hq). cbn [fst] in Hasc.
      split; [exact Hqin|]. split; [exact Hqa|].
      split; [exact Hbest|].
      destruct (Z.eqb_spec (fst (fst q)) first) as [Heq|_]; [lia|exact Hqx].
Qed.

End LocalMaximaFacts.

(** Four integer points, the last three within 15..45; the maximum 5 is
    first reached at index 1, the first point of the window. *)
Lemma find_local_maxima_finds_a_maximum_witness :
  ((forall i, ~ Maxima.inside Z.leb 15 45 [10; 20; 30; 40] i)
   /\ Maxima.find_local_maxima Z.leb Z.ltb 15 45 [1; 5; 3; 5] [10; 20; 30; 40]
      = Maxima.RaisesTypeError)
  \/ exists first best_y_value best_x_value best_x_index,
       Maxima.find_local_maxima Z.leb Z.ltb 15 45 [1; 5; 3; 5]
                                [10; 20; 30; 40]
       = Maxima.Maximum best_y_value best_x_value best_x_index
       /\ Maxima.inside Z.leb 15 45 [10; 20; 30; 40] first
       /\ (forall j, Maxima.inside Z.leb 15 45 [10; 20; 30; 40] j ->
                     first <= j)
       /\ Maxima.inside Z.leb 15 45 [10; 20; 30; 40] best_x_index
       /\ getitem [1; 5; 3; 5] best_x_index = Some best_y_value
       /\ (forall j value,
              Maxima.inside Z.leb 15 45 [10; 20; 30; 40] j ->
              getitem [1; 5; 3; 5] j = Some value ->
              Z.ltb best_y_value value = false)
       /\ getitem [10; 20; 30; 40]
                  (if best_x_index =? first then 0 else best_x_index)
          = Some best_x_value.
Proof.
  apply (find_local_maxima_finds_a_maximum Z.leb Z.ltb 15 45 [1; 5; 3; 5]
           [10; 20; 30; 40]).
  - intros v. apply Z.ltb_irrefl.
  - intros u v w Huv Hvw. apply Z.ltb_lt. apply Z.ltb_lt in Huv, Hvw. lia.
  - unfold len. cbn [List.length]. lia.
Defined.

(** The same call evaluated: the x value returned is 10, the entry at
    index 0, not the 20 at index 1. *)
Example find_local_maxima_sample :
  Maxima.find_local_maxima Z.leb Z.ltb 15 45 [1; 5; 3; 5] [10; 20; 30; 40]
  = Maxima.Maximum 5 10 1.
Proof. reflexivity. Qed.


(** ** Peaks whose feet coincide *)

(** A finite binary64 value minus itself compares equal to zero. *)
Lemma sub_self_is_zero (f : float) :
  Arith.finite f = true -> PrimFloat.eqb (PrimFloat.sub f f) 0%float = true.
Proof.
  unfold Arith.finite. intros Hf.
  rewrite FloatAxioms.eqb_spec, FloatAxioms.sub_spec, Prim2SF_zero.
  unfold SF64sub.
  destruct (Prim2SF f) as [s|s| |s m e]; try discriminate Hf.
  - destruct s; reflexivity.
  - cbv beta iota delta [SFsub]. cbv zeta.
    rewrite Z.sub_diag. reflexivity.
Qed.

(** The search for the left foot ends at once next to the first pixel, or
    below a greater neighbour. *)
Lemma left_foot_stays (spectrum : list num) (x_index : Z) :
  0 <= x_index < len spectrum ->
  x_index <= 1 \/ higher spectrum (x_index - 1) x_index ->
  left_foot Arith.gt spectrum
            (countdown (Z.to_nat (x_index - (0 + 1) + 1))) x_index
  = Some x_index.
Proof.
  intros Hx Hleft.
  replace (x_index - (0 + 1) + 1) with x_index by lia.
  destruct (Z.to_nat x_index) as [|k] eqn:Hk; [reflexivity|].
  cbn [countdown left_foot].
  destruct (Z.eqb_spec (Z.of_nat k) 0) as [|Hnz]; [reflexivity|].
  destruct Hleft as [Hedge|(u & v & Hu & Hv & Hgt)]; [lia|].
  replace (Z.of_nat k) with (x_index - 1) by lia.
  rewrite Hu, Hv, Hgt. reflexivity.
Qed.

(** The search for the right foot ends at once next to the last pixel, or
    below a greater neighbour. *)
Lemma right_foot_stays (spectrum : list num) (x_index : Z) :
  0 <= x_index < len spectrum ->
  len spectrum <= x_index + 2 \/ higher spectrum (x_index + 1) x_index ->
  right_foot Arith.gt spectrum (len spectrum)
             (countup (x_index + (0 + 1))
                      (Z.to_nat (len spectrum - (x_index + (0 + 1)))))
             x_index
  = Some x_index.
Proof.
  intros Hx Hright.
  replace (x_index + (0 + 1)) with (x_index + 1) by lia.
  destruct (Z.to_nat (len spectrum - (x_index + 1))) as [|k] eqn:Hk;
    [reflexivity|].
  cbn [countup right_foot].
  destruct (Z.eqb_spec (x_index + 1 + 1) (len spectrum)) as [|Hnz];
    [reflexivity|].
  destruct Hright as [Hedge|(u & v & Hu & Hv & Hgt)]; [lia|].
  rewrite Hu, Hv, Hgt. reflexivity.
Qed.

(** Both feet are then the index itself. *)
Lemma feet_coincide (spectrum : list num) (x_index : Z) :
  0 <= x_index < len spectrum ->
  x_index <= 1 \/ higher spectrum (x_index - 1) x_index ->
  len spectrum <= x_index + 2 \/ higher spectrum (x_index + 1) x_index ->
  find_peak_feet_indices Arith.gt spectrum x_index
  = Some (x_index, x_index).
Proof.
  intros Hx Hleft Hright.
  unfold find_peak_feet_indices, peak_feet.
  rewrite (left_foot_stays _ _ Hx Hleft).
  rewrite (right_foot_stays _ _ Hx Hright). reflexivity.
Qed.

(** The difference of a settled number with itself is a zero divisor. *)
Lemma own_difference_divides_by_zero (n : num) :
  settled n = true ->
  exists width,
    Arith.sub n n = Arith.Ok width
    /\ forall rise, Arith.float_truediv rise width
                    = Arith.Fails Arith.ZeroDivisionError.
Proof.
  destruct n as [z|f]; cbn [settled]; intros Hn.
  - exists (PyInt (z - z)). split; [reflexivity|]. intros rise.
    rewrite Z.sub_diag. vm_compute. reflexivity.
  - exists (PyFloat (PrimFloat.sub f f)). split; [reflexivity|].
    intros rise. unfold Arith.float_truediv.
    cbn [Arith.checked_float Arith.and_then].
    rewrite (sub_self_is_zero f Hn). reflexivity.
Qed.

(** The difference of any number with itself can be converted. *)
Lemma own_difference_converts (n : num) :
  exists rise rise_float,
    Arith.sub n n = Arith.Ok rise
    /\ Arith.checked_float rise = Arith.Ok rise_float.
Proof.
  destruct n as [z|f].
  - exists (PyInt (z - z)), (float_of_int 0). split; [reflexivity|].
    rewrite Z.sub_diag. vm_compute. reflexivity.
  - exists (PyFloat (PrimFloat.sub f f)), (PrimFloat.sub f f).
    split; reflexivity.
Qed.

(** A subscript within the list raises nothing. *)
Lemma subscript_in_range {A} (l : list A) (i : Z) :
  0 <= i < len l -> exists v, Arith.subscript l i = Arith.Ok v.
Proof.
  intros Hi. unfold Arith.subscript.
  rewrite getitem_in_range by exact Hi.
  destruct (nth_error l (Z.to_nat i)) as [v|] eqn:Hv.
  - exists v. reflexivity.
  - apply nth_error_None in Hv. unfold len in Hi. lia.
Qed.

(** X11. [peak_height_above_background] at an index where the search for
    both feet ends at once (the index is next to an edge of the spectrum or
    its neighbour is greater, on either side) never returns a height: the
    two feet are the index itself, the width [x_axis[right] - x_axis[left]]
    is zero for an [int] or a finite [float] on the axis, and the slope
    raises [ZeroDivisionError]. *)
Theorem peak_height_above_background_divides_by_zero
    (spectrum x_axis : list num) (x_index : Z) (x_peak : num) :
  0 <= x_index < len spectrum ->
  getitem x_axis x_index = Some x_peak ->
  settled x_peak = true ->
  x_index <= 1 \/ higher spectrum (x_index - 1) x_index ->
  len spectrum <= x_index + 2 \/ higher spectrum (x_index + 1) x_index ->
  peak_height_above_background spectrum x_axis x_index
  = Arith.Fails Arith.ZeroDivisionError.
Proof.
  intros Hx Haxis Hsettled Hleft Hright.
  unfold peak_height_above_background.
  rewrite (feet_coincide _ _ Hx Hleft Hright).
  destruct (own_difference_divides_by_zero _ Hsettled)
    as (width & Hwidth & Hdiv).
  destruct (subscript_in_range spectrum x_index Hx) as (s_peak & Hs).
  destruct (own_difference_converts s_peak)
    as (rise & rise_float & Hrise & Hfloat).
  assert (Hxs : Arith.subscript x_axis x_index = Arith.Ok x_peak)
    by (unfold Arith.subscript; rewrite Haxis; reflexivity).
  rewrite Hxs. cbn [Arith.and_then].
  rewrite Hwidth. cbn [Arith.and_then].
  rewrite Hs. cbn [Arith.and_then].
  rewrite Hrise. cbn [Arith.and_then].
  rewrite Hfloat. cbn [Arith.and_then].
  rewrite Hdiv. reflexivity.
Qed.

(** X12. [area_under_peak] raises [ZeroDivisionError] in the same
    situation, before its loop and before [numpy.trapz] are reached. *)
Theorem area_under_peak_divides_by_zero {R : Type}
    (trapz : list num -> list num -> R)
    (spectrum x_axis : list num) (x_index : Z) (x_peak : num) :
  0 <= x_index < len spectrum ->
  getitem x_axis x_index = Some x_peak ->
  settled x_peak = true ->
  x_index <= 1 \/ higher spectrum (x_index - 1) x_index ->
  len spectrum <= x_index + 2 \/ higher spectrum (x_index + 1) x_index ->
  area_under_peak trapz spectrum x_axis x_index
  = Arith.Fails Arith.ZeroDivisionError.
Proof.
  intros Hx Haxis Hsettled Hleft Hright.
  unfold area_under_peak.
  rewrite (feet_coincide _ _ Hx Hleft Hright).
  destruct (own_difference_divides_by_zero _ Hsettled)
    as (width & Hwidth & Hdiv).
  destruct (subscript_in_range spectrum x_index Hx) as (s_peak & Hs).
  destruct (own_difference_converts s_peak)
    as (rise & rise_float & Hrise & Hfloat).
  assert (Hxs : Arith.subscript x_axis x_index = Arith.Ok x_peak)
    by (unfold Arith.subscript; rewrite Haxis; reflexivity).
  rewrite Hs. cbn [Arith.and_then].
  rewrite Hrise. cbn [Arith.and_then].
  rewrite Hfloat. cbn [Arith.and_then].
  rewrite Hxs. cbn [Arith.and_then].
  rewrite Hwidth. cbn [Arith.and_then].
  rewrite Hdiv. reflexivity.
Qed.

(** The dip at index 2: both neighbours are greater. *)
Lemma peak_height_above_background_divides_by_zero_witness :
  peak_height_above_background dip dip_axis 2
  = Arith.Fails Arith.ZeroDivisionError.
Proof.
  apply (peak_height_above_background_divides_by_zero dip dip_axis 2
           (PyFloat 803)).
  - unfold len, dip. cbn [List.length]. lia.
  - reflexivity.
  - vm_compute. reflexivity.
  - right. exists (PyInt 9), (PyInt 1). repeat split.
  - right. exists (PyInt 7), (PyInt 1). repeat split.
Defined.

(** The same dip, whatever the integration does. *)
Lemma area_under_peak_divides_by_zero_witness :
  area_under_peak (fun _ _ => tt) dip dip_axis 2
  = Arith.Fails Arith.ZeroDivisionError.
Proof.
  apply (area_under_peak_divides_by_zero (fun _ _ => tt) dip dip_axis 2
           (PyFloat 803)).
  - unfold len, dip. cbn [List.length]. lia.
  - reflexivity.
  - vm_compute. reflexivity.
  - right. exists (PyInt 9), (PyInt 1). repeat split.
  - right. exists (PyInt 7), (PyInt 1). repeat split.
Defined.

(** A proper peak: feet at 1 and 3, slope 0.5, baseline 3.5 under the
    peak of 9. *)
Example peak_height_above_background_sample :
  peak_height_above_background bump bump_axis 2
  = Arith.Ok (PyFloat 5.5, PyInt 2, 3).
Proof. vm_compute. reflexivity. Qed.

(** ** The case of the detector name *)

Lemma upper_lower_ascii (c : ascii) :
  upper_ascii (lower_ascii c) = upper_ascii c.
Proof.
  destruct c as [[] [] [] [] [] [] [] []]; vm_compute; reflexivity.
Qed.

Lemma upper_lower (s : string) : upper (lower s) = upper s.
Proof.
  induction s as [|c t IH]; [reflexivity|].
  cbn [lower upper]. rewrite upper_lower_ascii, IH. reflexivity.
Qed.

(** X13. The detector name is read without regard to case: two settings
    whose detector names (of 7-bit characters) are equal once lowered, and
    whose EEPROM format and startup temperature agree, give the same
    [is_imx()], the same [is_InGaAs()] and the same
    [default_detector_setpoint_degC()], although the first two lower the
    name and the third raises it. *)
Theorem detector_case_is_ignored (s s' : SpectrometerSettings)
    (has_cf_select : bool) :
  seven_bit (detector (eeprom s)) = true ->
  seven_bit (detector (eeprom s')) = true ->
  lower (detector (eeprom s')) = lower (detector (eeprom s)) ->
  format (eeprom s') = format (eeprom s) ->
  startup_temp_degC (eeprom s') = startup_temp_degC (eeprom s) ->
  is_imx s' = is_imx s
  /\ is_InGaAs s' has_cf_select = is_InGaAs s has_cf_select
  /\ default_detector_setpoint_degC s' = default_detector_setpoint_degC s.
Proof.
  intros _ _ Hlower Hformat Htemp.
  unfold is_imx, is_InGaAs, default_detector_setpoint_degC.
  rewrite Hlower, Hformat, Htemp.
  rewrite <- (upper_lower (detector (eeprom s'))), Hlower, upper_lower.
  repeat split.
Qed.

(** The sample unit (EEPROM format 3) with its detector named in two
    spellings. *)
Lemma detector_case_is_ignored_witness :
  is_imx (with_detector "hamamatsu s10141" sample_settings)
  = is_imx (with_detector "Hamamatsu S10141" sample_settings)
  /\ is_InGaAs (with_detector "hamamatsu s10141" sample_settings) false
     = is_InGaAs (with_detector "Hamamatsu S10141" sample_settings) false
  /\ default_detector_setpoint_degC
       (with_detector "hamamatsu s10141" sample_settings)
     = default_detector_setpoint_degC
         (with_detector "Hamamatsu S10141" sample_settings).
Proof.
  apply (detector_case_is_ignored
           (with_detector "Hamamatsu S10141" sample_settings)
           (with_detector "hamamatsu s10141" sample_settings) false);
    reflexivity.
Defined.

(** The table is reached through either spelling. *)
Example detector_case_sample :
  default_detector_setpoint_degC
    (with_detector "hamamatsu s10141" sample_settings) = Some (-15)
  /\ is_InGaAs (with_detector "G9214-512" sample_settings) false = true
  /\ is_InGaAs (with_detector "Hamamatsu G9214" sample_settings) false = false.
Proof. repeat split. Qed.
